(** * video-transcoding-api: provider adapter and job life cycle

    A shallow embedding of [service/transcode.go] (job submission, job
    status, callback delivery loop) and of the Elastic Transcoder
    provider (source normalisation, output keys, preset creation, status
    mapping, progress), with the properties the specification states
    about them.

    Go values are modelled as follows: [string] is a sequence of bytes
    (Rocq's [string]); a pointer that may be nil is an [option]; a
    [(value, error)] result is an [outcome], which also records a
    run-time panic; a [map[string]T] is a [gmap string T]; [float64] is
    Rocq's primitive binary64 float; [time.Time] and [time.Duration] are
    integers counting nanoseconds. *)

From Stdlib Require Import ZArith String Ascii List Bool PrimFloat Uint63 DecimalString.
From stdpp Require Import base gmap strings list.
From Stdlib Require DecimalPos.

Set Warnings "-register-all".

Local Open Scope Z_scope.

(** ** The parts of Go's run time and standard library the code uses *)

Module Go.

(** An [error] value, by dynamic type. Values made by [errors.New] are
    pointers and compare by identity: one held in a package-level
    variable is named by that variable. [fmt.Errorf] makes a fresh value
    each time; its format and arguments are kept unrendered, the error
    among them as [cause]. [InvalidConfigError] and [JobNotFoundError]
    are the error types of package provider. A [foreignError] is made by
    a collaborator (the AWS SDK, the store, the HTTP client) and carries
    the text of its [Error()]. *)
Inductive error : Type :=
| errorString (var : string)
| InvalidConfigError (msg : string)
| JobNotFoundError (id : string)
| Errorf (format : string) (args : list string) (cause : option error)
| foreignError (origin msg : string).

Inductive outcome (A : Type) : Type :=
| Ok (a : A)
| Err (e : error)
| Panic (why : string).
Arguments Ok {A} a.
Arguments Err {A} e.
Arguments Panic {A} why.

(** The result of a function that returns no error: its value, or a
    run-time panic. *)
Inductive value (A : Type) : Type :=
| Val (a : A)
| Crash (why : string).
Arguments Val {A} a.
Arguments Crash {A} why.

Definition nil_dereference : string := "invalid memory address or nil pointer dereference".

(** *** package strings (byte level; on ASCII text bytes and code points
    coincide) *)

Fixpoint skip (n : nat) (s : string) : string :=
  match n, s with
  | O, _ => s
  | S n', String _ s' => skip n' s'
  | S _, EmptyString => EmptyString
  end.

(** The text before and after the first occurrence of [sep] in [s]. *)
Fixpoint cut (sep s : string) : option (string * string) :=
  if String.prefix sep s then Some (EmptyString, skip (String.length sep) s)
  else match s with
       | EmptyString => None
       | String c s' =>
           match cut sep s' with
           | Some (a, b) => Some (String c a, b)
           | None => None
           end
       end.

(** [strings.Replace(s, old, new, 1)]. *)
Definition strings_Replace_1 (s old new : string) : string :=
  match cut old s with
  | Some (a, b) => a +:+ new +:+ b
  | None => s
  end.

(** [strings.SplitN(s, sep, 2)] for a non-empty [sep]. *)
Definition strings_SplitN_2 (s sep : string) : list string :=
  match cut sep s with
  | Some (a, b) => [a; b]
  | None => [s]
  end.

Fixpoint drop_while_in (cutset : list ascii) (l : list ascii) : list ascii :=
  match l with
  | [] => []
  | c :: l' => if existsb (Ascii.eqb c) cutset then drop_while_in cutset l' else l
  end.

(** [utf8.RuneSelf]: the bytes below it are the characters of ASCII,
    each a rune of its own. *)
Definition RuneSelf : nat := 128.

(** [strings.TrimRight(s, cutset)]: every trailing character that occurs
    in [cutset] is removed. The model compares byte by byte, which is
    what Go does for strings of ASCII characters; on other strings Go
    compares runes, and the results below are stated for ASCII ones
    where they depend on the difference. *)
Definition strings_TrimRight (s cutset : string) : string :=
  string_of_list_ascii
    (rev (drop_while_in (list_ascii_of_string cutset) (rev (list_ascii_of_string s)))).

Definition lower (c : ascii) : ascii :=
  let n := nat_of_ascii c in
  if (Nat.leb 65 n && Nat.leb n 90)%bool then ascii_of_nat (n + 32) else c.

Fixpoint strings_ToLower (s : string) : string :=
  match s with
  | EmptyString => EmptyString
  | String c s' => String (lower c) (strings_ToLower s')
  end.

(** *** package path/filepath, with the path separator [/] *)

(** The loop of [filepath.Ext], which walks the path from its end: [seen]
    is the part already passed. *)
Fixpoint ext_scan (rev_path seen : list ascii) : list ascii :=
  match rev_path with
  | [] => []
  | c :: r =>
      if Ascii.eqb c "/" then []
      else if Ascii.eqb c "." then c :: seen
      else ext_scan r (c :: seen)
  end.

Definition filepath_Ext (path : string) : string :=
  string_of_list_ascii (ext_scan (rev (list_ascii_of_string path)) []).

(** *** package strconv, for [int] of 64 bits *)

Definition maxInt : Z := 2 ^ 63 - 1.
Definition minInt : Z := - 2 ^ 63.

Definition strconv_Itoa (i : Z) : string := NilZero.string_of_int (Z.to_int i).

Definition digit (c : ascii) : option Z :=
  let n := nat_of_ascii c in
  if (Nat.leb 48 n && Nat.leb n 57)%bool then Some (Z.of_nat (n - 48)) else None.

Fixpoint digits (s : string) (acc : Z) : option Z :=
  match s with
  | EmptyString => Some acc
  | String c s' =>
      match digit c with
      | Some d => digits s' (10 * acc + d)
      | None => None
      end
  end.

Definition clamp (i : Z) : Z := Z.max minInt (Z.min maxInt i).

(** [strconv.Atoi]: the value and whether an error is returned with it.
    A syntax error gives 0, a value out of range gives the nearest
    [int]. *)
Definition strconv_Atoi (s : string) : Z * bool :=
  let '(neg, body) :=
    match s with
    | String "-" s' => (true, s')
    | String "+" s' => (false, s')
    | _ => (false, s)
    end in
  match body with
  | EmptyString => (0, true)
  | _ =>
      match digits body 0 with
      | None => (0, true)
      | Some n =>
          let v := if neg then - n else n in
          (clamp v, negb (Z.eqb (clamp v) v))
      end
  end.

(** *** package time *)

Definition wrap64 (i : Z) : Z := (i + 2 ^ 63) mod 2 ^ 64 - 2 ^ 63.

Definition Second : Z := 1000000000.
Definition Hour : Z := 3600 * Second.

End Go.
Export Go.

(** ** Package db: the records of the store

    Modelled from the spec: the declarations of package db are not among
    the sources. A job is the persistent record of the data model, with
    the fields [service/transcode.go] and the provider read and write; a
    preset carries its mapping from provider names to the identifiers of
    the providers. *)

Module db.

Module StreamingParams.
Record t := { SegmentDuration : Z; Protocol : string }.
Definition zero : t := {| SegmentDuration := 0; Protocol := "" |}.
End StreamingParams.

(** [StatusCallbackInterval] is an unsigned number of seconds. *)
Module Job.
Record t := {
  ID : string;
  ProviderName : string;
  ProviderJobID : string;
  StatusCallbackURL : string;
  StatusCallbackInterval : Z;
  CompletionCallbackURL : string;
  StreamingParams : StreamingParams.t
}.
End Job.

Module Preset.
Record t := { Name : string; ProviderMapping : gmap string string }.
End Preset.

(** The sentinel errors of the package, each held by its own variable. *)
Definition ErrJobNotFound : error := errorString "db.ErrJobNotFound".
Definition ErrPresetNotFound : error := errorString "db.ErrPresetNotFound".

End db.

(** ** Package provider: what every back end shares

    Modelled from the spec: the declarations of package provider are not
    among the sources. [Status] is the closed enumeration of the data
    model; the records have the fields the service and the Elastic
    Transcoder provider read and write. *)

Module provider.

Inductive Status := StatusQueued | StatusStarted | StatusFinished | StatusFailed | StatusCanceled.

Definition Status_eqb (a b : Status) : bool :=
  match a, b with
  | StatusQueued, StatusQueued | StatusStarted, StatusStarted
  | StatusFinished, StatusFinished | StatusFailed, StatusFailed
  | StatusCanceled, StatusCanceled => true
  | _, _ => false
  end.

Module StreamingParams.
Record t := { SegmentDuration : Z; Protocol : string; PlaylistFileName : string }.
End StreamingParams.

Module TranscodeOutput.
Record t := { Preset : db.Preset.t; FileName : string }.
End TranscodeOutput.

(** The service fills [Presets], the Elastic Transcoder provider reads
    [Outputs]; a field that a composite literal leaves out is empty. *)
Module TranscodeProfile.
Record t := {
  SourceMedia : string;
  Presets : list db.Preset.t;
  StreamingParams : StreamingParams.t;
  Outputs : list TranscodeOutput.t
}.
End TranscodeProfile.

Module VideoPreset.
Record t := {
  Codec : string; GopSize : string; GopMode : string;
  Width : string; Height : string; Bitrate : string
}.
End VideoPreset.

Module AudioPreset.
Record t := { Codec : string; Bitrate : string }.
End AudioPreset.

Module Preset.
Record t := {
  Name : string; Description : string; Container : string;
  Profile : string; ProfileLevel : string;
  Video : VideoPreset.t; Audio : AudioPreset.t
}.
End Preset.

Module MediaInfo.
Record t := { Duration : Z; Height : Z; Width : Z }.
End MediaInfo.

Module OutputFile.
Record t := { Path : string; Container : string; VideoCodec : string; Height : Z; Width : Z }.
End OutputFile.

Module JobOutput.
Record t := { Destination : string; Files : list OutputFile.t }.
End JobOutput.

(** [ProviderStatus] is the map [{"outputs": outputs}]; [outputs] maps an
    output key to its status detail. *)
Module JobStatus.
Record t := {
  ProviderJobID : string;
  ProviderName : string;
  Status : Status;
  Progress : float;
  ProviderStatus : gmap string (gmap string string);
  MediaInfo : MediaInfo.t;
  Output : JobOutput.t
}.
Definition set_ProviderName (name : string) (js : t) : t :=
  {| ProviderJobID := ProviderJobID js; ProviderName := name; Status := Status js;
     Progress := Progress js; ProviderStatus := ProviderStatus js;
     MediaInfo := MediaInfo js; Output := Output js |}.
End JobStatus.

(** The sentinel errors of the package, each held by the variable the
    sources name: the service tests for the first, the Elastic
    Transcoder provider returns the second. *)
Definition ErrPresetNotFound : error := errorString "provider.ErrPresetNotFound".
Definition ErrPresetMapNotFound : error := errorString "provider.ErrPresetMapNotFound".

(** [err.(InvalidConfigError)] and [err.(JobNotFoundError)]. *)
Definition is_InvalidConfigError (err : error) : bool :=
  match err with InvalidConfigError _ => true | _ => false end.
Definition is_JobNotFoundError (err : error) : bool :=
  match err with JobNotFoundError _ => true | _ => false end.

End provider.

(** ** Package config

    Modelled from the spec: the declarations of package config are not
    among the sources; the Elastic Transcoder settings are the ones the
    constructor of the provider reads. *)

Module config.

Module ElasticTranscoder.
Record t := {
  AccessKeyID : string; SecretAccessKey : string;
  Region : string; PipelineID : string
}.
End ElasticTranscoder.

Module Config.
Record t := { ElasticTranscoder : option ElasticTranscoder.t }.
End Config.

End config.

(** ** The Elastic Transcoder API of the AWS SDK

    Request and response records, reduced to the fields the provider
    reads or writes. A field the SDK declares as a pointer is an
    [option]. *)

Module awssdk.

Definition StringValue (s : option string) : string := default "" s.
Definition Int64Value (i : option Z) : Z := default 0 i.

Module VideoParameters.
Record t := {
  DisplayAspectRatio : option string; FrameRate : option string;
  SizingPolicy : option string; PaddingPolicy : option string;
  Codec : option string; KeyframesMaxDist : option string;
  CodecOptions : gmap string string;
  MaxWidth : option string; MaxHeight : option string;
  BitRate : option string; FixedGOP : option string
}.
End VideoParameters.

Module AudioParameters.
Record t := {
  Codec : option string; Channels : option string;
  SampleRate : option string; BitRate : option string
}.
End AudioParameters.

Module Thumbnails.
Record t := {
  PaddingPolicy : option string; Format : option string; Interval : option string;
  SizingPolicy : option string; MaxWidth : option string; MaxHeight : option string
}.
End Thumbnails.

Module CreatePresetInput.
Record t := {
  Name : option string; Description : option string; Container : option string;
  Video : option VideoParameters.t; Audio : option AudioParameters.t;
  Thumbnails : option Thumbnails.t
}.
End CreatePresetInput.

Module Preset.
Record t := {
  Id : option string; Container : option string;
  Video : option VideoParameters.t
}.
End Preset.

(** The response of both [ReadPreset] and [CreatePreset]. *)
Module PresetOutput.
Record t := { Preset : option Preset.t }.
End PresetOutput.

Module CreateJobOutput.
Record t := { PresetId : option string; Key : option string; SegmentDuration : option string }.
End CreateJobOutput.

Module CreateJobPlaylist.
Record t := { Format : option string; Name : option string; OutputKeys : list string }.
End CreateJobPlaylist.

Module DetectedProperties.
Record t := { DurationMillis : option Z; Height : option Z; Width : option Z }.
End DetectedProperties.

Module JobInput.
Record t := { Key : option string; DetectedProperties : option DetectedProperties.t }.
End JobInput.

Module CreateJobInput.
Record t := {
  PipelineId : option string;
  Input : option JobInput.t;
  Outputs : list CreateJobOutput.t;
  Playlists : list CreateJobPlaylist.t
}.
End CreateJobInput.

Module JobOutput.
Record t := {
  Status : option string; Key : option string; StatusDetail : option string;
  PresetId : option string; Height : option Z; Width : option Z
}.
End JobOutput.

Module Job.
Record t := {
  Id : option string; Status : option string;
  PipelineId : option string; OutputKeyPrefix : option string;
  Input : option JobInput.t;
  Outputs : list JobOutput.t
}.
End Job.

(** The response of both [CreateJob] and [ReadJob]. *)
Module JobResponse.
Record t := { Job : option Job.t }.
End JobResponse.

Module Pipeline.
Record t := { OutputBucket : option string }.
End Pipeline.

Module ReadPipelineOutput.
Record t := { Pipeline : option Pipeline.t }.
End ReadPipelineOutput.

(** What a call to the service answers: a response, or a failure whose
    [Error()] text is [text]. *)
Inductive reply (A : Type) : Type :=
| Reply (a : A)
| Failure (text : string).
Arguments Reply {A} a.
Arguments Failure {A} text.

(** [elastictranscoderiface.ElasticTranscoderAPI]: the answers of the
    service to the calls the provider makes, each a function of the
    request: equal requests of one run get one answer. *)
Module API.
Record t := {
  CreateJob : CreateJobInput.t -> reply JobResponse.t;
  ReadJob : option string -> reply JobResponse.t;
  CancelJob : option string -> reply unit;
  CreatePreset : CreatePresetInput.t -> reply PresetOutput.t;
  ReadPreset : option string -> reply PresetOutput.t;
  DeletePreset : option string -> reply unit;
  ReadPipeline : option string -> reply ReadPipelineOutput.t
}.
End API.

(** The requests sent, in order. *)
Inductive request : Type :=
| reqCreateJob (input : CreateJobInput.t)
| reqReadJob (id : option string)
| reqCancelJob (id : option string)
| reqCreatePreset (input : CreatePresetInput.t)
| reqReadPreset (id : option string)
| reqDeletePreset (id : option string)
| reqReadPipeline (id : option string).

End awssdk.

(** ** Package elastictranscoder: the Elastic Transcoder provider *)

Module elastictranscoder.
Import awssdk.

Definition Name : string := "elastictranscoder".
Definition defaultAWSRegion : string := "us-east-1".

(** [errors.New(...)], held by the package variable. *)
Definition errAWSInvalidConfig : error := errorString "elastictranscoder.errAWSInvalidConfig".

(** [s3Pattern.MatchString], for the pattern [^s3://]. *)
Definition s3Pattern_MatchString (s : string) : bool := String.prefix "s3://" s.

Module awsProvider.
Record t := { c : API.t; config : config.ElasticTranscoder.t }.
End awsProvider.

(** A method of the provider runs against the service: it yields the
    requests it sent and how it ended. *)
Definition run (A : Type) : Type := list request * outcome A.

Definition fail {A} (e : error) : run A := ([], Err e).
Definition panic {A} (why : string) : run A := ([], Panic why).

#[export] Instance run_ret : MRet run := fun A a => ([], Ok a).

#[export] Instance run_bind : MBind run := fun A B k m =>
  match m with
  | (sent, Ok a) => let '(sent', r) := k a in (sent ++ sent', r)
  | (sent, Err e) => (sent, Err e)
  | (sent, Panic why) => (sent, Panic why)
  end.

(** One call: the request is recorded, a failure becomes the error. *)
Definition send {A} (req : request) (answer : reply A) : run A :=
  ([req], match answer with
          | Reply a => Ok a
          | Failure text => Err (foreignError "aws" text)
          end).

(** [*ptr] *)
Definition deref {A} (ptr : option A) : run A :=
  match ptr with
  | Some a => mret a
  | None => panic nil_dereference
  end.

Definition statusMap (awsStatus : string) : provider.Status :=
  if String.eqb awsStatus "Submitted" then provider.StatusQueued
  else if String.eqb awsStatus "Progressing" then provider.StatusStarted
  else if String.eqb awsStatus "Complete" then provider.StatusFinished
  else if String.eqb awsStatus "Canceled" then provider.StatusCanceled
  else provider.StatusFailed.

Definition normalizeSource (source : string) : string :=
  if s3Pattern_MatchString source then
    let source := strings_Replace_1 source "s3://" "" in
    let parts := strings_SplitN_2 source "/" in
    List.last parts ""
  else source.

Definition outputKey (job : db.Job.t) (fileName : string) (adaptive : bool) : string :=
  let fileName :=
    if adaptive then strings_TrimRight fileName (filepath_Ext fileName) else fileName in
  db.Job.ID job +:+ "/" +:+ fileName.

(** [Transcode(job, transcodeProfile)], for a [job] that is not nil. *)
Section Transcode.
Variable p : awsProvider.t.
Variable job : db.Job.t.
Variable transcodeProfile : provider.TranscodeProfile.t.

(** The loop over the outputs: the outputs of the request, and the
    outputs found to be adaptive streaming ones, both in order. *)
Fixpoint transcodeOutputs (outputs : list provider.TranscodeOutput.t)
  : run (list CreateJobOutput.t * list provider.TranscodeOutput.t) :=
  match outputs with
  | [] => mret ([], [])
  | output :: rest =>
      match db.Preset.ProviderMapping (provider.TranscodeOutput.Preset output) !! Name with
      | None => fail provider.ErrPresetMapNotFound
      | Some presetID =>
          presetOutput ← send (reqReadPreset (Some presetID))
                               (API.ReadPreset (awsProvider.c p) (Some presetID));
          match PresetOutput.Preset presetOutput ≫= Preset.Container with
          | None => fail (Errorf "misconfigured preset: %s" [presetID] None)
          | Some container =>
              let isAdaptiveStreamingPreset := String.eqb container "ts" in
              let created := {|
                CreateJobOutput.PresetId := Some presetID;
                CreateJobOutput.Key :=
                  Some (outputKey job (provider.TranscodeOutput.FileName output)
                          isAdaptiveStreamingPreset);
                CreateJobOutput.SegmentDuration :=
                  if isAdaptiveStreamingPreset
                  then Some (strconv_Itoa (wrap64 (provider.StreamingParams.SegmentDuration
                               (provider.TranscodeProfile.StreamingParams transcodeProfile))))
                  else None |} in
              '(params_Outputs, adaptiveStreamingOutputs) ← transcodeOutputs rest;
              mret (created :: params_Outputs,
                   if isAdaptiveStreamingPreset
                   then output :: adaptiveStreamingOutputs
                   else adaptiveStreamingOutputs)
          end
      end
  end.

Definition jobPlaylists (adaptiveStreamingOutputs : list provider.TranscodeOutput.t)
  : list CreateJobPlaylist.t :=
  match adaptiveStreamingOutputs with
  | [] => []
  | _ =>
      let playlistFileName :=
        provider.StreamingParams.PlaylistFileName
          (provider.TranscodeProfile.StreamingParams transcodeProfile) in
      let playlistFileName :=
        strings_TrimRight playlistFileName (filepath_Ext playlistFileName) in
      [ {| CreateJobPlaylist.Format := Some "HLSv3";
           CreateJobPlaylist.Name := Some (db.Job.ID job +:+ "/" +:+ playlistFileName);
           CreateJobPlaylist.OutputKeys :=
             map (fun output => outputKey job (provider.TranscodeOutput.FileName output) true)
                 adaptiveStreamingOutputs |} ]
  end.

Definition Transcode : run provider.JobStatus.t :=
  let source := normalizeSource (provider.TranscodeProfile.SourceMedia transcodeProfile) in
  '(params_Outputs, adaptiveStreamingOutputs) ←
     transcodeOutputs (provider.TranscodeProfile.Outputs transcodeProfile);
  let params := {|
    CreateJobInput.PipelineId := Some (config.ElasticTranscoder.PipelineID (awsProvider.config p));
    CreateJobInput.Input := Some {| JobInput.Key := Some source; JobInput.DetectedProperties := None |};
    CreateJobInput.Outputs := params_Outputs;
    CreateJobInput.Playlists := jobPlaylists adaptiveStreamingOutputs |} in
  resp ← send (reqCreateJob params) (API.CreateJob (awsProvider.c p) params);
  created ← deref (JobResponse.Job resp);
  mret {| provider.JobStatus.ProviderName := Name;
         provider.JobStatus.ProviderJobID := StringValue (Job.Id created);
         provider.JobStatus.Status := provider.StatusQueued;
         provider.JobStatus.Progress := 0%float;
         provider.JobStatus.ProviderStatus := ∅;
         provider.JobStatus.MediaInfo :=
           {| provider.MediaInfo.Duration := 0; provider.MediaInfo.Height := 0;
              provider.MediaInfo.Width := 0 |};
         provider.JobStatus.Output :=
           {| provider.JobOutput.Destination := ""; provider.JobOutput.Files := [] |} |}.

End Transcode.

Definition createVideoPreset (preset : provider.Preset.t) : VideoParameters.t :=
  let video := provider.Preset.Video preset in
  let normalizedVideoBitRate := fst (strconv_Atoi (provider.VideoPreset.Bitrate video)) in
  let videoBitrate := strconv_Itoa (Z.quot normalizedVideoBitRate 1000) in
  {| VideoParameters.DisplayAspectRatio := Some "auto";
     VideoParameters.FrameRate := Some "auto";
     VideoParameters.SizingPolicy := Some "Fill";
     VideoParameters.PaddingPolicy := Some "Pad";
     VideoParameters.Codec :=
       if String.eqb (provider.VideoPreset.Codec video) "h264"
       then Some "H.264" else Some (provider.VideoPreset.Codec video);
     VideoParameters.KeyframesMaxDist := Some (provider.VideoPreset.GopSize video);
     VideoParameters.CodecOptions :=
       <["Profile" := strings_ToLower (provider.Preset.Profile preset)]>
       (<["Level" := provider.Preset.ProfileLevel preset]>
       (<["MaxReferenceFrames" := "2"]> ∅));
     VideoParameters.MaxWidth :=
       if negb (String.eqb (provider.VideoPreset.Width video) "")
       then Some (provider.VideoPreset.Width video) else Some "auto";
     VideoParameters.MaxHeight :=
       if negb (String.eqb (provider.VideoPreset.Height video) "")
       then Some (provider.VideoPreset.Height video) else Some "auto";
     VideoParameters.BitRate := Some videoBitrate;
     VideoParameters.FixedGOP :=
       if String.eqb (provider.VideoPreset.GopMode video) "fixed" then Some "true" else None |}.

Definition createThumbsPreset (preset : provider.Preset.t) : Thumbnails.t :=
  {| Thumbnails.PaddingPolicy := Some "Pad";
     Thumbnails.Format := Some "png";
     Thumbnails.Interval := Some "1";
     Thumbnails.SizingPolicy := Some "Fill";
     Thumbnails.MaxWidth := Some "auto";
     Thumbnails.MaxHeight := Some "auto" |}.

Definition createAudioPreset (preset : provider.Preset.t) : AudioParameters.t :=
  let audio := provider.Preset.Audio preset in
  let normalizedAudioBitRate := fst (strconv_Atoi (provider.AudioPreset.Bitrate audio)) in
  let audioBitrate := strconv_Itoa (Z.quot normalizedAudioBitRate 1000) in
  {| AudioParameters.Codec :=
       if String.eqb (provider.AudioPreset.Codec audio) "aac"
       then Some "AAC" else Some (provider.AudioPreset.Codec audio);
     AudioParameters.Channels := Some "auto";
     AudioParameters.SampleRate := Some "auto";
     AudioParameters.BitRate := Some audioBitrate |}.

Definition CreatePreset (p : awsProvider.t) (preset : provider.Preset.t) : run string :=
  let presetInput := {|
    CreatePresetInput.Name := Some (provider.Preset.Name preset);
    CreatePresetInput.Description := Some (provider.Preset.Description preset);
    CreatePresetInput.Container :=
      if String.eqb (provider.Preset.Container preset) "m3u8"
      then Some "ts" else Some (provider.Preset.Container preset);
    CreatePresetInput.Video := Some (createVideoPreset preset);
    CreatePresetInput.Audio := Some (createAudioPreset preset);
    CreatePresetInput.Thumbnails := Some (createThumbsPreset preset) |} in
  presetOutput ← send (reqCreatePreset presetInput)
                       (API.CreatePreset (awsProvider.c p) presetInput);
  created ← deref (PresetOutput.Preset presetOutput);
  deref (Preset.Id created).

Definition getOutputDestination (p : awsProvider.t) (job : db.Job.t) (awsJob : Job.t)
  : run string :=
  readPipelineOutput ← send (reqReadPipeline (Job.PipelineId awsJob))
                             (API.ReadPipeline (awsProvider.c p) (Job.PipelineId awsJob));
  pipeline ← deref (ReadPipelineOutput.Pipeline readPipelineOutput);
  mret ("s3://" +:+ StringValue (Pipeline.OutputBucket pipeline) +:+ "/" +:+ db.Job.ID job).

(** The loop of [getOutputFiles]. *)
Fixpoint outputFiles (p : awsProvider.t) (pipeline : ReadPipelineOutput.t) (job : Job.t)
    (outputs : list JobOutput.t) : run (list provider.OutputFile.t) :=
  match outputs with
  | [] => mret []
  | output :: rest =>
      preset ← send (reqReadPreset (JobOutput.PresetId output))
                    (API.ReadPreset (awsProvider.c p) (JobOutput.PresetId output));
      pipeline' ← deref (ReadPipelineOutput.Pipeline pipeline);
      let filePath :=
        "s3://" +:+ StringValue (Pipeline.OutputBucket pipeline') +:+ "/" +:+
        StringValue (Job.OutputKeyPrefix job) +:+ StringValue (JobOutput.Key output) in
      preset' ← deref (PresetOutput.Preset preset);
      video ← deref (Preset.Video preset');
      let file := {|
        provider.OutputFile.Path := filePath;
        provider.OutputFile.Container := StringValue (Preset.Container preset');
        provider.OutputFile.VideoCodec := StringValue (VideoParameters.Codec video);
        provider.OutputFile.Width := Int64Value (JobOutput.Width output);
        provider.OutputFile.Height := Int64Value (JobOutput.Height output) |} in
      files ← outputFiles p pipeline job rest;
      mret (file :: files)
  end.

Definition getOutputFiles (p : awsProvider.t) (job : Job.t) : run (list provider.OutputFile.t) :=
  pipeline ← send (reqReadPipeline (Job.PipelineId job))
                  (API.ReadPipeline (awsProvider.c p) (Job.PipelineId job));
  outputFiles p pipeline job (Job.Outputs job).

(** An output counts as completed in one of these states. *)
Definition completed (s : provider.Status) : bool :=
  match s with
  | provider.StatusFinished | provider.StatusCanceled | provider.StatusFailed => true
  | _ => false
  end.

(** [completedJobs] after the loop over the outputs of [JobStatus]. *)
Definition completedJobs (outputs : list JobOutput.t) : float :=
  fold_left
    (fun completedJobs output =>
       if completed (statusMap (StringValue (JobOutput.Status output)))
       then (completedJobs + 1)%float else completedJobs)
    outputs 0%float.

(** [outputs] after the same loop. *)
Definition outputDetails (outputs : list JobOutput.t) : gmap string string :=
  fold_left
    (fun outputs output =>
       <[StringValue (JobOutput.Key output) := StringValue (JobOutput.StatusDetail output)]> outputs)
    outputs ∅.

(** [float64(n)] for the length of a slice. *)
Definition float64_of_len (n : nat) : float := PrimFloat.of_uint63 (Uint63.of_Z (Z.of_nat n)).

(** [if err != nil { outputDestination = err.Error() }]: the errors of
    [getOutputDestination] are failures of the service, whose text is
    kept in the error. *)
Definition or_error_text (m : run string) : run string :=
  match m with
  | (sent, Err (foreignError _ text)) => (sent, Ok text)
  | _ => m
  end.

Definition JobStatus (p : awsProvider.t) (job : db.Job.t) : run provider.JobStatus.t :=
  let id := db.Job.ProviderJobID job in
  resp ← send (reqReadJob (Some id)) (API.ReadJob (awsProvider.c p) (Some id));
  awsJob ← deref (JobResponse.Job resp);
  let totalJobs := length (Job.Outputs awsJob) in
  outputDestination ← or_error_text (getOutputDestination p job awsJob);
  outputFiles ← getOutputFiles p awsJob;
  input ← deref (Job.Input awsJob);
  detected ← deref (JobInput.DetectedProperties input);
  mret {| provider.JobStatus.ProviderJobID := StringValue (Job.Id awsJob);
          provider.JobStatus.ProviderName := "";
          provider.JobStatus.Status := statusMap (StringValue (Job.Status awsJob));
          provider.JobStatus.Progress :=
            (completedJobs (Job.Outputs awsJob) / float64_of_len totalJobs * 100)%float;
          provider.JobStatus.ProviderStatus :=
            {[ "outputs" := outputDetails (Job.Outputs awsJob) ]};
          provider.JobStatus.MediaInfo :=
            {| provider.MediaInfo.Duration :=
                 wrap64 (Int64Value (DetectedProperties.DurationMillis detected) * 1000000);
               provider.MediaInfo.Height := Int64Value (DetectedProperties.Height detected);
               provider.MediaInfo.Width := Int64Value (DetectedProperties.Width detected) |};
          provider.JobStatus.Output :=
            {| provider.JobOutput.Destination := outputDestination;
               provider.JobOutput.Files := outputFiles |} |}.

(** The number of outputs that count as completed, and that number as
    a [float64] counted up from zero. *)
Definition completedOutputs (outputs : list JobOutput.t) : nat :=
  length (filter (fun output => completed (statusMap (StringValue (JobOutput.Status output))) = true)
                 outputs).

Definition float64_count (n : nat) : float := Nat.iter n (fun x => (x + 1)%float) 0%float.

(** The constructor registered under [Name]. [New] stands for the SDK's
    client for the given credentials and region. *)
Definition elasticTranscoderProvider
    (New : string -> string -> string -> API.t) (cfg : config.Config.t)
  : outcome awsProvider.t :=
  match config.Config.ElasticTranscoder cfg with
  | None => Panic nil_dereference
  | Some et =>
      if (String.eqb (config.ElasticTranscoder.AccessKeyID et) ""
          || String.eqb (config.ElasticTranscoder.SecretAccessKey et) ""
          || String.eqb (config.ElasticTranscoder.PipelineID et) "")%bool
      then Err errAWSInvalidConfig
      else
        let region := config.ElasticTranscoder.Region et in
        let region := if String.eqb region "" then defaultAWSRegion else region in
        Ok {| awsProvider.c :=
                New (config.ElasticTranscoder.AccessKeyID et)
                    (config.ElasticTranscoder.SecretAccessKey et) region;
              awsProvider.config := et |}
  end.

Definition GetPreset (p : awsProvider.t) (presetID : string) : run PresetOutput.t :=
  send (reqReadPreset (Some presetID)) (API.ReadPreset (awsProvider.c p) (Some presetID)).

Definition DeletePreset (p : awsProvider.t) (presetID : string) : run unit :=
  send (reqDeletePreset (Some presetID)) (API.DeletePreset (awsProvider.c p) (Some presetID)).

Definition CancelJob (p : awsProvider.t) (id : string) : run unit :=
  send (reqCancelJob (Some id)) (API.CancelJob (awsProvider.c p) (Some id)).

Definition Healthcheck (p : awsProvider.t) : run unit :=
  let id := Some (config.ElasticTranscoder.PipelineID (awsProvider.config p)) in
  _ ← send (reqReadPipeline id) (API.ReadPipeline (awsProvider.c p) id);
  mret tt.

(** The requests that change nothing at the back end. *)
Definition reads (req : request) : bool :=
  match req with
  | reqReadJob _ | reqReadPreset _ | reqReadPipeline _ => true
  | _ => false
  end.

Definition readsPreset (req : request) : bool :=
  match req with
  | reqReadPreset _ => true
  | _ => false
  end.

(** Whether an output of a [CreateJob] request is an adaptive streaming
    one: those are the outputs that carry a segment duration. *)
Definition segmented (output : CreateJobOutput.t) : bool :=
  match CreateJobOutput.SegmentDuration output with
  | Some _ => true
  | None => false
  end.

End elastictranscoder.

(** ** Package service: [service/transcode.go] *)

Module service.

Definition maxJobTimeout : Z := 8 * Hour.

(** [err == v], for a package-level variable [v] made by [errors.New]. *)
Definition err_is (err v : error) : bool :=
  match v, err with
  | errorString a, errorString b => String.eqb a b
  | _, _ => false
  end.

(** Modelled from the spec: the interface [provider.TranscodingProvider]
    is not among the sources. Its methods are the two the service calls,
    with the arguments of the calls in [service/transcode.go]. *)
Module TranscodingProvider.
Record t := {
  Transcode : provider.TranscodeProfile.t -> outcome provider.JobStatus.t;
  JobStatus : string -> outcome provider.JobStatus.t
}.
End TranscodingProvider.

Definition Factory : Type := config.Config.t -> outcome TranscodingProvider.t.

(** Modelled from the spec: the constructors of the responses are not
    among the sources. [newJobResponse] is the 200 of [POST /jobs],
    [newInvalidJobResponse] its 400, [newErrorResponse] the 500,
    [newJobNotFoundResponse] the 404, [newJobNotFoundProviderResponse]
    the 410 and [newJobStatusResponse] the 200 of [GET /jobs/{jobId}]. *)
Inductive gizmoResponse : Type :=
| newJobResponse (jobID : string)
| newInvalidJobResponse (err : error)
| newErrorResponse (err : error)
| newJobNotFoundResponse (err : error)
| newJobNotFoundProviderResponse (err : error)
| newJobStatusResponse (jobStatus : option provider.JobStatus.t).

(** Modelled from the spec: [input.Payload], the decoded body of a
    submission, with the fields [newTranscodeJob] reads. *)
Module Payload.
Record t := {
  Provider : string;
  Source : string;
  Presets : list string;
  StreamingParams : provider.StreamingParams.t;
  StatusCallbackURL : string;
  StatusCallbackInterval : Z;
  CompletionCallbackURL : string
}.
End Payload.

(** What the collaborators of the service answer at one moment: the
    store behind [s.db], the registry of providers, the decoding of a
    request body by [input.ProviderFactory], and the HTTP client and JSON
    encoder behind [postStatusToCallback]. [busy] is the time the calls
    of one iteration of the callback loop take, in nanoseconds. *)
Module World.
Record t := {
  config : config.Config.t;
  db_GetPreset : string -> outcome db.Preset.t;
  db_CreateJob : db.Job.t -> outcome db.Job.t;
  db_GetJob : string -> outcome db.Job.t;
  GetProviderFactory : string -> outcome Factory;
  ProviderFactory : string -> outcome (Payload.t * Factory);
  json_Marshal : gizmoResponse -> option error;
  http_NewRequest : string -> option error;
  client_Do : string -> gizmoResponse -> option error;
  busy : N
}.
End World.

(** [context.WithTimeout(context.Background(), d)] at time [now]. The
    [cancel] that [newTranscodeJob] defers leaves the deadline in place,
    and the deadline is all the loop reads of the context. *)
Module Context.
Record t := { Deadline : option Z }.
Definition WithTimeout (now d : Z) : t := {| Deadline := Some (now + d) |}.
End Context.

(** How [newTranscodeJob] ends: its response (or a panic), the jobs it
    stored, and the callback loop it started. *)
Module Submission.
Record t := {
  response : value gizmoResponse;
  persisted : list db.Job.t;
  spawned : option (Context.t * db.Job.t)
}.
Definition answer (r : gizmoResponse) : t :=
  {| response := Val r; persisted := []; spawned := None |}.
Definition crash (why : string) : t :=
  {| response := Crash why; persisted := []; spawned := None |}.
End Submission.

Section Service.
Variable s : World.t.

(** The loop that resolves the presets of the request. *)
Fixpoint getPresets (presetIDs : list string) : outcome (list db.Preset.t) :=
  match presetIDs with
  | [] => Ok []
  | presetID :: rest =>
      match World.db_GetPreset s presetID with
      | Ok preset =>
          match getPresets rest with
          | Ok presets => Ok (preset :: presets)
          | other => other
          end
      | Err err => Err err
      | Panic why => Panic why
      end
  end.

Definition newTranscodeJob (now : Z) (body : string) : Submission.t :=
  match World.ProviderFactory s body with
  | Panic why => Submission.crash why
  | Err err => Submission.answer (newInvalidJobResponse err)
  | Ok (payload, providerFactory) =>
  match providerFactory (World.config s) with
  | Panic why => Submission.crash why
  | Err err =>
      let formattedErr :=
        Errorf "Error initializing provider %s for new job: %v %s"
               [Payload.Provider payload; "<nil>"] (Some err) in
      if provider.is_InvalidConfigError err
      then Submission.answer (newInvalidJobResponse formattedErr)
      else Submission.answer (newErrorResponse formattedErr)
  | Ok providerObj =>
  match getPresets (Payload.Presets payload) with
  | Panic why => Submission.crash why
  | Err err =>
      if err_is err db.ErrPresetNotFound
      then Submission.answer (newInvalidJobResponse err)
      else Submission.answer (newErrorResponse err)
  | Ok presets =>
  let transcodeProfile := {|
    provider.TranscodeProfile.SourceMedia := Payload.Source payload;
    provider.TranscodeProfile.Presets := presets;
    provider.TranscodeProfile.StreamingParams := Payload.StreamingParams payload;
    provider.TranscodeProfile.Outputs := [] |} in
  match TranscodingProvider.Transcode providerObj transcodeProfile with
  | Panic why => Submission.crash why
  | Err err =>
      if err_is err provider.ErrPresetNotFound
      then Submission.answer (newInvalidJobResponse err)
      else
        let providerError :=
          Errorf "Error with provider %q: %s" [Payload.Provider payload] (Some err) in
        Submission.answer (newErrorResponse providerError)
  | Ok jobStatus =>
  let jobStatus := provider.JobStatus.set_ProviderName (Payload.Provider payload) jobStatus in
  let streaming := provider.TranscodeProfile.StreamingParams transcodeProfile in
  let job := {|
    db.Job.ID := "";
    db.Job.ProviderName := provider.JobStatus.ProviderName jobStatus;
    db.Job.ProviderJobID := provider.JobStatus.ProviderJobID jobStatus;
    db.Job.StatusCallbackURL := Payload.StatusCallbackURL payload;
    db.Job.StatusCallbackInterval := Payload.StatusCallbackInterval payload;
    db.Job.CompletionCallbackURL := Payload.CompletionCallbackURL payload;
    db.Job.StreamingParams :=
      if negb (String.eqb (provider.StreamingParams.Protocol streaming) "")
      then {| db.StreamingParams.SegmentDuration :=
                provider.StreamingParams.SegmentDuration streaming;
              db.StreamingParams.Protocol := provider.StreamingParams.Protocol streaming |}
      else db.StreamingParams.zero |} in
  match World.db_CreateJob s job with
  | Panic why => Submission.crash why
  | Err err => Submission.answer (newErrorResponse err)
  | Ok job =>
      {| Submission.response := Val (newJobResponse (db.Job.ID job));
         Submission.persisted := [job];
         Submission.spawned :=
           if (negb (String.eqb (db.Job.StatusCallbackURL job) "")
               || negb (String.eqb (db.Job.CompletionCallbackURL job) ""))%bool
           then Some (Context.WithTimeout now maxJobTimeout, job)
           else None |}
  end end end end end.

Definition getJobStatusResponse (job : option db.Job.t)
    (jobStatus : option provider.JobStatus.t)
    (providerObj : option TranscodingProvider.t) (err : option error)
  : value gizmoResponse :=
  match err with
  | Some err =>
      if err_is err db.ErrJobNotFound then Val (newJobNotFoundResponse err)
      else
        match providerObj with
        | Some _ =>
            match job with
            | None => Crash nil_dereference
            | Some job =>
                let providerError :=
                  Errorf "Error with provider %q when trying to retrieve job id %q: %s"
                         [db.Job.ProviderName job; db.Job.ID job] (Some err) in
                if provider.is_JobNotFoundError err
                then Val (newJobNotFoundProviderResponse providerError)
                else Val (newErrorResponse providerError)
            end
        | None => Val (newErrorResponse err)
        end
  | None => Val (newJobStatusResponse jobStatus)
  end.

(** The four results of [getTranscodeJobByID], each nil or not. *)
Definition lookup : Type :=
  (option db.Job.t * option provider.JobStatus.t * option TranscodingProvider.t * option error)%type.

Definition getTranscodeJobByID (jobID : string) : value lookup :=
  match World.db_GetJob s jobID with
  | Panic why => Crash why
  | Err err =>
      if err_is err db.ErrJobNotFound then Val (None, None, None, Some err)
      else Val (None, None, None,
               Some (Errorf "error retrieving job with id %q: %s" [jobID] (Some err)))
  | Ok job =>
  match World.GetProviderFactory s (db.Job.ProviderName job) with
  | Panic why => Crash why
  | Err _ =>
      Val (Some job, None, None,
          Some (Errorf "unknown provider %q for job id %q" [db.Job.ProviderName job; jobID] None))
  | Ok providerFactory =>
  match providerFactory (World.config s) with
  | Panic why => Crash why
  | Err err =>
      Val (Some job, None, None,
          Some (Errorf "error initializing provider %q on job id %q: %s %s"
                       [db.Job.ProviderName job; jobID; "<nil>"] (Some err)))
  | Ok providerObj =>
  match TranscodingProvider.JobStatus providerObj (db.Job.ProviderJobID job) with
  | Panic why => Crash why
  | Err err => Val (Some job, None, Some providerObj, Some err)
  | Ok jobStatus =>
      Val (Some job,
          Some (provider.JobStatus.set_ProviderName (db.Job.ProviderName job) jobStatus),
          Some providerObj, None)
  end end end end.

Definition getTranscodeJob (jobID : string) : value gizmoResponse :=
  match getTranscodeJobByID jobID with
  | Val (job, jobStatus, providerObj, err) => getJobStatusResponse job jobStatus providerObj err
  | Crash why => Crash why
  end.

(** A request that [http.NewRequest] refuses is nil, and setting its
    header faults. *)
Definition postStatusToCallback (payloadStruct : gizmoResponse) (callbackURL : string)
  : outcome unit :=
  match World.json_Marshal s payloadStruct with
  | Some err => Err err
  | None =>
      match World.http_NewRequest s callbackURL with
      | Some _ => Panic nil_dereference
      | None =>
          match World.client_Do s callbackURL payloadStruct with
          | Some err => Err err
          | None => Ok tt
          end
      end
  end.

End Service.

(** *** The callback delivery loop *)

(** The two calls of [postStatusToCallback] in [statusCallback]. *)
Inductive site := StatusCallback | CompletionCallback.

(** What the loop does, in order: a status query (with the reading of
    the clock that let the iteration begin), a post (with how it ended)
    and a sleep. *)
Inductive event : Type :=
| Queried (now : Z) (jobID : string)
| Posted (at_site : site) (callbackURL : string) (payload : gizmoResponse) (result : outcome unit)
| Slept (d : Z).

(** How the body of the loop ends: [continue] or the end of the body
    after a sleep of [d], [break], or a panic. *)
Inductive step : Type :=
| Continue (d : Z)
| Break
| Fault (why : string).

Definition terminal (st : provider.Status) : bool :=
  negb (provider.Status_eqb st provider.StatusQueued)
  && negb (provider.Status_eqb st provider.StatusStarted).

(** [time.Duration(job.StatusCallbackInterval) * time.Second] *)
Definition interval (job : db.Job.t) : Z :=
  wrap64 (wrap64 (db.Job.StatusCallbackInterval job) * Second).

(** [time.Sleep(d)] returns at once when [d] is not positive. *)
Definition slept (d : Z) : Z := Z.max 0 d.

(** The body of the loop from the test of the status on. *)
Definition afterStatusPost (s : World.t) (job : db.Job.t)
    (jobStatus : option provider.JobStatus.t) (gizmoResponseObj : gizmoResponse)
  : list event * step :=
  match jobStatus with
  | None => ([], Fault nil_dereference)
  | Some jobStatus =>
      if terminal (provider.JobStatus.Status jobStatus) then
        if negb (String.eqb (db.Job.CompletionCallbackURL job) "") then
          let result :=
            postStatusToCallback s gizmoResponseObj (db.Job.CompletionCallbackURL job) in
          ([Posted CompletionCallback (db.Job.CompletionCallbackURL job) gizmoResponseObj result],
           match result with
           | Ok _ => Break
           | Err _ => Continue 0
           | Panic why => Fault why
           end)
        else ([], Break)
      else ([Slept (interval job)], Continue (interval job))
  end.

(** The body of the loop; [job] is the job the loop was started for. *)
Definition iteration (s : World.t) (job : db.Job.t) (now : Z) : list event * step :=
  let queried := Queried now (db.Job.ID job) in
  match getTranscodeJobByID s (db.Job.ID job) with
  | Crash why => ([queried], Fault why)
  | Val (job, jobStatus, providerObj, err) =>
  match getJobStatusResponse job jobStatus providerObj err with
  | Crash why => ([queried], Fault why)
  | Val gizmoResponseObj =>
  match job with
  | None => ([queried], Fault nil_dereference)
  | Some job =>
      if negb (String.eqb (db.Job.StatusCallbackURL job) "") then
        let result := postStatusToCallback s gizmoResponseObj (db.Job.StatusCallbackURL job) in
        let posted :=
          Posted StatusCallback (db.Job.StatusCallbackURL job) gizmoResponseObj result in
        match result with
        | Err _ => ([queried; posted], Continue 0)
        | Panic why => ([queried; posted], Fault why)
        | Ok _ =>
            let '(events, st) := afterStatusPost s job jobStatus gizmoResponseObj in
            (queried :: posted :: events, st)
        end
      else
        let '(events, st) := afterStatusPost s job jobStatus gizmoResponseObj in
        (queried :: events, st)
  end end end.

(** How a run of the loop stands: it returned, it panicked, or it is
    still going on after the iterations looked at. *)
Inductive ending : Type :=
| Returned
| Panicked (why : string)
| Running.

Module Run.
Record t := { ending : ending; finish : Z; events : list event }.
Definition and_then (evs : list event) (r : t) : t :=
  {| ending := ending r; finish := finish r; events := evs ++ events r |}.
End Run.

(** [for now := time.Now(); now.Before(deadline); now = time.Now() {...}]:
    [world k] is what the collaborators answer during iteration [k], and
    [now] the reading of the clock before it. At most [fuel] iterations
    are looked at. *)
Fixpoint loop (world : nat -> World.t) (deadline : Z) (job : db.Job.t)
    (fuel k : nat) (now : Z) : Run.t :=
  match fuel with
  | O => {| Run.ending := Running; Run.finish := now; Run.events := [] |}
  | S fuel =>
      if now <? deadline then
        let '(events, st) := iteration (world k) job now in
        let now := now + Z.of_N (World.busy (world k)) in
        match st with
        | Break => {| Run.ending := Returned; Run.finish := now; Run.events := events |}
        | Fault why => {| Run.ending := Panicked why; Run.finish := now; Run.events := events |}
        | Continue d => Run.and_then events (loop world deadline job fuel (S k) (now + slept d))
        end
      else {| Run.ending := Returned; Run.finish := now; Run.events := [] |}
  end.

(** [statusCallback(ctx, job)], entered when the clock reads [start]. A
    context without deadline gives the zero time, which no reading of
    the clock precedes. *)
Definition statusCallback (world : nat -> World.t) (ctx : Context.t) (job : db.Job.t)
    (fuel : nat) (start : Z) : Run.t :=
  match Context.Deadline ctx with
  | Some deadline => loop world deadline job fuel 0 start
  | None => {| Run.ending := Returned; Run.finish := start; Run.events := [] |}
  end.

(** The posts made at one site, and the status queries made. *)
Definition posts (at_site : site) (events : list event) : list (string * gizmoResponse) :=
  flat_map (fun e =>
    match e with
    | Posted StatusCallback url payload _ =>
        match at_site with StatusCallback => [(url, payload)] | _ => [] end
    | Posted CompletionCallback url payload _ =>
        match at_site with CompletionCallback => [(url, payload)] | _ => [] end
    | _ => []
    end) events.

Definition queries (events : list event) : list Z :=
  flat_map (fun e => match e with Queried now _ => [now] | _ => [] end) events.

(** The time one iteration takes: its calls, and its sleep if it ends in
    one. *)
Definition took (s : World.t) (job : db.Job.t) (now : Z) : Z :=
  Z.of_N (World.busy s)
  + match snd (iteration s job now) with
    | Continue d => slept d
    | _ => 0
    end.

(** The time the [n] iterations from iteration [k] on take when each
    ends in a sleep of [d]. *)
Fixpoint elapsed (world : nat -> World.t) (d : Z) (k n : nat) : Z :=
  match n with
  | O => 0
  | S n => Z.of_N (World.busy (world k)) + slept d + elapsed world d (S k) n
  end.

End service.

(** ** The registry entry, and concrete collaborators for the examples *)

Module registry.
Import awssdk elastictranscoder service.

(** [provider.Register(Name, elasticTranscoderProvider)]: the factory
    the registry holds. [methods] is the conversion of the provider to
    the interface the service calls. *)
Definition registered (New : string -> string -> string -> API.t)
    (methods : awsProvider.t -> TranscodingProvider.t) : Factory :=
  fun cfg =>
    match elasticTranscoderProvider New cfg with
    | Ok p => Ok (methods p)
    | Err e => Err e
    | Panic why => Panic why
    end.

End registry.

Module example.
Import awssdk elastictranscoder service registry.

Definition job (statusURL completionURL : string) (seconds : Z) : db.Job.t :=
  {| db.Job.ID := "job-123";
     db.Job.ProviderName := Name;
     db.Job.ProviderJobID := "1453-aws";
     db.Job.StatusCallbackURL := statusURL;
     db.Job.StatusCallbackInterval := seconds;
     db.Job.CompletionCallbackURL := completionURL;
     db.Job.StreamingParams := db.StreamingParams.zero |}.

Definition video : VideoParameters.t :=
  {| VideoParameters.DisplayAspectRatio := None; VideoParameters.FrameRate := None;
     VideoParameters.SizingPolicy := None; VideoParameters.PaddingPolicy := None;
     VideoParameters.Codec := Some "H.264"; VideoParameters.KeyframesMaxDist := None;
     VideoParameters.CodecOptions := ∅;
     VideoParameters.MaxWidth := None; VideoParameters.MaxHeight := None;
     VideoParameters.BitRate := None; VideoParameters.FixedGOP := None |}.

Definition awsPreset (id container : string) : PresetOutput.t :=
  {| PresetOutput.Preset :=
       Some {| Preset.Id := Some id; Preset.Container := Some container;
               Preset.Video := Some video |} |}.

Definition awsOutput (key status presetID : string) : JobOutput.t :=
  {| JobOutput.Status := Some status; JobOutput.Key := Some key;
     JobOutput.StatusDetail := None; JobOutput.PresetId := Some presetID;
     JobOutput.Height := Some 720; JobOutput.Width := Some 1280 |}.

Definition awsJob (status : string) (outputs : list JobOutput.t) : JobResponse.t :=
  {| JobResponse.Job :=
       Some {| Job.Id := Some "1453-aws"; Job.Status := Some status;
               Job.PipelineId := Some "pipeline-1"; Job.OutputKeyPrefix := None;
               Job.Input :=
                 Some {| JobInput.Key := Some "path/to/file.mp4";
                         JobInput.DetectedProperties :=
                           Some {| DetectedProperties.DurationMillis := Some 120000;
                                   DetectedProperties.Height := Some 1080;
                                   DetectedProperties.Width := Some 1920 |} |};
               Job.Outputs := outputs |} |}.

(** A service that knows the presets "hls-1" and "mp4-1" and answers
    [ReadJob] with [read]. *)
Definition client (read : JobResponse.t) : API.t :=
  {| API.CreateJob := fun _ => Reply (awsJob "Submitted" []);
     API.ReadJob := fun _ => Reply read;
     API.CancelJob := fun _ => Reply tt;
     API.CreatePreset := fun input =>
       Reply (awsPreset "new-1" (StringValue (CreatePresetInput.Container input)));
     API.ReadPreset := fun id =>
       if String.eqb (StringValue id) "hls-1" then Reply (awsPreset "hls-1" "ts")
       else if String.eqb (StringValue id) "mp4-1" then Reply (awsPreset "mp4-1" "mp4")
       else Failure "ResourceNotFoundException: the preset does not exist";
     API.DeletePreset := fun _ => Reply tt;
     API.ReadPipeline := fun _ =>
       Reply {| ReadPipelineOutput.Pipeline :=
                  Some {| Pipeline.OutputBucket := Some "some-bucket" |} |} |}.

Definition settings (accessKeyID : string) : config.ElasticTranscoder.t :=
  {| config.ElasticTranscoder.AccessKeyID := accessKeyID;
     config.ElasticTranscoder.SecretAccessKey := "secret";
     config.ElasticTranscoder.Region := "";
     config.ElasticTranscoder.PipelineID := "pipeline-1" |}.

Definition p (read : JobResponse.t) : awsProvider.t :=
  {| awsProvider.c := client read; awsProvider.config := settings "AKIA" |}.

(** A preset mapped for this provider, and one mapped for another only. *)
Definition mapped (name presetID : string) : db.Preset.t :=
  {| db.Preset.Name := name; db.Preset.ProviderMapping := {[ Name := presetID ]} |}.
Definition unmapped (name : string) : db.Preset.t :=
  {| db.Preset.Name := name; db.Preset.ProviderMapping := {[ "encodingcom" := "17" ]} |}.

Definition output (preset : db.Preset.t) (fileName : string) : provider.TranscodeOutput.t :=
  {| provider.TranscodeOutput.Preset := preset; provider.TranscodeOutput.FileName := fileName |}.

(** The provider as the service calls it, in the examples. The service
    hands [Transcode] the profile with the presets it has read from the
    store, and [JobStatus] a provider job id; the methods of the
    provider also take the job, and read the outputs of the profile.
    Here each preset of the profile is the preset of one output, named
    after it. *)
Definition methods (job : db.Job.t) (p : awsProvider.t) : TranscodingProvider.t :=
  {| TranscodingProvider.Transcode := fun transcodeProfile =>
       snd (Transcode p job
              {| provider.TranscodeProfile.SourceMedia :=
                   provider.TranscodeProfile.SourceMedia transcodeProfile;
                 provider.TranscodeProfile.Presets :=
                   provider.TranscodeProfile.Presets transcodeProfile;
                 provider.TranscodeProfile.StreamingParams :=
                   provider.TranscodeProfile.StreamingParams transcodeProfile;
                 provider.TranscodeProfile.Outputs :=
                   map (fun preset => output preset (db.Preset.Name preset +:+ ".mp4"))
                       (provider.TranscodeProfile.Presets transcodeProfile) |});
     TranscodingProvider.JobStatus := fun id =>
       snd (JobStatus p
              {| db.Job.ID := db.Job.ID job;
                 db.Job.ProviderName := db.Job.ProviderName job;
                 db.Job.ProviderJobID := id;
                 db.Job.StatusCallbackURL := db.Job.StatusCallbackURL job;
                 db.Job.StatusCallbackInterval := db.Job.StatusCallbackInterval job;
                 db.Job.CompletionCallbackURL := db.Job.CompletionCallbackURL job;
                 db.Job.StreamingParams := db.Job.StreamingParams job |}) |}.

Definition streaming : provider.StreamingParams.t :=
  {| provider.StreamingParams.SegmentDuration := 3;
     provider.StreamingParams.Protocol := "hls";
     provider.StreamingParams.PlaylistFileName := "hls/playlist.m3u8" |}.

Definition profile (outputs : list provider.TranscodeOutput.t) : provider.TranscodeProfile.t :=
  {| provider.TranscodeProfile.SourceMedia := "s3://bucket/path/to/file.mp4";
     provider.TranscodeProfile.Presets := [];
     provider.TranscodeProfile.StreamingParams := streaming;
     provider.TranscodeProfile.Outputs := outputs |}.

Definition payload (statusURL completionURL : string) : Payload.t :=
  {| Payload.Provider := Name;
     Payload.Source := "s3://bucket/path/to/file.mp4";
     Payload.Presets := ["P1"];
     Payload.StreamingParams := streaming;
     Payload.StatusCallbackURL := statusURL;
     Payload.StatusCallbackInterval := 1;
     Payload.CompletionCallbackURL := completionURL |}.

Definition status (st : provider.Status) : provider.JobStatus.t :=
  {| provider.JobStatus.ProviderJobID := "1453-aws";
     provider.JobStatus.ProviderName := "";
     provider.JobStatus.Status := st;
     provider.JobStatus.Progress := 0%float;
     provider.JobStatus.ProviderStatus := ∅;
     provider.JobStatus.MediaInfo :=
       {| provider.MediaInfo.Duration := 0; provider.MediaInfo.Height := 0;
          provider.MediaInfo.Width := 0 |};
     provider.JobStatus.Output :=
       {| provider.JobOutput.Destination := ""; provider.JobOutput.Files := [] |} |}.

(** A provider whose methods answer [transcode] and [jobStatus]. *)
Definition answering (transcode jobStatus : outcome provider.JobStatus.t)
  : TranscodingProvider.t :=
  {| TranscodingProvider.Transcode := fun _ => transcode;
     TranscodingProvider.JobStatus := fun _ => jobStatus |}.

(** The collaborators of the service: a store that holds the preset "P1"
    and the job [stored], a registry with the one factory, and callback
    endpoints that accept every post. *)
Definition world (cfg : config.Config.t) (factory : Factory) (stored : db.Job.t)
    (posted : Payload.t) (busy : N) : World.t :=
  {| World.config := cfg;
     World.db_GetPreset := fun presetID =>
       if String.eqb presetID "P1" then Ok (unmapped "P1") else Err db.ErrPresetNotFound;
     World.db_CreateJob := fun created =>
       Ok {| db.Job.ID := "job-123";
             db.Job.ProviderName := db.Job.ProviderName created;
             db.Job.ProviderJobID := db.Job.ProviderJobID created;
             db.Job.StatusCallbackURL := db.Job.StatusCallbackURL created;
             db.Job.StatusCallbackInterval := db.Job.StatusCallbackInterval created;
             db.Job.CompletionCallbackURL := db.Job.CompletionCallbackURL created;
             db.Job.StreamingParams := db.Job.StreamingParams created |};
     World.db_GetJob := fun jobID =>
       if String.eqb jobID (db.Job.ID stored) then Ok stored else Err db.ErrJobNotFound;
     World.GetProviderFactory := fun name =>
       if String.eqb name Name then Ok factory
       else Err (errorString "provider.ErrProviderNotFound");
     World.ProviderFactory := fun _ => Ok (posted, factory);
     World.json_Marshal := fun _ => None;
     World.http_NewRequest := fun _ => None;
     World.client_Do := fun _ _ => None;
     World.busy := busy |}.

Definition cfg (accessKeyID : string) : config.Config.t :=
  {| config.Config.ElasticTranscoder := Some (settings accessKeyID) |}.

(** The world in which the provider answers every status query with
    [jobStatus]. *)
Definition polled (stored : db.Job.t) (jobStatus : outcome provider.JobStatus.t) : World.t :=
  world (cfg "AKIA") (fun _ => Ok (answering (Ok (status provider.StatusQueued)) jobStatus))
        stored (payload "" "") 1000000.

(** A preset to create, in the given container. *)
Definition preset (container : string) : provider.Preset.t :=
  {| provider.Preset.Name := "720p";
     provider.Preset.Description := "720p video";
     provider.Preset.Container := container;
     provider.Preset.Profile := "Main";
     provider.Preset.ProfileLevel := "3.1";
     provider.Preset.Video :=
       {| provider.VideoPreset.Codec := "h264"; provider.VideoPreset.GopSize := "90";
          provider.VideoPreset.GopMode := "fixed"; provider.VideoPreset.Width := "";
          provider.VideoPreset.Height := "720"; provider.VideoPreset.Bitrate := "2500999" |};
     provider.Preset.Audio :=
       {| provider.AudioPreset.Codec := "aac"; provider.AudioPreset.Bitrate := "128000" |} |}.

(** The worlds of a job that is Queued at the first query, Started at
    the second and Finished from the third on. *)
Definition transitions (stored : db.Job.t) (k : nat) : World.t :=
  polled stored
    (Ok (status match k with
                | 0%nat => provider.StatusQueued
                | 1%nat => provider.StatusStarted
                | _ => provider.StatusFinished
                end)).

(** A status as [getTranscodeJobByID] returns it, with the name of the
    provider filled in. *)
Definition found (st : provider.Status) : provider.JobStatus.t :=
  provider.JobStatus.set_ProviderName Name (status st).

End example.

(** * Properties *)

Import awssdk elastictranscoder service.

(** ** Facts about the string functions *)

Lemma prefix_append (a b : string) : String.prefix a (a +:+ b) = true.
Proof.
  induction a as [|c a IH]; simpl.
  - by destruct b.
  - destruct (ascii_dec c c); [exact IH | congruence].
Qed.

Lemma skip_append (a b : string) : skip (String.length a) (a +:+ b) = b.
Proof. induction a as [|c a IH]; simpl; [by destruct b | exact IH]. Qed.

Lemma cut_unfold (sep s : string) :
  cut sep s =
  if String.prefix sep s then Some (EmptyString, skip (String.length sep) s)
  else match s with
       | EmptyString => None
       | String c s' =>
           match cut sep s' with
           | Some (a, b) => Some (String c a, b)
           | None => None
           end
       end.
Proof. by destruct s. Qed.

(** The first occurrence of a text that starts the string. *)
Lemma cut_prefix (sep rest : string) : cut sep (sep +:+ rest) = Some (EmptyString, rest).
Proof. by rewrite cut_unfold, prefix_append, skip_append. Qed.

(** The first occurrence of a character that the text before it lacks. *)
Lemma cut_char (c : ascii) (a b : string) :
  ~ In c (list_ascii_of_string a) ->
  cut (String c EmptyString) (a +:+ String c b) = Some (a, b).
Proof.
  induction a as [|x a IH]; intros Hnot.
  - simpl. destruct (ascii_dec c c); [|congruence]. by destruct b.
  - simpl in Hnot. simpl.
    destruct (ascii_dec c x) as [->|Hne]; [tauto|].
    rewrite IH; [done | tauto].
Qed.

(** ** The Elastic Transcoder provider *)

Lemma statusMap_cases (awsStatus : string) :
  awsStatus = "Submitted" \/ awsStatus = "Progressing" \/ awsStatus = "Complete"
  \/ awsStatus = "Canceled" \/ statusMap awsStatus = provider.StatusFailed.
Proof.
  unfold statusMap.
  destruct (String.eqb_spec awsStatus "Submitted"); [tauto|].
  destruct (String.eqb_spec awsStatus "Progressing"); [tauto|].
  destruct (String.eqb_spec awsStatus "Complete"); [tauto|].
  destruct (String.eqb_spec awsStatus "Canceled"); tauto.
Qed.

(** C2: [statusMap] sends Submitted to Queued, Progressing to Started,
    Complete to Finished and Canceled to Canceled, and every other
    string, the empty one included, to Failed; its result is always one
    of the five states. *)
Theorem statusMap_total (awsStatus : string) :
  statusMap "Submitted" = provider.StatusQueued
  /\ statusMap "Progressing" = provider.StatusStarted
  /\ statusMap "Complete" = provider.StatusFinished
  /\ statusMap "Canceled" = provider.StatusCanceled
  /\ statusMap "" = provider.StatusFailed
  /\ (~ In awsStatus ["Submitted"; "Progressing"; "Complete"; "Canceled"]
      -> statusMap awsStatus = provider.StatusFailed)
  /\ In (statusMap awsStatus)
        [provider.StatusQueued; provider.StatusStarted; provider.StatusFinished;
         provider.StatusFailed; provider.StatusCanceled].
Proof.
  repeat split; try reflexivity.
  - intros Hnot. destruct (statusMap_cases awsStatus) as [H|[H|[H|[H|H]]]];
      try exact H; exfalso; apply Hnot; subst; simpl; tauto.
  - destruct (statusMap awsStatus); simpl; tauto.
Qed.

(** A status the back end does not document is a failure. *)
Lemma statusMap_total_witness :
  ~ In "Error" ["Submitted"; "Progressing"; "Complete"; "Canceled"]
  /\ statusMap "Error" = provider.StatusFailed.
Proof.
  assert (Hnot : ~ In "Error" ["Submitted"; "Progressing"; "Complete"; "Canceled"]).
  { simpl. intros [H|[H|[H|[H|[]]]]]; discriminate H. }
  split; [exact Hnot|].
  exact (proj1 (proj2 (proj2 (proj2 (proj2 (proj2 (statusMap_total "Error")))))) Hnot).
Defined.

(** C7: a locator [s3://<bucket>/<key>] is normalised to [<key>], and a
    locator that does not start with [s3://] is returned as it is. *)
Theorem normalizeSource_spec (source : string) :
  (forall bucket key : string,
      ~ In "/"%char (list_ascii_of_string bucket) ->
      source = "s3://" +:+ bucket +:+ "/" +:+ key ->
      normalizeSource source = key)
  /\ (String.prefix "s3://" source = false -> normalizeSource source = source).
Proof.
  split.
  - intros bucket key Hbucket ->. unfold normalizeSource, s3Pattern_MatchString.
    rewrite prefix_append. unfold strings_Replace_1. rewrite cut_prefix.
    unfold strings_SplitN_2.
    change ("" +:+ "" +:+ bucket +:+ "/" +:+ key) with (bucket +:+ String "/" key).
    by rewrite cut_char.
  - intros Hnot. unfold normalizeSource, s3Pattern_MatchString. by rewrite Hnot.
Qed.

(** The two locators of the specification. *)
Lemma normalizeSource_spec_witness :
  normalizeSource "s3://bucket/path/to/file.mp4" = "path/to/file.mp4"
  /\ normalizeSource "path/to/file.mp4" = "path/to/file.mp4".
Proof.
  split.
  - apply (proj1 (normalizeSource_spec "s3://bucket/path/to/file.mp4") "bucket" "path/to/file.mp4").
    + simpl. intros H. repeat (destruct H as [H|H]; [discriminate H|]). exact H.
    + reflexivity.
  - apply (proj2 (normalizeSource_spec "path/to/file.mp4")). reflexivity.
Defined.

(** C6: an output that is not an adaptive streaming one gets the key
    [<jobID>/<fileName>]. For an adaptive streaming output the code trims
    from the file name every trailing character that occurs in its
    extension, not the extension alone: "hls/medium.m3u8" gives the key
    "job-123/hls/medi", in the output and in the playlist. *)
Theorem outputKey_adaptive_trims_cutset :
  (forall (job : db.Job.t) (fileName : string),
      outputKey job fileName false = db.Job.ID job +:+ "/" +:+ fileName)
  /\ filepath_Ext "hls/medium.m3u8" = ".m3u8"
  /\ outputKey (example.job "" "" 1) "hls/medium.m3u8" true = "job-123/hls/medi"
  /\ exists params : CreateJobInput.t,
       fst (Transcode (example.p (example.awsJob "Submitted" [])) (example.job "" "" 1)
              (example.profile [example.output (example.mapped "hls" "hls-1") "hls/medium.m3u8"]))
       = [reqReadPreset (Some "hls-1"); reqCreateJob params]
       /\ map CreateJobOutput.Key (CreateJobInput.Outputs params) = [Some "job-123/hls/medi"]
       /\ map CreateJobPlaylist.OutputKeys (CreateJobInput.Playlists params)
          = [["job-123/hls/medi"]].
Proof.
  split; [done|]. split; [done|]. split; [done|].
  eexists. split; [vm_compute; reflexivity|]. split; vm_compute; reflexivity.
Qed.

(** C10: the request [CreatePreset] sends carries the container "ts" for
    a preset whose container is "m3u8", and the container of the preset
    for every other one; it is the only request sent. *)
Theorem CreatePreset_container (p : awsProvider.t) (preset : provider.Preset.t) :
  exists presetInput : CreatePresetInput.t,
    fst (CreatePreset p preset) = [reqCreatePreset presetInput]
    /\ (provider.Preset.Container preset = "m3u8"
        -> CreatePresetInput.Container presetInput = Some "ts")
    /\ (provider.Preset.Container preset <> "m3u8"
        -> CreatePresetInput.Container presetInput = Some (provider.Preset.Container preset)).
Proof.
  unfold CreatePreset.
  match goal with
  | |- context [send (reqCreatePreset ?i) _] => exists i
  end.
  split; [|split].
  - unfold mbind, run_bind, send, deref, panic, mret, run_ret.
    destruct (API.CreatePreset _ _) as [[[created|]]|text]; simpl; [|done..].
    by destruct (Preset.Id created).
  - simpl. by intros ->.
  - simpl. intros Hne. by destruct (String.eqb_spec (provider.Preset.Container preset) "m3u8").
Qed.

(** A preset for HLS and one for MP4. *)
Lemma CreatePreset_container_witness :
  (exists presetInput : CreatePresetInput.t,
      fst (CreatePreset (example.p (example.awsJob "Submitted" [])) (example.preset "m3u8"))
      = [reqCreatePreset presetInput]
      /\ CreatePresetInput.Container presetInput = Some "ts")
  /\ (exists presetInput : CreatePresetInput.t,
      fst (CreatePreset (example.p (example.awsJob "Submitted" [])) (example.preset "mp4"))
      = [reqCreatePreset presetInput]
      /\ CreatePresetInput.Container presetInput = Some "mp4").
Proof.
  split.
  - destruct (CreatePreset_container (example.p (example.awsJob "Submitted" []))
                (example.preset "m3u8")) as (presetInput & Hsent & Hhls & _).
    exists presetInput. split; [exact Hsent | by apply Hhls].
  - destruct (CreatePreset_container (example.p (example.awsJob "Submitted" []))
                (example.preset "mp4")) as (presetInput & Hsent & _ & Hother).
    exists presetInput. split; [exact Hsent | by apply Hother].
Defined.

(** A run that ends well is made of steps that end well. *)
Lemma bind_Ok {A B} (m : run A) (k : A -> run B) (b : B) :
  snd (m ≫= k) = Ok b -> exists a, snd m = Ok a /\ snd (k a) = Ok b.
Proof.
  unfold mbind, run_bind. destruct m as [sent [a|e|why]]; simpl; try discriminate.
  destruct (k a) as [sent' r] eqn:E. simpl. intros ->. exists a. by rewrite E.
Qed.

(** A step that ends well hands its value to the rest of the run. *)
Lemma bind_Ok_step {A B} (m : run A) (k : A -> run B) (a : A) :
  snd m = Ok a -> snd (m ≫= k) = snd (k a).
Proof.
  unfold mbind, run_bind. destruct m as [sent r]. simpl. intros ->. by destruct (k a).
Qed.

(** One step of a run whose answer is known. *)
Ltac run_step a := rewrite (bind_Ok_step _ _ a) by done; cbv beta.

Lemma send_Ok {A} (req : request) (answer : reply A) (a : A) :
  snd (send req answer) = Ok a -> answer = Reply a.
Proof. unfold send. destruct answer; simpl; congruence. Qed.

Lemma deref_Ok {A} (ptr : option A) (a : A) : snd (deref ptr) = Ok a -> ptr = Some a.
Proof. destruct ptr; simpl; [congruence | discriminate]. Qed.

Lemma completedJobs_from (outputs : list JobOutput.t) (acc : float) :
  fold_left
    (fun completedJobs output =>
       if completed (statusMap (StringValue (JobOutput.Status output)))
       then (completedJobs + 1)%float else completedJobs)
    outputs acc
  = Nat.iter (completedOutputs outputs) (fun x => (x + 1)%float) acc.
Proof.
  revert acc. induction outputs as [|output outputs IH]; intros acc; [done|].
  unfold completedOutputs. rewrite filter_cons. cbn [fold_left]. rewrite IH.
  destruct (completed (statusMap (StringValue (JobOutput.Status output)))) eqn:E.
  - rewrite decide_True by done. cbn [length]. by rewrite Nat.iter_succ_r.
  - by rewrite decide_False by done.
Qed.

Lemma completedJobs_count (outputs : list JobOutput.t) :
  completedJobs outputs = float64_count (completedOutputs outputs).
Proof. apply completedJobs_from. Qed.

(** What [JobStatus] reports when it reports: the progress and the
    status are computed from the answer to [ReadJob]. *)
Lemma JobStatus_reports (p : awsProvider.t) (job : db.Job.t) (jobStatus : provider.JobStatus.t) :
  snd (JobStatus p job) = Ok jobStatus ->
  exists awsJob : Job.t,
    API.ReadJob (awsProvider.c p) (Some (db.Job.ProviderJobID job))
      = Reply {| JobResponse.Job := Some awsJob |}
    /\ provider.JobStatus.Progress jobStatus
       = (completedJobs (Job.Outputs awsJob)
          / float64_of_len (length (Job.Outputs awsJob)) * 100)%float
    /\ provider.JobStatus.Status jobStatus = statusMap (StringValue (Job.Status awsJob)).
Proof.
  unfold JobStatus. intros H.
  apply bind_Ok in H as ([resp] & Hread & H). apply send_Ok in Hread.
  apply bind_Ok in H as (awsJob & Hjob & H). apply deref_Ok in Hjob. simpl in Hjob. subst resp.
  apply bind_Ok in H as (destination & _ & H).
  apply bind_Ok in H as (files & _ & H).
  apply bind_Ok in H as (input & _ & H).
  apply bind_Ok in H as (detected & _ & H).
  simpl in H. injection H as <-. exists awsJob. by simpl.
Qed.

(** [JobStatus] reports whenever the back end answers: the job with its
    input and detected properties, the pipeline, and for every output a
    preset with video parameters. *)
Lemma outputFiles_returns (p : awsProvider.t) (pipeline : ReadPipelineOutput.t)
    (pipeline' : Pipeline.t) (job : Job.t) (outputs : list JobOutput.t) :
  ReadPipelineOutput.Pipeline pipeline = Some pipeline' ->
  Forall (fun output =>
    exists preset preset' video,
      API.ReadPreset (awsProvider.c p) (JobOutput.PresetId output) = Reply preset
      /\ PresetOutput.Preset preset = Some preset'
      /\ Preset.Video preset' = Some video) outputs ->
  exists files, snd (outputFiles p pipeline job outputs) = Ok files.
Proof.
  intros Hpipeline Houtputs.
  induction Houtputs as [|output outputs Houtput _ [files IH]]; [by eexists|].
  destruct Houtput as (preset & preset' & video & Hread & Hpreset & Hvideo).
  cbn [outputFiles]. rewrite Hread. run_step preset.
  rewrite Hpipeline. run_step pipeline'.
  rewrite Hpreset. run_step preset'.
  rewrite Hvideo. run_step video.
  run_step files. by eexists.
Qed.

Lemma JobStatus_returns (p : awsProvider.t) (job : db.Job.t) (awsJob : Job.t)
    (input : JobInput.t) (detected : DetectedProperties.t)
    (pipeline : ReadPipelineOutput.t) (pipeline' : Pipeline.t) :
  API.ReadJob (awsProvider.c p) (Some (db.Job.ProviderJobID job))
    = Reply {| JobResponse.Job := Some awsJob |} ->
  Job.Input awsJob = Some input ->
  JobInput.DetectedProperties input = Some detected ->
  API.ReadPipeline (awsProvider.c p) (Job.PipelineId awsJob) = Reply pipeline ->
  ReadPipelineOutput.Pipeline pipeline = Some pipeline' ->
  Forall (fun output =>
    exists preset preset' video,
      API.ReadPreset (awsProvider.c p) (JobOutput.PresetId output) = Reply preset
      /\ PresetOutput.Preset preset = Some preset'
      /\ Preset.Video preset' = Some video) (Job.Outputs awsJob) ->
  exists jobStatus, snd (JobStatus p job) = Ok jobStatus.
Proof.
  intros Hread Hinput Hdetected Hpipeline Hpipeline' Houtputs.
  destruct (outputFiles_returns p pipeline pipeline' awsJob (Job.Outputs awsJob)
              Hpipeline' Houtputs) as [files Hfiles].
  unfold JobStatus. rewrite Hread. run_step {| JobResponse.Job := Some awsJob |}.
  run_step awsJob.
  assert (Hdestination : exists destination,
             snd (or_error_text (getOutputDestination p job awsJob)) = Ok destination).
  { unfold getOutputDestination. rewrite Hpipeline. eexists.
    unfold or_error_text, mbind, run_bind, send, deref. rewrite Hpipeline'. reflexivity. }
  destruct Hdestination as [destination Hdestination]. run_step destination.
  assert (Hfiles' : snd (getOutputFiles p awsJob) = Ok files).
  { unfold getOutputFiles. rewrite Hpipeline. by run_step pipeline. }
  run_step files. rewrite Hinput. run_step input. rewrite Hdetected. run_step detected.
  by eexists.
Qed.

(** C8: the progress [JobStatus] reports is the number of outputs whose
    mapped status is Finished, Canceled or Failed, divided by the number
    of outputs, times 100, in [float64] arithmetic; with two outputs,
    both Complete, it is 100. The overall status is the mapped status of
    the job itself, so it is Finished when the back end reports the job
    Complete. *)
Theorem JobStatus_progress (p : awsProvider.t) (job : db.Job.t) (jobStatus : provider.JobStatus.t) :
  snd (JobStatus p job) = Ok jobStatus ->
  exists awsJob : Job.t,
    API.ReadJob (awsProvider.c p) (Some (db.Job.ProviderJobID job))
      = Reply {| JobResponse.Job := Some awsJob |}
    /\ provider.JobStatus.Progress jobStatus
       = (float64_count (completedOutputs (Job.Outputs awsJob))
          / float64_of_len (length (Job.Outputs awsJob)) * 100)%float
    /\ provider.JobStatus.Status jobStatus = statusMap (StringValue (Job.Status awsJob))
    /\ ((exists o1 o2, Job.Outputs awsJob = [o1; o2]
                       /\ JobOutput.Status o1 = Some "Complete"
                       /\ JobOutput.Status o2 = Some "Complete")
        -> provider.JobStatus.Progress jobStatus = 100%float
           /\ (Job.Status awsJob = Some "Complete"
               -> provider.JobStatus.Status jobStatus = provider.StatusFinished)).
Proof.
  intros H. destruct (JobStatus_reports p job jobStatus H) as (awsJob & Hread & Hprogress & Hstatus).
  exists awsJob. split; [exact Hread|]. split; [by rewrite Hprogress, completedJobs_count|].
  split; [exact Hstatus|].
  intros (o1 & o2 & Houtputs & H1 & H2). split.
  - rewrite Hprogress, Houtputs. unfold completedJobs. simpl. by rewrite H1, H2.
  - intros Hcomplete. by rewrite Hstatus, Hcomplete.
Qed.

(** The example of the specification: two outputs, both Complete, of a
    job that is Complete. *)
Lemma JobStatus_progress_witness :
  exists jobStatus : provider.JobStatus.t,
    snd (JobStatus
           (example.p (example.awsJob "Complete"
              [example.awsOutput "job-123/a.mp4" "Complete" "mp4-1";
               example.awsOutput "job-123/hls/b" "Complete" "hls-1"]))
           (example.job "" "" 1)) = Ok jobStatus
    /\ provider.JobStatus.Progress jobStatus = 100%float
    /\ provider.JobStatus.Status jobStatus = provider.StatusFinished.
Proof.
  eexists. split; [vm_compute; reflexivity|].
  match goal with
  | |- provider.JobStatus.Progress ?js = _ /\ _ =>
      assert (Hrun : snd (JobStatus
           (example.p (example.awsJob "Complete"
              [example.awsOutput "job-123/a.mp4" "Complete" "mp4-1";
               example.awsOutput "job-123/hls/b" "Complete" "hls-1"]))
           (example.job "" "" 1)) = Ok js) by (vm_compute; reflexivity);
      destruct (JobStatus_progress _ _ js Hrun) as (awsJob & Hread & _ & _ & Hboth)
  end.
  injection Hread as <-.
  destruct Hboth as [Hprogress Hstatus].
  - eexists _, _. repeat split; reflexivity.
  - split; [exact Hprogress | by apply Hstatus].
Defined.

(** All outputs are Complete while the job itself is still Progressing:
    the progress is 100 and the overall status is Started. *)
Lemma JobStatus_status_of_job :
  exists jobStatus : provider.JobStatus.t,
    snd (JobStatus
           (example.p (example.awsJob "Progressing"
              [example.awsOutput "job-123/a.mp4" "Complete" "mp4-1";
               example.awsOutput "job-123/hls/b" "Complete" "hls-1"]))
           (example.job "" "" 1)) = Ok jobStatus
    /\ provider.JobStatus.Progress jobStatus = 100%float
    /\ provider.JobStatus.Status jobStatus = provider.StatusStarted
    /\ provider.JobStatus.Status jobStatus <> provider.StatusFinished.
Proof.
  eexists. split; [vm_compute; reflexivity|].
  split; [vm_compute; reflexivity|]. split; [vm_compute; reflexivity|].
  vm_compute. discriminate.
Qed.



(** ** The submission workflow *)

(** The constructor refuses a configuration with an empty access key,
    secret key or pipeline. *)
Lemma elasticTranscoderProvider_incomplete (New : string -> string -> string -> API.t)
    (cfg : config.Config.t) (et : config.ElasticTranscoder.t) :
  config.Config.ElasticTranscoder cfg = Some et ->
  config.ElasticTranscoder.AccessKeyID et = ""
  \/ config.ElasticTranscoder.SecretAccessKey et = ""
  \/ config.ElasticTranscoder.PipelineID et = "" ->
  elasticTranscoderProvider New cfg = Err errAWSInvalidConfig.
Proof.
  intros Hcfg Hempty. unfold elasticTranscoderProvider. rewrite Hcfg.
  destruct Hempty as [-> | [-> | ->]]; simpl; [done| |].
  - by destruct (String.eqb _ "").
  - by destruct (String.eqb _ ""), (String.eqb _ "").
Qed.

(** A factory that fails: the response is the invalid-job one for an
    [InvalidConfigError], the server error for every other error. *)
Lemma newTranscodeJob_factory_error (s : World.t) (now : Z) (body : string)
    (payload : Payload.t) (factory : Factory) (err : error) :
  World.ProviderFactory s body = Ok (payload, factory) ->
  factory (World.config s) = Err err ->
  newTranscodeJob s now body
  = Submission.answer
      (let formattedErr :=
         Errorf "Error initializing provider %s for new job: %v %s"
                [Payload.Provider payload; "<nil>"] (Some err) in
       if provider.is_InvalidConfigError err
       then newInvalidJobResponse formattedErr
       else newErrorResponse formattedErr).
Proof.
  intros Hinput Hfactory. unfold newTranscodeJob. rewrite Hinput, Hfactory.
  by destruct (provider.is_InvalidConfigError err).
Qed.

(** C9: the constructor of the provider answers an empty access key,
    secret key or pipeline with [errAWSInvalidConfig], which is made by
    [errors.New] and is no [InvalidConfigError]: the submission answers
    with the server error, not with the invalid-job response. *)
Theorem incomplete_config_is_server_error
    (New : string -> string -> string -> API.t)
    (methods : awsProvider.t -> TranscodingProvider.t) (now : Z) (body : string) :
  elasticTranscoderProvider New (example.cfg "") = Err errAWSInvalidConfig
  /\ provider.is_InvalidConfigError errAWSInvalidConfig = false
  /\ newTranscodeJob
       (example.world (example.cfg "") (registry.registered New methods)
          (example.job "" "" 1) (example.payload "" "") 0)
       now body
     = Submission.answer
         (newErrorResponse
            (Errorf "Error initializing provider %s for new job: %v %s"
                    [Name; "<nil>"] (Some errAWSInvalidConfig))).
Proof. repeat split. Qed.




(** ** The callback delivery loop *)

(** The statuses at which the loop stops are Finished, Failed and
    Canceled. *)
Lemma terminal_states (st : provider.Status) :
  terminal st = true
  <-> st = provider.StatusFinished \/ st = provider.StatusFailed \/ st = provider.StatusCanceled.
Proof.
  destruct st; simpl; split; intros H; try tauto; try discriminate;
    destruct H as [H|[H|H]]; discriminate H.
Qed.

Lemma queries_app (a b : list event) : queries (a ++ b) = queries a ++ queries b.
Proof. apply flat_map_app. Qed.

Lemma posts_app (at_site : site) (a b : list event) :
  posts at_site (a ++ b) = posts at_site a ++ posts at_site b.
Proof. apply flat_map_app. Qed.

(** Every iteration makes one status query, at the reading of the clock
    that let it begin. *)
Lemma iteration_queries (s : World.t) (job : db.Job.t) (now : Z) :
  queries (fst (iteration s job now)) = [now].
Proof.
  unfold iteration, afterStatusPost.
  destruct (getTranscodeJobByID s (db.Job.ID job)) as [[[[job' jobStatus] providerObj] err]|];
    [|done].
  destruct (getJobStatusResponse job' jobStatus providerObj err) as [resp|]; [|done].
  destruct job' as [job'|]; [|done].
  destruct (negb (String.eqb (db.Job.StatusCallbackURL job') "")).
  - destruct (postStatusToCallback s resp (db.Job.StatusCallbackURL job')); [|done..].
    destruct jobStatus as [jobStatus|]; [|done].
    destruct (terminal _); [|done].
    by destruct (negb (String.eqb (db.Job.CompletionCallbackURL job') "")).
  - destruct jobStatus as [jobStatus|]; [|done].
    destruct (terminal _); [|done].
    by destruct (negb (String.eqb (db.Job.CompletionCallbackURL job') "")).
Qed.

(** The loop begins no iteration at or after the deadline, and ends no
    later than the deadline plus the time of one iteration. *)
Lemma loop_deadline (world : nat -> World.t) (deadline : Z) (job : db.Job.t) (B : Z) :
  (forall k t, took (world k) job t <= B) ->
  forall (fuel k : nat) (now : Z),
    Forall (fun t => t < deadline) (queries (Run.events (loop world deadline job fuel k now)))
    /\ Run.finish (loop world deadline job fuel k now) <= Z.max now (deadline + B).
Proof.
  intros Htook. induction fuel as [|fuel IH]; intros k now; simpl.
  - split; [constructor | lia].
  - destruct (Z.ltb_spec now deadline) as [Hlt|Hge]; [|simpl; split; [constructor | lia]].
    pose proof (iteration_queries (world k) job now) as Hq.
    pose proof (Htook k now) as Hk. unfold took in Hk.
    destruct (iteration (world k) job now) as [events st]. simpl in Hq, Hk.
    destruct st as [d| |why]; simpl.
    + destruct (IH (S k) (now + Z.of_N (World.busy (world k)) + slept d)) as [Hall Hfin].
      split.
      * rewrite queries_app, Hq. constructor; [exact Hlt | exact Hall].
      * lia.
    + rewrite Hq. split; [by repeat constructor | lia].
    + rewrite Hq. split; [by repeat constructor | lia].
Qed.

(** C4: no iteration of the loop begins at or after the deadline, which
    lies [maxJobTimeout] after the making of the context; an iteration
    that has begun runs to its end, so the loop ends no later than the
    deadline plus the time of one iteration. *)
Theorem statusCallback_deadline (world : nat -> World.t) (now : Z) (job : db.Job.t)
    (fuel : nat) (start B : Z) :
  (forall k t, took (world k) job t <= B) ->
  Forall (fun t => t < now + maxJobTimeout)
         (queries (Run.events
            (statusCallback world (Context.WithTimeout now maxJobTimeout) job fuel start)))
  /\ Run.finish (statusCallback world (Context.WithTimeout now maxJobTimeout) job fuel start)
     <= Z.max start (now + maxJobTimeout + B).
Proof.
  intros Htook. unfold statusCallback. simpl.
  apply (loop_deadline world (now + maxJobTimeout) job B Htook).
Qed.

(** A job that is polled every second and stays Queued: no iteration
    takes more than two seconds. *)
Lemma statusCallback_deadline_witness :
  let job := example.job "http://callback/status" "http://callback/done" 1 in
  let r := statusCallback (fun _ => example.polled job (Ok (example.status provider.StatusQueued)))
             (Context.WithTimeout 0 maxJobTimeout) job 3 0 in
  Forall (fun t => t < 0 + maxJobTimeout) (queries (Run.events r))
  /\ Run.finish r <= Z.max 0 (0 + maxJobTimeout + 2 * Second).
Proof.
  cbv zeta.
  apply (statusCallback_deadline
           (fun _ => example.polled
                       (example.job "http://callback/status" "http://callback/done" 1)
                       (Ok (example.status provider.StatusQueued)))
           0 (example.job "http://callback/status" "http://callback/done" 1) 3 0 (2 * Second)).
  intros _ t. vm_compute. discriminate.
Defined.

(** A job that is polled every ten hours and is Queued at the first
    query: the loop returns ten hours after its start. *)
Lemma statusCallback_outlives_deadline :
  let job := example.job "http://callback/status" "" 36000 in
  let r := statusCallback (fun _ => example.polled job (Ok (example.status provider.StatusQueued)))
             (Context.WithTimeout 0 maxJobTimeout) job 3 0 in
  Run.ending r = Returned
  /\ Run.finish r = 36000 * Second + 1000000
  /\ maxJobTimeout < Run.finish r - 0.
Proof. cbv zeta. repeat split. Qed.

(** An iteration whose status query fails without a status panics at
    the test of the status, unless the post to the status callback
    fails first. *)
Lemma iteration_failed_query (s : World.t) (job stored : db.Job.t) (now : Z)
    (providerObj : option TranscodingProvider.t) (err : error) :
  getTranscodeJobByID s (db.Job.ID job) = Val (Some stored, None, providerObj, Some err) ->
  (db.Job.StatusCallbackURL stored = ""
   \/ forall payload, postStatusToCallback s payload (db.Job.StatusCallbackURL stored) = Ok tt) ->
  snd (iteration s job now) = Fault nil_dereference.
Proof.
  intros Hquery Hpost. unfold iteration. rewrite Hquery.
  unfold getJobStatusResponse.
  destruct (err_is err db.ErrJobNotFound);
    [|destruct providerObj; [destruct (provider.is_JobNotFoundError err)|]];
    (destruct Hpost as [-> | Hpost]; [done | rewrite Hpost];
     by destruct (negb (String.eqb (db.Job.StatusCallbackURL stored) ""))).
Qed.

(** An iteration whose status query finds no job record panics at the
    test of the status callback URL. *)
Lemma iteration_failed_lookup (s : World.t) (job : db.Job.t) (now : Z)
    (jobStatus : option provider.JobStatus.t) (err : option error) :
  getTranscodeJobByID s (db.Job.ID job) = Val (None, jobStatus, None, err) ->
  snd (iteration s job now) = Fault nil_dereference.
Proof.
  intros Hquery. unfold iteration. rewrite Hquery. unfold getJobStatusResponse.
  destruct err as [err|]; [|done]. by destruct (err_is err db.ErrJobNotFound).
Qed.

(** A run whose first status query fails without a status, before the
    deadline, ends in a panic. *)
Lemma statusCallback_failed_query (world : nat -> World.t) (ctx : Context.t) (deadline : Z)
    (job stored : db.Job.t) (fuel : nat) (start : Z)
    (providerObj : option TranscodingProvider.t) (err : error) :
  Context.Deadline ctx = Some deadline ->
  start < deadline ->
  getTranscodeJobByID (world 0%nat) (db.Job.ID job)
    = Val (Some stored, None, providerObj, Some err) ->
  (db.Job.StatusCallbackURL stored = ""
   \/ forall payload,
        postStatusToCallback (world 0%nat) payload (db.Job.StatusCallbackURL stored) = Ok tt) ->
  Run.ending (statusCallback world ctx job (S fuel) start) = Panicked nil_dereference.
Proof.
  intros Hctx Hstart Hquery Hpost. unfold statusCallback. rewrite Hctx. cbn [loop].
  destruct (Z.ltb_spec start deadline) as [_|Hge]; [|lia].
  pose proof (iteration_failed_query (world 0%nat) job stored start providerObj err Hquery Hpost)
    as Hfault.
  destruct (iteration (world 0%nat) job start) as [events st]. simpl in Hfault. by subst st.
Qed.

(** C3: the status query of the first iteration fails (the job record is
    found, the provider answers with an error, so there is no status);
    the status callback is posted, and the loop then panics on the nil
    status instead of going on to the next iteration. *)
Theorem statusCallback_panics_on_failed_query (fuel : nat) :
  let failure := foreignError "aws" "RequestError: send request failed" in
  let job := example.job "http://callback/status" "http://callback/done" 1 in
  let s := example.polled job (Err failure) in
  let r := statusCallback (fun _ => s) (Context.WithTimeout 0 maxJobTimeout) job (S fuel) 0 in
  (exists providerObj,
      getTranscodeJobByID s "job-123" = Val (Some job, None, Some providerObj, Some failure))
  /\ Run.ending r = Panicked nil_dereference
  /\ Run.events r
     = [Queried 0 "job-123";
        Posted StatusCallback "http://callback/status"
          (newErrorResponse
             (Errorf "Error with provider %q when trying to retrieve job id %q: %s"
                     [Name; "job-123"] (Some failure)))
          (Ok tt)].
Proof. cbv zeta. split; [eexists; reflexivity|]. split; reflexivity. Qed.

(** What one iteration does when the query succeeds and the posts are
    accepted, for a status that is not terminal and for one that is. *)
Lemma iteration_running (s : World.t) (job stored : db.Job.t) (now : Z)
    (jobStatus : provider.JobStatus.t) (providerObj : TranscodingProvider.t) :
  getTranscodeJobByID s (db.Job.ID job)
    = Val (Some stored, Some jobStatus, Some providerObj, None) ->
  (forall payload url, postStatusToCallback s payload url = Ok tt) ->
  terminal (provider.JobStatus.Status jobStatus) = false ->
  snd (iteration s job now) = Continue (interval stored)
  /\ posts StatusCallback (fst (iteration s job now))
     = (if String.eqb (db.Job.StatusCallbackURL stored) "" then []
        else [(db.Job.StatusCallbackURL stored, newJobStatusResponse (Some jobStatus))])
  /\ posts CompletionCallback (fst (iteration s job now)) = [].
Proof.
  intros Hquery Hpost Hrunning. unfold iteration, afterStatusPost. rewrite Hquery. simpl.
  rewrite Hrunning.
  destruct (String.eqb (db.Job.StatusCallbackURL stored) ""); simpl; [done|].
  by rewrite Hpost.
Qed.

Lemma iteration_final (s : World.t) (job stored : db.Job.t) (now : Z)
    (jobStatus : provider.JobStatus.t) (providerObj : TranscodingProvider.t) :
  getTranscodeJobByID s (db.Job.ID job)
    = Val (Some stored, Some jobStatus, Some providerObj, None) ->
  (forall payload url, postStatusToCallback s payload url = Ok tt) ->
  terminal (provider.JobStatus.Status jobStatus) = true ->
  snd (iteration s job now) = Break
  /\ posts StatusCallback (fst (iteration s job now))
     = (if String.eqb (db.Job.StatusCallbackURL stored) "" then []
        else [(db.Job.StatusCallbackURL stored, newJobStatusResponse (Some jobStatus))])
  /\ posts CompletionCallback (fst (iteration s job now))
     = (if String.eqb (db.Job.CompletionCallbackURL stored) "" then []
        else [(db.Job.CompletionCallbackURL stored, newJobStatusResponse (Some jobStatus))]).
Proof.
  intros Hquery Hpost Hfinal. unfold iteration, afterStatusPost. rewrite Hquery. simpl.
  rewrite Hfinal.
  destruct (String.eqb (db.Job.StatusCallbackURL stored) ""); simpl;
    [|rewrite Hpost];
    (destruct (String.eqb (db.Job.CompletionCallbackURL stored) ""); simpl;
     [done | by rewrite Hpost]).
Qed.

Lemma elapsed_nonneg (world : nat -> World.t) (d : Z) (n k : nat) : 0 <= elapsed world d k n.
Proof.
  revert k. induction n as [|n IH]; intros k; simpl; [lia|].
  specialize (IH (S k)). unfold slept. lia.
Qed.

(** The run of the loop from iteration [k] on, when the queries find the
    statuses [running], none of them terminal, and then [final], which
    is, and every post is accepted. *)
Lemma loop_delivers (world : nat -> World.t) (deadline : Z) (job stored : db.Job.t)
    (final : provider.JobStatus.t) :
  terminal (provider.JobStatus.Status final) = true ->
  forall (running : list provider.JobStatus.t) (fuel k : nat) (now : Z),
    (forall i jobStatus,
        (running ++ [final]) !! i = Some jobStatus ->
        exists providerObj,
          getTranscodeJobByID (world (k + i)%nat) (db.Job.ID job)
          = Val (Some stored, Some jobStatus, Some providerObj, None)) ->
    (forall i payload url,
        (i <= length running)%nat ->
        postStatusToCallback (world (k + i)%nat) payload url = Ok tt) ->
    Forall (fun jobStatus => terminal (provider.JobStatus.Status jobStatus) = false) running ->
    now + elapsed world (interval stored) k (length running) < deadline ->
    (length running < fuel)%nat ->
    let r := loop world deadline job fuel k now in
    Run.ending r = Returned
    /\ length (queries (Run.events r)) = S (length running)
    /\ posts StatusCallback (Run.events r)
       = (if String.eqb (db.Job.StatusCallbackURL stored) "" then []
          else map (fun jobStatus =>
                      (db.Job.StatusCallbackURL stored, newJobStatusResponse (Some jobStatus)))
                   (running ++ [final]))
    /\ posts CompletionCallback (Run.events r)
       = (if String.eqb (db.Job.CompletionCallbackURL stored) "" then []
          else [(db.Job.CompletionCallbackURL stored, newJobStatusResponse (Some final))])
    /\ Run.finish r
       = now + elapsed world (interval stored) k (length running)
         + Z.of_N (World.busy (world (k + length running)%nat)).
Proof.
  intros Hfinal. induction running as [|jobStatus running IH];
    intros fuel k now Hquery Hpost Hrunning Htime Hfuel;
    (destruct fuel as [|fuel]; [simpl in Hfuel; lia|]); cbv zeta.
  - simpl in Htime. cbn [loop].
    destruct (Z.ltb_spec now deadline) as [_|Hge]; [|lia].
    destruct (Hquery 0%nat final eq_refl) as [providerObj Hq].
    rewrite Nat.add_0_r in *.
    assert (Hp : forall payload url, postStatusToCallback (world k) payload url = Ok tt).
    { intros payload url. specialize (Hpost 0%nat payload url). rewrite Nat.add_0_r in Hpost.
      apply Hpost. simpl. lia. }
    destruct (iteration_final (world k) job stored now final providerObj Hq Hp Hfinal)
      as (Hst & Hstatus & Hcompletion).
    pose proof (iteration_queries (world k) job now) as Hqueries.
    destruct (iteration (world k) job now) as [events st].
    simpl in Hst, Hstatus, Hcompletion, Hqueries. subst st. simpl.
    rewrite Hqueries, Hstatus, Hcompletion. repeat split. lia.
  - simpl in Htime, Hfuel. cbn [loop].
    pose proof (elapsed_nonneg world (interval stored) (length running) (S k)) as Hpos.
    assert (Hslept : 0 <= slept (interval stored)) by (unfold slept; lia).
    destruct (Z.ltb_spec now deadline) as [_|Hge]; [|lia].
    destruct (Hquery 0%nat jobStatus eq_refl) as [providerObj Hq].
    rewrite Nat.add_0_r in Hq.
    assert (Hp : forall payload url, postStatusToCallback (world k) payload url = Ok tt).
    { intros payload url. specialize (Hpost 0%nat payload url). rewrite Nat.add_0_r in Hpost.
      apply Hpost. simpl. lia. }
    inversion Hrunning as [|? ? Hhead Htail]; subst.
    destruct (iteration_running (world k) job stored now jobStatus providerObj Hq Hp Hhead)
      as (Hst & Hstatus & Hcompletion).
    pose proof (iteration_queries (world k) job now) as Hqueries.
    destruct (iteration (world k) job now) as [events st].
    simpl in Hst, Hstatus, Hcompletion, Hqueries. subst st.
    destruct (IH fuel (S k) (now + Z.of_N (World.busy (world k)) + slept (interval stored)))
      as (Hend & Hlen & Hposts & Hdone & Hfinish).
    + intros i js Hi. destruct (Hquery (S i) js Hi) as [prov Hprov].
      exists prov. by rewrite Nat.add_succ_r in Hprov.
    + intros i payload url Hi. specialize (Hpost (S i) payload url).
      rewrite Nat.add_succ_r in Hpost. apply Hpost. simpl. lia.
    + exact Htail.
    + lia.
    + lia.
    + simpl. rewrite queries_app, !posts_app, Hqueries, Hstatus, Hcompletion, Hposts, Hdone.
      rewrite Hend, Hfinish. simpl. rewrite Hlen.
      repeat split.
      * by destruct (String.eqb (db.Job.StatusCallbackURL stored) "").
      * rewrite Nat.add_succ_r. simpl. lia.
Qed.

(** C5: when the status queries of a run find statuses that are not
    terminal and then one that is, all before the deadline, and every
    post is accepted, the loop returns after the query that found the
    terminal status: it has posted every status found to the status
    callback, and the terminal one to the completion callback, once, at
    each of the two that the job names. *)
Theorem statusCallback_delivers (world : nat -> World.t) (ctx : Context.t) (deadline : Z)
    (job stored : db.Job.t) (running : list provider.JobStatus.t)
    (final : provider.JobStatus.t) (fuel : nat) (start : Z) :
  Context.Deadline ctx = Some deadline ->
  (forall i jobStatus,
      (running ++ [final]) !! i = Some jobStatus ->
      exists providerObj,
        getTranscodeJobByID (world i) (db.Job.ID job)
        = Val (Some stored, Some jobStatus, Some providerObj, None)) ->
  (forall i payload url,
      (i <= length running)%nat -> postStatusToCallback (world i) payload url = Ok tt) ->
  Forall (fun jobStatus => terminal (provider.JobStatus.Status jobStatus) = false) running ->
  terminal (provider.JobStatus.Status final) = true ->
  start + elapsed world (interval stored) 0 (length running) < deadline ->
  (length running < fuel)%nat ->
  let r := statusCallback world ctx job fuel start in
  Run.ending r = Returned
  /\ length (queries (Run.events r)) = S (length running)
  /\ posts StatusCallback (Run.events r)
     = (if String.eqb (db.Job.StatusCallbackURL stored) "" then []
        else map (fun jobStatus =>
                    (db.Job.StatusCallbackURL stored, newJobStatusResponse (Some jobStatus)))
                 (running ++ [final]))
  /\ posts CompletionCallback (Run.events r)
     = (if String.eqb (db.Job.CompletionCallbackURL stored) "" then []
        else [(db.Job.CompletionCallbackURL stored, newJobStatusResponse (Some final))])
  /\ Run.finish r < deadline + Z.of_N (World.busy (world (length running))).
Proof.
  intros Hctx Hquery Hpost Hrunning Hfinal Htime Hfuel. cbv zeta.
  unfold statusCallback. rewrite Hctx.
  destruct (loop_delivers world deadline job stored final Hfinal running fuel 0 start)
    as (Hend & Hlen & Hposts & Hdone & Hfinish); try assumption.
  repeat split; try assumption. rewrite Hfinish. simpl. lia.
Qed.

(** The example of the specification: both callback URLs, an interval of
    one second, and the statuses Queued, Started, Finished. *)
Lemma statusCallback_delivers_witness :
  let job := example.job "http://callback/status" "http://callback/done" 1 in
  let r := statusCallback (example.transitions job) (Context.WithTimeout 0 maxJobTimeout)
             job 10 0 in
  Run.ending r = Returned
  /\ length (queries (Run.events r)) = 3%nat
  /\ posts StatusCallback (Run.events r)
     = [("http://callback/status", newJobStatusResponse (Some (example.found provider.StatusQueued)));
        ("http://callback/status", newJobStatusResponse (Some (example.found provider.StatusStarted)));
        ("http://callback/status", newJobStatusResponse (Some (example.found provider.StatusFinished)))]
  /\ posts CompletionCallback (Run.events r)
     = [("http://callback/done", newJobStatusResponse (Some (example.found provider.StatusFinished)))]
  /\ Run.finish r < maxJobTimeout + 1000000.
Proof.
  cbv zeta.
  apply (statusCallback_delivers
           (example.transitions (example.job "http://callback/status" "http://callback/done" 1))
           (Context.WithTimeout 0 maxJobTimeout) (0 + maxJobTimeout)
           (example.job "http://callback/status" "http://callback/done" 1)
           (example.job "http://callback/status" "http://callback/done" 1)
           [example.found provider.StatusQueued; example.found provider.StatusStarted]
           (example.found provider.StatusFinished) 10 0).
  - reflexivity.
  - intros i jobStatus Hi. destruct i as [|[|[|i]]]; simpl in Hi; [| | |discriminate Hi];
      injection Hi as <-; eexists; reflexivity.
  - intros i payload url _. reflexivity.
  - repeat constructor.
  - reflexivity.
  - vm_compute. reflexivity.
  - simpl. lia.
Defined.

(** * Further properties of the code *)

(** ** More facts about the string functions *)

Lemma append_cons (x : ascii) (a b : string) : String x a +:+ b = String x (a +:+ b).
Proof. reflexivity. Qed.

Lemma append_assoc (a b c : string) : (a +:+ b) +:+ c = a +:+ b +:+ c.
Proof. induction a as [|x a IH]; [done|]. by rewrite !append_cons, IH. Qed.

Lemma append_nil_r (a : string) : a +:+ "" = a.
Proof. induction a as [|x a IH]; [done|]. by rewrite append_cons, IH. Qed.

Lemma list_ascii_of_string_append (a b : string) :
  list_ascii_of_string (a +:+ b) = list_ascii_of_string a ++ list_ascii_of_string b.
Proof. induction a as [|x a IH]; [done|]. rewrite append_cons. simpl. by rewrite IH. Qed.

Lemma prefix_skip (a s : string) :
  String.prefix a s = true -> s = a +:+ skip (String.length a) s.
Proof.
  revert s. induction a as [|x a IH]; intros s; [by destruct s|].
  destruct s as [|y s]; [discriminate|]. simpl.
  destruct (ascii_dec x y) as [->|]; [|discriminate].
  intros H. rewrite append_cons. by rewrite <- (IH s H).
Qed.

(** [cut] splits the string at an occurrence of the separator. *)
Lemma cut_Some (sep s a b : string) : cut sep s = Some (a, b) -> s = a +:+ sep +:+ b.
Proof.
  revert a b. induction s as [|c s IH]; intros a b; rewrite cut_unfold.
  - destruct (String.prefix sep "") eqn:E; [|discriminate].
    intros [= <- <-]. by apply prefix_skip.
  - destruct (String.prefix sep (String c s)) eqn:E.
    + intros [= <- <-]. by apply prefix_skip.
    + destruct (cut sep s) as [[a' b']|] eqn:Ecut; [|discriminate].
      intros [= <- <-]. rewrite append_cons. by rewrite <- (IH a' b').
Qed.

Lemma cut_char_None (c : ascii) (s : string) :
  ~ In c (list_ascii_of_string s) -> cut (String c EmptyString) s = None.
Proof.
  induction s as [|x s IH]; intros Hnot; [done|].
  simpl in Hnot. rewrite cut_unfold. simpl.
  destruct (ascii_dec c x) as [->|Hne]; [tauto|].
  rewrite IH; [done | tauto].
Qed.

(** ** The Elastic Transcoder provider: locators and keys *)

(** X1: normalisation only ever drops a leading part of the locator. *)
Theorem normalizeSource_suffix (source : string) :
  exists dropped : string, source = dropped +:+ normalizeSource source.
Proof.
  unfold normalizeSource, s3Pattern_MatchString.
  destruct (String.prefix "s3://" source) eqn:Hprefix; [|by exists ""].
  apply prefix_skip in Hprefix. simpl String.length in Hprefix.
  generalize dependent (skip 5 source). intros rest ->.
  unfold strings_Replace_1. rewrite cut_prefix.
  change ("" +:+ "" +:+ rest) with rest. unfold strings_SplitN_2.
  destruct (cut "/" rest) as [[bucket key]|] eqn:Hcut; simpl.
  - apply cut_Some in Hcut. exists ("s3://" +:+ bucket +:+ "/").
    rewrite Hcut. by rewrite !append_assoc.
  - by exists "s3://".
Qed.

(** X2: a locator that names a bucket and no key is normalised to the
    name of the bucket, not to the empty key. *)
Theorem normalizeSource_bucket_only (bucket : string) :
  ~ In "/"%char (list_ascii_of_string bucket) ->
  normalizeSource ("s3://" +:+ bucket) = bucket.
Proof.
  intros Hbucket. unfold normalizeSource, s3Pattern_MatchString.
  rewrite prefix_append. unfold strings_Replace_1. rewrite cut_prefix.
  change ("" +:+ "" +:+ bucket) with bucket. unfold strings_SplitN_2.
  by rewrite cut_char_None.
Qed.

Lemma normalizeSource_bucket_only_witness : normalizeSource "s3://bucket" = "bucket".
Proof.
  apply (normalizeSource_bucket_only "bucket").
  simpl. intros H. repeat (destruct H as [H|H]; [discriminate H|]). exact H.
Defined.

Lemma ext_scan_pass (l rest seen : list ascii) :
  (forall c, In c l -> c <> "."%char /\ c <> "/"%char) ->
  ext_scan (l ++ rest) seen = ext_scan rest (rev l ++ seen).
Proof.
  revert seen. induction l as [|x l IH]; intros seen Hl; [done|].
  destruct (Hl x (or_introl eq_refl)) as [Hdot Hslash]. cbn [app ext_scan].
  destruct (Ascii.eqb_spec x "/"); [done|]. destruct (Ascii.eqb_spec x "."); [done|].
  rewrite IH by (intros c Hc; apply Hl; by right).
  cbn [rev]. by rewrite <- app_assoc.
Qed.

Lemma ext_scan_none (l rest seen : list ascii) :
  (forall c, In c l -> c <> "."%char) ->
  rest = [] \/ (exists rest', rest = "/"%char :: rest') ->
  ext_scan (l ++ rest) seen = [].
Proof.
  revert seen. induction l as [|x l IH]; intros seen Hl Hrest.
  - destruct Hrest as [-> | [rest' ->]]; done.
  - cbn [app ext_scan]. destruct (Ascii.eqb_spec x "/"); [done|].
    destruct (Ascii.eqb_spec x "."); [by destruct (Hl x (or_introl eq_refl))|].
    apply IH; [|done]. intros c Hc. apply Hl. by right.
Qed.

Lemma drop_while_in_pass (cutset l rest : list ascii) :
  (forall c, In c l -> In c cutset) ->
  drop_while_in cutset (l ++ rest) = drop_while_in cutset rest.
Proof.
  induction l as [|x l IH]; intros Hl; [done|]. cbn [app drop_while_in].
  assert (Hx : existsb (Ascii.eqb x) cutset = true).
  { apply existsb_exists. exists x. split; [apply Hl; by left | apply Ascii.eqb_refl]. }
  rewrite Hx. apply IH. intros c Hc. apply Hl. by right.
Qed.

Lemma drop_while_in_stop (cutset l : list ascii) :
  (forall c, head l = Some c -> ~ In c cutset) -> drop_while_in cutset l = l.
Proof.
  destruct l as [|x l]; intros Hhead; [done|]. cbn [drop_while_in].
  destruct (existsb (Ascii.eqb x) cutset) eqn:E; [|done].
  apply existsb_exists in E as (y & Hy & Hxy). apply Ascii.eqb_eq in Hxy. subst y.
  by destruct (Hhead x eq_refl).
Qed.

Lemma head_rev_last {A} (l : list A) : head (rev l) = last l.
Proof. rewrite rev_alt. apply head_reverse. Qed.

Lemma string_of_rev_rev (s : string) :
  string_of_list_ascii (rev (rev (list_ascii_of_string s))) = s.
Proof. by rewrite rev_involutive, string_of_list_ascii_of_string. Qed.

(** X3: for an adaptive streaming output with a file name of ASCII
    characters the key is [<jobID>/<stem>], the file name without its
    extension, when the last character of the stem does not occur in
    the extension. *)
Theorem outputKey_adaptive_stem (job : db.Job.t) (stem e : string) :
  (forall c, In c (list_ascii_of_string (stem +:+ "." +:+ e)) ->
             (nat_of_ascii c < RuneSelf)%nat) ->
  (forall c, In c (list_ascii_of_string e) -> c <> "."%char /\ c <> "/"%char) ->
  (forall c, last (list_ascii_of_string stem) = Some c ->
             ~ In c ("."%char :: list_ascii_of_string e)) ->
  outputKey job (stem +:+ "." +:+ e) true = db.Job.ID job +:+ "/" +:+ stem.
Proof.
  intros _ He Hlast. unfold outputKey. do 2 f_equal.
  assert (Hrev : rev (list_ascii_of_string (stem +:+ "." +:+ e))
                 = rev (list_ascii_of_string e) ++ "."%char :: rev (list_ascii_of_string stem)).
  { rewrite list_ascii_of_string_append. change ("." +:+ e) with (String "." e).
    cbn [list_ascii_of_string]. rewrite rev_app_distr. cbn [rev]. by rewrite <- app_assoc. }
  assert (Hext : filepath_Ext (stem +:+ "." +:+ e) = String "." e).
  { unfold filepath_Ext. rewrite Hrev, ext_scan_pass.
    - cbn [ext_scan]. rewrite rev_involutive, app_nil_r.
      cbn [string_of_list_ascii Ascii.eqb]. simpl. by rewrite string_of_list_ascii_of_string.
    - intros c Hc. apply He. by apply in_rev. }
  rewrite Hext. unfold strings_TrimRight. rewrite Hrev.
  change (rev (list_ascii_of_string e) ++ "."%char :: rev (list_ascii_of_string stem))
    with (rev (list_ascii_of_string e) ++ ["."%char] ++ rev (list_ascii_of_string stem)).
  rewrite app_assoc, drop_while_in_pass, drop_while_in_stop.
  - apply string_of_rev_rev.
  - intros c Hc. rewrite head_rev_last in Hc. by apply Hlast.
  - intros c Hc. cbn [list_ascii_of_string]. apply in_app_or in Hc as [Hc|[<-|[]]].
    + right. by apply in_rev.
    + by left.
Qed.

Lemma outputKey_adaptive_stem_witness :
  outputKey (example.job "" "" 1) "hls/video_720p.m3u8" true = "job-123/hls/video_720p".
Proof.
  apply (outputKey_adaptive_stem (example.job "" "" 1) "hls/video_720p" "m3u8").
  - intros c H. vm_compute in H.
    repeat (destruct H as [<-|H]; [vm_compute; lia|]). destruct H.
  - simpl. intros c H. repeat (destruct H as [<-|H]; [split; discriminate|]). destruct H.
  - intros c Hc. vm_compute in Hc. injection Hc as <-.
    simpl. intros H. repeat (destruct H as [H|H]; [discriminate H|]). exact H.
Defined.

(** X4: a file name whose last path element has no dot keeps its name in
    the key of an adaptive streaming output. *)
Theorem outputKey_adaptive_no_extension (job : db.Job.t) (dir base : string) :
  (forall c, In c (list_ascii_of_string base) -> c <> "."%char) ->
  dir = "" \/ (exists d, dir = d +:+ "/") ->
  outputKey job (dir +:+ base) true = db.Job.ID job +:+ "/" +:+ dir +:+ base.
Proof.
  intros Hbase Hdir. unfold outputKey. do 2 f_equal.
  assert (Hext : filepath_Ext (dir +:+ base) = "").
  { unfold filepath_Ext. rewrite list_ascii_of_string_append, rev_app_distr.
    rewrite ext_scan_none; [done| |].
    - intros c Hc. apply Hbase. by apply in_rev.
    - destruct Hdir as [-> | [d ->]]; [by left|]. right.
      rewrite list_ascii_of_string_append. cbn [list_ascii_of_string].
      rewrite rev_app_distr. by eexists. }
  rewrite Hext. unfold strings_TrimRight. cbn [list_ascii_of_string].
  rewrite drop_while_in_stop by (intros c _ []). apply string_of_rev_rev.
Qed.

Lemma outputKey_adaptive_no_extension_witness :
  outputKey (example.job "" "" 1) "v1.2/stream" true = "job-123/v1.2/stream".
Proof.
  apply (outputKey_adaptive_no_extension (example.job "" "" 1) "v1.2/" "stream").
  - simpl. intros c H. repeat (destruct H as [<-|H]; [discriminate|]). destruct H.
  - right. by exists "v1.2".
Defined.

(** ** The Elastic Transcoder provider: the requests of [Transcode] *)

(** The requests of a run: those of its first step, then those of the
    rest if the first step ended well. *)
Lemma bind_fst {A B} (m : run A) (k : A -> run B) :
  fst (m ≫= k) = fst m ++ match snd m with Ok a => fst (k a) | _ => [] end.
Proof.
  unfold mbind, run_bind. destruct m as [sent [a|e|why]]; simpl; [|by rewrite app_nil_r..].
  by destruct (k a).
Qed.

Lemma bind_Err {A B} (m : run A) (k : A -> run B) (e : error) :
  snd m = Err e -> snd (m ≫= k) = Err e.
Proof. unfold mbind, run_bind. destruct m as [sent r]. simpl. by intros ->. Qed.

(** The requests of the loop over the outputs. *)
Lemma transcodeOutputs_sent (p : awsProvider.t) (job : db.Job.t)
    (profile : provider.TranscodeProfile.t) (output : provider.TranscodeOutput.t)
    (outputs : list provider.TranscodeOutput.t) :
  fst (transcodeOutputs p job profile (output :: outputs))
  = match db.Preset.ProviderMapping (provider.TranscodeOutput.Preset output) !! Name with
    | None => []
    | Some presetID =>
        reqReadPreset (Some presetID)
        :: match API.ReadPreset (awsProvider.c p) (Some presetID) with
           | Failure _ => []
           | Reply presetOutput =>
               match PresetOutput.Preset presetOutput ≫= Preset.Container with
               | None => []
               | Some _ => fst (transcodeOutputs p job profile outputs)
               end
           end
    end.
Proof.
  cbn [transcodeOutputs].
  destruct (db.Preset.ProviderMapping (provider.TranscodeOutput.Preset output) !! Name)
    as [presetID|]; [|done].
  rewrite bind_fst. unfold send. cbn [fst snd app]. f_equal.
  destruct (API.ReadPreset (awsProvider.c p) (Some presetID)) as [presetOutput|text]; [|done].
  destruct (PresetOutput.Preset presetOutput ≫= Preset.Container) as [container|]; [|done].
  rewrite bind_fst.
  destruct (snd (transcodeOutputs p job profile outputs)) as [[outs adaptive]| |];
    by rewrite ?app_nil_r.
Qed.

(** The loop over the outputs reads presets and does nothing else, once
    per output at most. *)
Lemma transcodeOutputs_reads (p : awsProvider.t) (job : db.Job.t)
    (profile : provider.TranscodeProfile.t) (outputs : list provider.TranscodeOutput.t) :
  Forall (fun req => readsPreset req = true) (fst (transcodeOutputs p job profile outputs))
  /\ (length (fst (transcodeOutputs p job profile outputs)) <= length outputs)%nat.
Proof.
  induction outputs as [|output outputs [IHreads IHlength]]; [by split; [constructor|]|].
  rewrite transcodeOutputs_sent.
  destruct (db.Preset.ProviderMapping (provider.TranscodeOutput.Preset output) !! Name)
    as [presetID|]; [|split; [constructor | simpl; lia]].
  destruct (API.ReadPreset (awsProvider.c p) (Some presetID)) as [presetOutput|text];
    [|split; [by repeat constructor | simpl; lia]].
  destruct (PresetOutput.Preset presetOutput ≫= Preset.Container) as [container|];
    [|split; [by repeat constructor | simpl; lia]].
  split; [by constructor | simpl; lia].
Qed.

(** What the loop over the outputs has built when it ends well. *)
Lemma transcodeOutputs_Ok (p : awsProvider.t) (job : db.Job.t)
    (profile : provider.TranscodeProfile.t) (outputs : list provider.TranscodeOutput.t)
    (outs : list CreateJobOutput.t) (adaptive : list provider.TranscodeOutput.t) :
  snd (transcodeOutputs p job profile outputs) = Ok (outs, adaptive) ->
  map CreateJobOutput.PresetId outs
  = map (fun output =>
           db.Preset.ProviderMapping (provider.TranscodeOutput.Preset output) !! Name) outputs
  /\ Forall (fun out => exists name, CreateJobOutput.Key out = Some (db.Job.ID job +:+ "/" +:+ name))
            outs
  /\ map (fun output => outputKey job (provider.TranscodeOutput.FileName output) true) adaptive
     = omap CreateJobOutput.Key (filter (fun out => segmented out = true) outs).
Proof.
  revert outs adaptive. induction outputs as [|output outputs IH]; intros outs adaptive.
  - intros [= <- <-]. by repeat split.
  - cbn [transcodeOutputs].
    destruct (db.Preset.ProviderMapping (provider.TranscodeOutput.Preset output) !! Name)
      as [presetID|] eqn:Hmap; [|discriminate].
    intros H. apply bind_Ok in H as (presetOutput & Hread & H).
    destruct (PresetOutput.Preset presetOutput ≫= Preset.Container) as [container|];
      [|discriminate].
    apply bind_Ok in H as ([outs' adaptive'] & Hrest & H).
    destruct (IH outs' adaptive' Hrest) as (Hids & Hkeys & Hplaylist).
    cbn in H. injection H as <- <-.
    split; [by rewrite !map_cons, Hids, Hmap|]. split.
    + constructor; [|exact Hkeys]. cbn. unfold outputKey. by eexists.
    + rewrite filter_cons. unfold segmented at 1. cbn [CreateJobOutput.SegmentDuration].
      destruct (String.eqb container "ts").
      * rewrite decide_True by done. cbn. by rewrite Hplaylist.
      * rewrite decide_False by done. exact Hplaylist.
Qed.

(** The requests of [Transcode] once the loop over the outputs has ended
    well. *)
Lemma Transcode_sent (p : awsProvider.t) (job : db.Job.t)
    (profile : provider.TranscodeProfile.t)
    (outs : list CreateJobOutput.t) (adaptive : list provider.TranscodeOutput.t) :
  snd (transcodeOutputs p job profile (provider.TranscodeProfile.Outputs profile))
    = Ok (outs, adaptive) ->
  fst (Transcode p job profile)
  = fst (transcodeOutputs p job profile (provider.TranscodeProfile.Outputs profile))
    ++ [reqCreateJob
          {| CreateJobInput.PipelineId :=
               Some (config.ElasticTranscoder.PipelineID (awsProvider.config p));
             CreateJobInput.Input :=
               Some {| JobInput.Key :=
                         Some (normalizeSource (provider.TranscodeProfile.SourceMedia profile));
                       JobInput.DetectedProperties := None |};
             CreateJobInput.Outputs := outs;
             CreateJobInput.Playlists := jobPlaylists job profile adaptive |}].
Proof.
  intros Hloop. unfold Transcode. rewrite bind_fst, Hloop. cbv beta iota. f_equal.
  rewrite bind_fst. unfold send. cbn [fst snd].
  destruct (API.CreateJob _ _) as [resp|text]; [|done].
  rewrite bind_fst. by destruct (JobResponse.Job resp).
Qed.

(** X5: [Transcode] reads presets, once per output at most, and then
    sends one [CreateJob] or nothing; it returns a status only when it
    has sent the [CreateJob]. *)
Theorem Transcode_requests (p : awsProvider.t) (job : db.Job.t)
    (profile : provider.TranscodeProfile.t) :
  exists (reads tail : list request),
    fst (Transcode p job profile) = reads ++ tail
    /\ Forall (fun req => readsPreset req = true) reads
    /\ (length reads <= length (provider.TranscodeProfile.Outputs profile))%nat
    /\ (tail = [] \/ exists params, tail = [reqCreateJob params])
    /\ (forall jobStatus, snd (Transcode p job profile) = Ok jobStatus ->
        exists params, tail = [reqCreateJob params]).
Proof.
  destruct (transcodeOutputs_reads p job profile (provider.TranscodeProfile.Outputs profile))
    as [Hreads Hlength].
  exists (fst (transcodeOutputs p job profile (provider.TranscodeProfile.Outputs profile))).
  destruct (snd (transcodeOutputs p job profile (provider.TranscodeProfile.Outputs profile)))
    as [[outs adaptive]|e|why] eqn:Hloop.
  - eexists. split; [by apply Transcode_sent|]. split; [exact Hreads|]. split; [exact Hlength|].
    split; [right|intros _ _]; by eexists.
  - exists []. unfold Transcode. rewrite bind_fst, Hloop, (bind_Err _ _ e Hloop).
    repeat split; try done. by left.
  - exists []. unfold Transcode. rewrite bind_fst, Hloop. unfold mbind, run_bind.
    destruct (transcodeOutputs p job profile (provider.TranscodeProfile.Outputs profile)).
    simpl in Hloop. subst. repeat split; try done. by left.
Qed.

(** X6: the [CreateJob] request of a [Transcode] that ends well. It names
    the configured pipeline and the normalised source; its outputs are
    those of the profile, in order, each with the preset mapped for this
    provider and a key under [<jobID>/]; it has a playlist exactly when
    some output carries a segment duration, in the format HLSv3 and
    listing the keys of those outputs; the status returned is Queued,
    under the name of the provider. *)
Theorem Transcode_created (p : awsProvider.t) (job : db.Job.t)
    (profile : provider.TranscodeProfile.t) (jobStatus : provider.JobStatus.t) :
  snd (Transcode p job profile) = Ok jobStatus ->
  exists (reads : list request) (params : CreateJobInput.t),
    fst (Transcode p job profile) = reads ++ [reqCreateJob params]
    /\ CreateJobInput.PipelineId params
       = Some (config.ElasticTranscoder.PipelineID (awsProvider.config p))
    /\ (CreateJobInput.Input params ≫= JobInput.Key)
       = Some (normalizeSource (provider.TranscodeProfile.SourceMedia profile))
    /\ map CreateJobOutput.PresetId (CreateJobInput.Outputs params)
       = map (fun output =>
                db.Preset.ProviderMapping (provider.TranscodeOutput.Preset output) !! Name)
             (provider.TranscodeProfile.Outputs profile)
    /\ Forall (fun out =>
                 exists name, CreateJobOutput.Key out = Some (db.Job.ID job +:+ "/" +:+ name))
              (CreateJobInput.Outputs params)
    /\ match filter (fun out => segmented out = true) (CreateJobInput.Outputs params) with
       | [] => CreateJobInput.Playlists params = []
       | adaptive =>
           exists playlist,
             CreateJobInput.Playlists params = [playlist]
             /\ CreateJobPlaylist.Format playlist = Some "HLSv3"
             /\ CreateJobPlaylist.OutputKeys playlist = omap CreateJobOutput.Key adaptive
       end
    /\ provider.JobStatus.Status jobStatus = provider.StatusQueued
    /\ provider.JobStatus.ProviderName jobStatus = Name.
Proof.
  intros H. pose proof H as Hrun. unfold Transcode in H.
  apply bind_Ok in H as ([outs adaptive] & Hloop & H).
  apply bind_Ok in H as (resp & Hcreate & H).
  apply bind_Ok in H as (created & Hjob & H).
  cbn in H. injection H as <-.
  destruct (transcodeOutputs_Ok p job profile _ outs adaptive Hloop) as (Hids & Hkeys & Hplaylist).
  eexists _, _. split; [by apply (Transcode_sent p job profile outs adaptive)|]. cbn.
  split; [done|]. split; [done|]. split; [exact Hids|]. split; [exact Hkeys|].
  split; [|done].
  unfold jobPlaylists.
  destruct (filter (fun out => segmented out = true) outs) as [|out adaptive'] eqn:Hfilter.
  - by destruct adaptive.
  - destruct adaptive as [|output adaptive].
    + assert (Hout : out ∈ filter (fun out => segmented out = true) outs)
        by (rewrite Hfilter; apply list_elem_of_here).
      apply list_elem_of_filter in Hout as [_ Hout].
      rewrite Forall_forall in Hkeys. destruct (Hkeys out Hout) as [name Hname].
      cbn in Hplaylist. rewrite Hname in Hplaylist. discriminate Hplaylist.
    + eexists. split; [reflexivity|]. split; [done|]. exact Hplaylist.
Qed.

(** A profile of an HLS output and an MP4 output. *)
Lemma Transcode_created_witness :
  exists (reads : list request) (params : CreateJobInput.t),
    fst (Transcode (example.p (example.awsJob "Submitted" [])) (example.job "" "" 1)
           (example.profile [example.output (example.mapped "hls" "hls-1") "hls/video.m3u8";
                             example.output (example.mapped "mp4" "mp4-1") "video.mp4"]))
    = reads ++ [reqCreateJob params]
    /\ map CreateJobOutput.PresetId (CreateJobInput.Outputs params) = [Some "hls-1"; Some "mp4-1"].
Proof.
  destruct (Transcode_created (example.p (example.awsJob "Submitted" [])) (example.job "" "" 1)
              (example.profile [example.output (example.mapped "hls" "hls-1") "hls/video.m3u8";
                                example.output (example.mapped "mp4" "mp4-1") "video.mp4"])
              (provider.JobStatus.set_ProviderName Name (example.status provider.StatusQueued)))
    as (reads & params & Hsent & _ & _ & Hids & _).
  - vm_compute. reflexivity.
  - exists reads, params. split; [exact Hsent|]. rewrite Hids. vm_compute. reflexivity.
Defined.

(** ** The Elastic Transcoder provider: construction and probes *)

(** X7: the constructor returns a provider exactly for the settings with
    an access key, a secret key and a pipeline; the provider keeps the
    settings, and its client is made for the region of the settings, or
    for "us-east-1" when they name none. *)
Theorem elasticTranscoderProvider_accepts (New : string -> string -> string -> API.t)
    (cfg : config.Config.t) (p : awsProvider.t) :
  elasticTranscoderProvider New cfg = Ok p
  <-> exists et : config.ElasticTranscoder.t,
        config.Config.ElasticTranscoder cfg = Some et
        /\ config.ElasticTranscoder.AccessKeyID et <> ""
        /\ config.ElasticTranscoder.SecretAccessKey et <> ""
        /\ config.ElasticTranscoder.PipelineID et <> ""
        /\ awsProvider.config p = et
        /\ awsProvider.c p
           = New (config.ElasticTranscoder.AccessKeyID et)
                 (config.ElasticTranscoder.SecretAccessKey et)
                 (if String.eqb (config.ElasticTranscoder.Region et) ""
                  then "us-east-1" else config.ElasticTranscoder.Region et).
Proof.
  unfold elasticTranscoderProvider. split.
  - destruct (config.Config.ElasticTranscoder cfg) as [et|]; [|discriminate].
    destruct (String.eqb_spec (config.ElasticTranscoder.AccessKeyID et) ""); [discriminate|].
    destruct (String.eqb_spec (config.ElasticTranscoder.SecretAccessKey et) ""); [discriminate|].
    destruct (String.eqb_spec (config.ElasticTranscoder.PipelineID et) ""); [discriminate|].
    simpl. intros [= <-]. by exists et.
  - intros (et & -> & Hkey & Hsecret & Hpipeline & Hconfig & Hclient).
    destruct (String.eqb_spec (config.ElasticTranscoder.AccessKeyID et) ""); [done|].
    destruct (String.eqb_spec (config.ElasticTranscoder.SecretAccessKey et) ""); [done|].
    destruct (String.eqb_spec (config.ElasticTranscoder.PipelineID et) ""); [done|].
    simpl. destruct p as [c config]. simpl in Hconfig, Hclient. by subst.
Qed.

(** X8: the health check of a provider the constructor has made reads the
    pipeline of the settings, which is not the empty one, and sends
    nothing else; it fails exactly when that read fails. *)
Theorem Healthcheck_of_constructed (New : string -> string -> string -> API.t)
    (cfg : config.Config.t) (p : awsProvider.t) :
  elasticTranscoderProvider New cfg = Ok p ->
  exists pipelineID : string,
    pipelineID <> ""
    /\ (config.ElasticTranscoder.PipelineID <$> config.Config.ElasticTranscoder cfg)
       = Some pipelineID
    /\ fst (Healthcheck p) = [reqReadPipeline (Some pipelineID)]
    /\ snd (Healthcheck p)
       = match API.ReadPipeline (awsProvider.c p) (Some pipelineID) with
         | Reply _ => Ok tt
         | Failure text => Err (foreignError "aws" text)
         end.
Proof.
  unfold elasticTranscoderProvider.
  destruct (config.Config.ElasticTranscoder cfg) as [et|]; [|discriminate].
  destruct (String.eqb (config.ElasticTranscoder.AccessKeyID et) ""); [discriminate|].
  destruct (String.eqb (config.ElasticTranscoder.SecretAccessKey et) ""); [discriminate|].
  destruct (String.eqb_spec (config.ElasticTranscoder.PipelineID et) "") as [|Hpipeline];
    [discriminate|].
  simpl. intros [= <-].
  exists (config.ElasticTranscoder.PipelineID et).
  split; [exact Hpipeline|]. split; [done|].
  unfold Healthcheck. cbn [awsProvider.config awsProvider.c]. unfold mbind, run_bind, send.
  by destruct (API.ReadPipeline _ _).
Qed.

Lemma Healthcheck_of_constructed_witness :
  fst (Healthcheck (example.p (example.awsJob "Submitted" [])))
  = [reqReadPipeline (Some "pipeline-1")].
Proof.
  destruct (Healthcheck_of_constructed
              (fun _ _ _ => example.client (example.awsJob "Submitted" []))
              (example.cfg "AKIA") (example.p (example.awsJob "Submitted" [])) eq_refl)
    as (pipelineID & _ & Hid & Hsent & _).
  injection Hid as <-. exact Hsent.
Defined.

(** ** The Elastic Transcoder provider: the status of a job *)

Lemma outputFiles_reads (p : awsProvider.t) (pipeline : ReadPipelineOutput.t) (job : Job.t)
    (outputs : list JobOutput.t) :
  Forall (fun req => reads req = true) (fst (outputFiles p pipeline job outputs)).
Proof.
  induction outputs as [|output outputs IH]; [constructor|].
  cbn [outputFiles]. rewrite bind_fst. unfold send at 1 2. cbn [fst snd app].
  constructor; [done|].
  destruct (API.ReadPreset _ _) as [preset|]; [|constructor].
  rewrite bind_fst. destruct (ReadPipelineOutput.Pipeline pipeline);
    cbn [deref mret run_ret panic fst snd app]; [|constructor].
  rewrite bind_fst. destruct (PresetOutput.Preset preset) as [preset'|];
    cbn [deref mret run_ret panic fst snd app]; [|constructor].
  rewrite bind_fst. destruct (Preset.Video preset');
    cbn [deref mret run_ret panic fst snd app]; [|constructor].
  rewrite bind_fst. destruct (snd (outputFiles p pipeline job outputs));
    cbn [mret run_ret fst snd app]; by rewrite ?app_nil_r.
Qed.

Lemma or_error_text_fst (m : run string) : fst (or_error_text m) = fst m.
Proof. destruct m as [sent [a|[]|why]]; done. Qed.

(** X9: a status query changes nothing at the back end: [JobStatus] sends
    only requests that read a job, a pipeline or a preset. *)
Theorem JobStatus_reads_only (p : awsProvider.t) (job : db.Job.t) :
  Forall (fun req => reads req = true) (fst (JobStatus p job)).
Proof.
  unfold JobStatus. rewrite bind_fst. unfold send at 1 2. cbn [fst snd app].
  constructor; [done|].
  destruct (API.ReadJob _ _) as [resp|]; [|constructor].
  rewrite bind_fst. destruct (JobResponse.Job resp) as [awsJob|];
    cbn [deref mret run_ret panic fst snd app]; [|constructor].
  rewrite bind_fst. apply Forall_app. split.
  - rewrite or_error_text_fst. unfold getOutputDestination.
    rewrite bind_fst. unfold send at 1 2. cbn [fst snd app].
    constructor; [done|].
    destruct (API.ReadPipeline _ _) as [pipeline|text]; [|constructor].
    rewrite bind_fst. destruct (ReadPipelineOutput.Pipeline pipeline);
      cbn [deref mret run_ret panic fst snd app]; constructor.
  - destruct (snd (or_error_text (getOutputDestination p job awsJob))); [|constructor..].
    rewrite bind_fst. apply Forall_app. split.
    + unfold getOutputFiles. rewrite bind_fst. unfold send at 1 2. cbn [fst snd app].
      constructor; [done|].
      destruct (API.ReadPipeline _ _) as [pipeline|]; [|constructor].
      apply outputFiles_reads.
    + destruct (snd (getOutputFiles p awsJob)); [|constructor..].
      rewrite bind_fst. destruct (Job.Input awsJob) as [input|];
        cbn [deref mret run_ret panic fst snd app]; [|constructor].
      rewrite bind_fst. destruct (JobInput.DetectedProperties input);
        cbn [deref mret run_ret panic fst snd app]; constructor.
Qed.

(** The files [getOutputFiles] lists: one for each output, in order. *)
Lemma outputFiles_Ok (p : awsProvider.t) (pipeline : ReadPipelineOutput.t)
    (job : Job.t) (outputs : list JobOutput.t) (files : list provider.OutputFile.t) :
  snd (outputFiles p pipeline job outputs) = Ok files ->
  Forall2 (fun output file =>
    (exists pipeline',
        ReadPipelineOutput.Pipeline pipeline = Some pipeline'
        /\ provider.OutputFile.Path file
           = "s3://" +:+ StringValue (Pipeline.OutputBucket pipeline') +:+ "/" +:+
             StringValue (Job.OutputKeyPrefix job) +:+ StringValue (JobOutput.Key output))
    /\ provider.OutputFile.Width file = Int64Value (JobOutput.Width output)
    /\ provider.OutputFile.Height file = Int64Value (JobOutput.Height output)
    /\ exists preset,
         API.ReadPreset (awsProvider.c p) (JobOutput.PresetId output)
           = Reply {| PresetOutput.Preset := Some preset |}
         /\ provider.OutputFile.Container file = StringValue (Preset.Container preset))
    outputs files.
Proof.
  revert files. induction outputs as [|output outputs IH]; intros files.
  - intros [= <-]. constructor.
  - cbn [outputFiles]. intros H.
    apply bind_Ok in H as ([preset] & Hread & H). apply send_Ok in Hread.
    apply bind_Ok in H as (pipeline' & Hp & H). apply deref_Ok in Hp.
    apply bind_Ok in H as (preset' & Hpreset & H). apply deref_Ok in Hpreset.
    simpl in Hpreset. subst preset.
    apply bind_Ok in H as (video & _ & H).
    apply bind_Ok in H as (files' & Hrest & H).
    cbn in H. injection H as <-.
    constructor; [|by apply IH]. cbn. repeat split; by eexists.
Qed.

(** X10: the files of a status that [JobStatus] returns. There is one
    file for each output of the job, in order, at
    [s3://<bucket>/<prefix><key>] for the output bucket of the pipeline
    as [getOutputFiles] has read it, with the size of the output and
    the container of its preset. *)
Theorem JobStatus_files (p : awsProvider.t) (job : db.Job.t) (jobStatus : provider.JobStatus.t) :
  snd (JobStatus p job) = Ok jobStatus ->
  exists (awsJob : Job.t) (readPipelineOutput : ReadPipelineOutput.t),
    API.ReadJob (awsProvider.c p) (Some (db.Job.ProviderJobID job))
      = Reply {| JobResponse.Job := Some awsJob |}
    /\ API.ReadPipeline (awsProvider.c p) (Job.PipelineId awsJob) = Reply readPipelineOutput
    /\ Forall2 (fun output file =>
         (exists pipeline,
             ReadPipelineOutput.Pipeline readPipelineOutput = Some pipeline
             /\ provider.OutputFile.Path file
                = "s3://" +:+ StringValue (Pipeline.OutputBucket pipeline) +:+ "/" +:+
                  StringValue (Job.OutputKeyPrefix awsJob) +:+
                  StringValue (JobOutput.Key output))
         /\ provider.OutputFile.Width file = Int64Value (JobOutput.Width output)
         /\ provider.OutputFile.Height file = Int64Value (JobOutput.Height output)
         /\ exists preset,
              API.ReadPreset (awsProvider.c p) (JobOutput.PresetId output)
                = Reply {| PresetOutput.Preset := Some preset |}
              /\ provider.OutputFile.Container file = StringValue (Preset.Container preset))
         (Job.Outputs awsJob)
         (provider.JobOutput.Files (provider.JobStatus.Output jobStatus)).
Proof.
  unfold JobStatus. intros H.
  apply bind_Ok in H as ([resp] & Hread & H). apply send_Ok in Hread.
  apply bind_Ok in H as (awsJob & Hjob & H). apply deref_Ok in Hjob. simpl in Hjob. subst resp.
  apply bind_Ok in H as (destination & _ & H).
  apply bind_Ok in H as (files & Hfiles & H).
  apply bind_Ok in H as (input & _ & H).
  apply bind_Ok in H as (detected & _ & H).
  cbn in H. injection H as <-. cbn.
  unfold getOutputFiles in Hfiles.
  apply bind_Ok in Hfiles as (readPipelineOutput & Hpipeline & Hfiles).
  apply send_Ok in Hpipeline.
  exists awsJob, readPipelineOutput. split; [exact Hread|]. split; [exact Hpipeline|].
  by apply outputFiles_Ok.
Qed.

Lemma JobStatus_files_witness :
  exists jobStatus : provider.JobStatus.t,
    snd (JobStatus
           (example.p (example.awsJob "Complete"
              [example.awsOutput "job-123/a.mp4" "Complete" "mp4-1"]))
           (example.job "" "" 1)) = Ok jobStatus
    /\ map provider.OutputFile.Path
           (provider.JobOutput.Files (provider.JobStatus.Output jobStatus))
       = ["s3://some-bucket/job-123/a.mp4"]
    /\ map provider.OutputFile.Container
           (provider.JobOutput.Files (provider.JobStatus.Output jobStatus))
       = ["mp4"].
Proof.
  eexists. split; [vm_compute; reflexivity|].
  match goal with
  | |- map _ (provider.JobOutput.Files (provider.JobStatus.Output ?js)) = _ /\ _ =>
      destruct (JobStatus_files
                  (example.p (example.awsJob "Complete"
                     [example.awsOutput "job-123/a.mp4" "Complete" "mp4-1"]))
                  (example.job "" "" 1) js)
        as (awsJob & readPipelineOutput & Hread & Hpipeline & Hfiles);
        [vm_compute; reflexivity|]
  end.
  split; vm_compute; reflexivity.
Defined.

(** The details by output that the loop of [JobStatus] collects. *)
Lemma outputDetails_snoc (outputs : list JobOutput.t) (output : JobOutput.t) :
  outputDetails (outputs ++ [output])
  = <[StringValue (JobOutput.Key output) := StringValue (JobOutput.StatusDetail output)]>
      (outputDetails outputs).
Proof. unfold outputDetails. by rewrite fold_left_app. Qed.

Lemma outputDetails_absent (outputs : list JobOutput.t) (key : string) :
  ~ In key (map (fun output => StringValue (JobOutput.Key output)) outputs) ->
  outputDetails outputs !! key = None.
Proof.
  induction outputs as [|output outputs IH] using rev_ind; intros Hkey; [done|].
  rewrite outputDetails_snoc. rewrite map_app, in_app_iff in Hkey. simpl in Hkey.
  rewrite lookup_insert_ne by tauto. apply IH. tauto.
Qed.

Lemma outputDetails_present (outputs : list JobOutput.t) (output : JobOutput.t) :
  NoDup (map (fun output => StringValue (JobOutput.Key output)) outputs) ->
  In output outputs ->
  outputDetails outputs !! StringValue (JobOutput.Key output)
  = Some (StringValue (JobOutput.StatusDetail output)).
Proof.
  induction outputs as [|o outputs IH] using rev_ind; intros Hkeys Hin; [destruct Hin|].
  rewrite outputDetails_snoc. rewrite map_app in Hkeys. apply NoDup_app in Hkeys
    as (Hkeys & Hfresh & _).
  apply in_app_or in Hin as [Hin|[<-|[]]]; [|by rewrite lookup_insert_eq].
  rewrite lookup_insert_ne; [by apply IH|].
  intros Heq. apply (Hfresh (StringValue (JobOutput.Key output))).
  - apply list_elem_of_In, in_map_iff. by exists output.
  - rewrite <- Heq. apply list_elem_of_here.
Qed.

(** X11: the provider status of a status that [JobStatus] returns maps,
    under "outputs", the key of every output of the job to its status
    detail, and no other key, when the outputs have different keys; of
    two outputs with one key, the later one's detail is kept. *)
Theorem JobStatus_details (p : awsProvider.t) (job : db.Job.t) (jobStatus : provider.JobStatus.t) :
  snd (JobStatus p job) = Ok jobStatus ->
  exists (awsJob : Job.t) (details : gmap string string),
    API.ReadJob (awsProvider.c p) (Some (db.Job.ProviderJobID job))
      = Reply {| JobResponse.Job := Some awsJob |}
    /\ provider.JobStatus.ProviderStatus jobStatus !! "outputs" = Some details
    /\ (forall key,
          ~ In key (map (fun output => StringValue (JobOutput.Key output)) (Job.Outputs awsJob)) ->
          details !! key = None)
    /\ (NoDup (map (fun output => StringValue (JobOutput.Key output)) (Job.Outputs awsJob)) ->
        forall output, In output (Job.Outputs awsJob) ->
          details !! StringValue (JobOutput.Key output)
          = Some (StringValue (JobOutput.StatusDetail output)))
    /\ (forall earlier output,
          Job.Outputs awsJob = earlier ++ [output] ->
          details !! StringValue (JobOutput.Key output)
          = Some (StringValue (JobOutput.StatusDetail output))).
Proof.
  unfold JobStatus. intros H.
  apply bind_Ok in H as ([resp] & Hread & H). apply send_Ok in Hread.
  apply bind_Ok in H as (awsJob & Hjob & H). apply deref_Ok in Hjob. simpl in Hjob. subst resp.
  apply bind_Ok in H as (destination & _ & H).
  apply bind_Ok in H as (files & _ & H).
  apply bind_Ok in H as (input & _ & H).
  apply bind_Ok in H as (detected & _ & H).
  cbn in H. injection H as <-.
  exists awsJob, (outputDetails (Job.Outputs awsJob)).
  split; [exact Hread|]. split; [apply lookup_singleton_eq|].
  split; [apply outputDetails_absent|].
  split; [intros Hkeys output Hin; by apply outputDetails_present|].
  intros earlier output ->. rewrite outputDetails_snoc. apply lookup_insert_eq.
Qed.

(** A job with one output, which has no status detail. *)
Lemma JobStatus_details_witness :
  exists jobStatus : provider.JobStatus.t,
    snd (JobStatus
           (example.p (example.awsJob "Complete"
              [example.awsOutput "job-123/a.mp4" "Complete" "mp4-1"]))
           (example.job "" "" 1)) = Ok jobStatus
    /\ provider.JobStatus.ProviderStatus jobStatus !! "outputs" ≫= (.!! "job-123/a.mp4")
       = Some "".
Proof.
  eexists. split; [vm_compute; reflexivity|].
  match goal with
  | |- provider.JobStatus.ProviderStatus ?js !! _ ≫= _ = _ =>
      destruct (JobStatus_details
                  (example.p (example.awsJob "Complete"
                     [example.awsOutput "job-123/a.mp4" "Complete" "mp4-1"]))
                  (example.job "" "" 1) js)
        as (awsJob & details & Hread & Hdetails & _ & _ & Hlast);
        [vm_compute; reflexivity|]
  end.
  rewrite Hdetails. injection Hread as <-.
  exact (Hlast [] (example.awsOutput "job-123/a.mp4" "Complete" "mp4-1") eq_refl).
Defined.

(** X12: for a job without outputs the progress is 0/0, not a number. *)
Theorem JobStatus_no_outputs (p : awsProvider.t) (job : db.Job.t)
    (jobStatus : provider.JobStatus.t) (awsJob : Job.t) :
  snd (JobStatus p job) = Ok jobStatus ->
  API.ReadJob (awsProvider.c p) (Some (db.Job.ProviderJobID job))
    = Reply {| JobResponse.Job := Some awsJob |} ->
  Job.Outputs awsJob = [] ->
  PrimFloat.is_nan (provider.JobStatus.Progress jobStatus) = true.
Proof.
  intros Hrun Hread Hempty.
  destruct (JobStatus_reports p job jobStatus Hrun) as (awsJob' & Hread' & Hprogress & _).
  rewrite Hread in Hread'. injection Hread' as <-.
  by rewrite Hprogress, Hempty.
Qed.

Lemma JobStatus_no_outputs_witness :
  exists jobStatus : provider.JobStatus.t,
    snd (JobStatus (example.p (example.awsJob "Submitted" [])) (example.job "" "" 1))
      = Ok jobStatus
    /\ PrimFloat.is_nan (provider.JobStatus.Progress jobStatus) = true.
Proof.
  eexists. split; [vm_compute; reflexivity|].
  eapply (JobStatus_no_outputs (example.p (example.awsJob "Submitted" [])) (example.job "" "" 1));
    [vm_compute; reflexivity | reflexivity | reflexivity].
Defined.

(** ** The status workflow *)

(** The three shapes of what [getTranscodeJobByID] returns: no job
    record and the error of the store; a job record and an error,
    without a status; or the job record, its status and its provider. *)
Lemma getTranscodeJobByID_cases (s : World.t) (jobID : string)
    (job : option db.Job.t) (jobStatus : option provider.JobStatus.t)
    (providerObj : option TranscodingProvider.t) (err : option error) :
  getTranscodeJobByID s jobID = Val (job, jobStatus, providerObj, err) ->
  (exists e e', World.db_GetJob s jobID = Err e
      /\ job = None /\ jobStatus = None /\ providerObj = None /\ err = Some e')
  \/ (exists stored e, World.db_GetJob s jobID = Ok stored
      /\ job = Some stored /\ jobStatus = None /\ err = Some e)
  \/ (exists stored found prov, World.db_GetJob s jobID = Ok stored
      /\ job = Some stored /\ jobStatus = Some found /\ providerObj = Some prov /\ err = None
      /\ provider.JobStatus.ProviderName found = db.Job.ProviderName stored).
Proof.
  unfold getTranscodeJobByID.
  destruct (World.db_GetJob s jobID) as [stored|e|why]; [| |discriminate].
  - destruct (World.GetProviderFactory s (db.Job.ProviderName stored)) as [factory|e|why];
      [| intros [= <- <- <- <-]; right; left; by do 2 eexists | discriminate].
    destruct (factory (World.config s)) as [prov|e|why];
      [| intros [= <- <- <- <-]; right; left; by do 2 eexists | discriminate].
    destruct (TranscodingProvider.JobStatus prov (db.Job.ProviderJobID stored))
      as [found|e|why]; [| |discriminate]; intros [= <- <- <- <-].
    + right; right. by do 3 eexists.
    + right; left. by do 2 eexists.
  - destruct (err_is e db.ErrJobNotFound); intros [= <- <- <- <-]; left; by do 2 eexists.
Qed.

(** [getJobStatusResponse] makes a response of whatever
    [getTranscodeJobByID] returns. *)
Lemma getJobStatusResponse_of_lookup (s : World.t) (jobID : string)
    (job : option db.Job.t) (jobStatus : option provider.JobStatus.t)
    (providerObj : option TranscodingProvider.t) (err : option error) :
  getTranscodeJobByID s jobID = Val (job, jobStatus, providerObj, err) ->
  exists response : gizmoResponse,
    getJobStatusResponse job jobStatus providerObj err = Val response.
Proof.
  intros E. unfold getJobStatusResponse.
  destruct (getTranscodeJobByID_cases s jobID job jobStatus providerObj err E)
    as [(e & e' & _ & -> & -> & -> & ->)
       |[(stored & e & _ & -> & -> & ->)
        |(stored & found & prov & _ & -> & -> & -> & -> & _)]].
  - destruct (err_is e' db.ErrJobNotFound); by eexists.
  - destruct (err_is e db.ErrJobNotFound); [by eexists|].
    destruct providerObj; [|by eexists].
    destruct (provider.is_JobNotFoundError e); by eexists.
  - by eexists.
Qed.

(** X13: of the four results of [getTranscodeJobByID], the status is there
    exactly when the error is not; a provider comes with a job record,
    a status with a provider; the status carries the provider name of
    the job record; and without a job record the store has failed. *)
Theorem getTranscodeJobByID_results (s : World.t) (jobID : string)
    (job : option db.Job.t) (jobStatus : option provider.JobStatus.t)
    (providerObj : option TranscodingProvider.t) (err : option error) :
  getTranscodeJobByID s jobID = Val (job, jobStatus, providerObj, err) ->
  (is_Some jobStatus <-> err = None)
  /\ (is_Some providerObj -> is_Some job)
  /\ (is_Some jobStatus -> is_Some providerObj)
  /\ (forall stored found, job = Some stored -> jobStatus = Some found ->
        provider.JobStatus.ProviderName found = db.Job.ProviderName stored)
  /\ (job = None -> exists e, World.db_GetJob s jobID = Err e)
  /\ (forall stored, job = Some stored -> World.db_GetJob s jobID = Ok stored).
Proof.
  intros E.
  destruct (getTranscodeJobByID_cases s jobID job jobStatus providerObj err E)
    as [(e & e' & Hstore & -> & -> & -> & ->)
       |[(stored & e & Hstore & -> & -> & ->)
        |(stored & found & prov & Hstore & -> & -> & -> & -> & Hname)]].
  - repeat split; try done; try by intros [? [=]].
    intros _. by exists e.
  - repeat split; try done; try by intros [? [=]].
    intros _ [= <-]. exact Hstore.
  - repeat split; try done; try by eexists.
    + by intros ? ? [= <-] [= <-].
    + by intros ? [= <-].
Qed.

(** X14: [getTranscodeJob] never faults on a nil job record: whatever
    [getTranscodeJobByID] returns, [getJobStatusResponse] makes a
    response of it. *)
Theorem getTranscodeJob_no_fault (s : World.t) (jobID : string)
    (job : option db.Job.t) (jobStatus : option provider.JobStatus.t)
    (providerObj : option TranscodingProvider.t) (err : option error) :
  getTranscodeJobByID s jobID = Val (job, jobStatus, providerObj, err) ->
  exists response : gizmoResponse,
    getJobStatusResponse job jobStatus providerObj err = Val response
    /\ getTranscodeJob s jobID = Val response.
Proof.
  intros E. unfold getTranscodeJob. rewrite E.
  destruct (getJobStatusResponse_of_lookup s jobID job jobStatus providerObj err E)
    as [response ->].
  by exists response.
Qed.

(** A job whose provider fails to answer the status query. *)
Lemma getTranscodeJob_no_fault_witness :
  exists response : gizmoResponse,
    getTranscodeJob
      (example.polled (example.job "" "" 1) (Err (JobNotFoundError "1453-aws"))) "job-123"
    = Val response.
Proof.
  destruct (getTranscodeJob_no_fault
              (example.polled (example.job "" "" 1) (Err (JobNotFoundError "1453-aws")))
              "job-123" (Some (example.job "" "" 1)) None
              (Some (example.answering (Ok (example.status provider.StatusQueued))
                                       (Err (JobNotFoundError "1453-aws"))))
              (Some (JobNotFoundError "1453-aws")) eq_refl) as (response & _ & H).
  by exists response.
Defined.

(** A job that the store holds and the provider reports as Started. *)
Lemma getTranscodeJobByID_results_witness :
  provider.JobStatus.ProviderName (example.found provider.StatusStarted) = Name.
Proof.
  destruct (getTranscodeJobByID_results
              (example.polled (example.job "" "" 1) (Ok (example.status provider.StatusStarted)))
              "job-123" (Some (example.job "" "" 1)) (Some (example.found provider.StatusStarted))
              (Some (example.answering (Ok (example.status provider.StatusQueued))
                                       (Ok (example.status provider.StatusStarted))))
              None eq_refl) as (_ & _ & _ & Hname & _).
  exact (Hname _ _ eq_refl eq_refl).
Defined.

(** The answer of [getTranscodeJob] by the answers of its collaborators. *)
Lemma getTranscodeJob_table (s : World.t) (jobID : string) :
  getTranscodeJob s jobID
  = match World.db_GetJob s jobID with
    | Panic why => Crash why
    | Err e =>
        if err_is e db.ErrJobNotFound then Val (newJobNotFoundResponse e)
        else Val (newErrorResponse
                    (Errorf "error retrieving job with id %q: %s" [jobID] (Some e)))
    | Ok job =>
    match World.GetProviderFactory s (db.Job.ProviderName job) with
    | Panic why => Crash why
    | Err _ =>
        Val (newErrorResponse
               (Errorf "unknown provider %q for job id %q"
                       [db.Job.ProviderName job; jobID] None))
    | Ok factory =>
    match factory (World.config s) with
    | Panic why => Crash why
    | Err e =>
        Val (newErrorResponse
               (Errorf "error initializing provider %q on job id %q: %s %s"
                       [db.Job.ProviderName job; jobID; "<nil>"] (Some e)))
    | Ok providerObj =>
    match TranscodingProvider.JobStatus providerObj (db.Job.ProviderJobID job) with
    | Panic why => Crash why
    | Err e =>
        let wrapped :=
          Errorf "Error with provider %q when trying to retrieve job id %q: %s"
                 [db.Job.ProviderName job; db.Job.ID job] (Some e) in
        if err_is e db.ErrJobNotFound then Val (newJobNotFoundResponse e)
        else if provider.is_JobNotFoundError e
             then Val (newJobNotFoundProviderResponse wrapped)
             else Val (newErrorResponse wrapped)
    | Ok found =>
        Val (newJobStatusResponse
               (Some (provider.JobStatus.set_ProviderName (db.Job.ProviderName job) found)))
    end end end end.
Proof.
  unfold getTranscodeJob, getTranscodeJobByID.
  destruct (World.db_GetJob s jobID) as [job|e|why]; [| |done].
  - destruct (World.GetProviderFactory s (db.Job.ProviderName job)) as [factory|e|why];
      [|done..].
    destruct (factory (World.config s)) as [prov|e|why]; [|done..].
    destruct (TranscodingProvider.JobStatus prov (db.Job.ProviderJobID job)) as [found|e|why];
      [done| |done].
    unfold getJobStatusResponse. destruct (err_is e db.ErrJobNotFound); [done|].
    by destruct (provider.is_JobNotFoundError e).
  - unfold getJobStatusResponse. by destruct (err_is e db.ErrJobNotFound) eqn:E; rewrite ?E.
Qed.

(** X15: the answer is the 410, "gone at the provider", exactly when the
    job record is found, its provider is registered and constructed,
    and the status query of the provider fails with a
    [JobNotFoundError]; the 410 carries that error, wrapped. *)
Theorem getTranscodeJob_gone (s : World.t) (jobID : string) (err : error) :
  getTranscodeJob s jobID = Val (newJobNotFoundProviderResponse err)
  <-> exists job factory providerObj id,
        World.db_GetJob s jobID = Ok job
        /\ World.GetProviderFactory s (db.Job.ProviderName job) = Ok factory
        /\ factory (World.config s) = Ok providerObj
        /\ TranscodingProvider.JobStatus providerObj (db.Job.ProviderJobID job)
           = Err (JobNotFoundError id)
        /\ err = Errorf "Error with provider %q when trying to retrieve job id %q: %s"
                        [db.Job.ProviderName job; db.Job.ID job]
                        (Some (JobNotFoundError id)).
Proof.
  rewrite getTranscodeJob_table. split.
  - destruct (World.db_GetJob s jobID) as [job|e|why] eqn:Hjob;
      [|by destruct (err_is e db.ErrJobNotFound)|done].
    destruct (World.GetProviderFactory s (db.Job.ProviderName job)) as [factory|e|why]
      eqn:Hregistry;
      [|done..].
    destruct (factory (World.config s)) as [prov|e|why] eqn:Hfactory; [|done..].
    destruct (TranscodingProvider.JobStatus prov (db.Job.ProviderJobID job))
      as [found|e|why] eqn:Hstatus; [done| |done].
    cbv zeta. destruct (err_is e db.ErrJobNotFound); [done|].
    destruct e; simpl; try done. intros [= <-]. by eexists _, _, _, _.
  - intros (job & factory & prov & id & -> & -> & -> & -> & ->). done.
Qed.

(** X16: the answer is the 404 exactly when the store reports
    [ErrJobNotFound], or when the status query of the provider returns
    that very error of the store. *)
Theorem getTranscodeJob_not_found (s : World.t) (jobID : string) (err : error) :
  getTranscodeJob s jobID = Val (newJobNotFoundResponse err)
  <-> err = db.ErrJobNotFound
      /\ (World.db_GetJob s jobID = Err db.ErrJobNotFound
          \/ exists job factory providerObj,
               World.db_GetJob s jobID = Ok job
               /\ World.GetProviderFactory s (db.Job.ProviderName job) = Ok factory
               /\ factory (World.config s) = Ok providerObj
               /\ TranscodingProvider.JobStatus providerObj (db.Job.ProviderJobID job)
                  = Err db.ErrJobNotFound).
Proof.
  assert (Hsentinel : forall e, err_is e db.ErrJobNotFound = true -> e = db.ErrJobNotFound).
  { intros [var| | | |]; try discriminate. unfold err_is, db.ErrJobNotFound.
    intros H. apply String.eqb_eq in H. by subst. }
  rewrite getTranscodeJob_table. split.
  - destruct (World.db_GetJob s jobID) as [job|e|why] eqn:Hjob; [| |done].
    + destruct (World.GetProviderFactory s (db.Job.ProviderName job)) as [factory|e|why]
      eqn:Hregistry;
        [|done..].
      destruct (factory (World.config s)) as [prov|e|why] eqn:Hfactory; [|done..].
      destruct (TranscodingProvider.JobStatus prov (db.Job.ProviderJobID job))
        as [found|e|why] eqn:Hstatus; [done| |done].
      cbv zeta. destruct (err_is e db.ErrJobNotFound) eqn:E;
        [|by destruct (provider.is_JobNotFoundError e)].
      apply Hsentinel in E. subst e. intros [= <-]. split; [done|]. right. by eexists _, _, _.
    + destruct (err_is e db.ErrJobNotFound) eqn:E; [|done].
      apply Hsentinel in E. subst e. intros [= <-]. split; [done|]. by left.
  - intros [-> [-> | (job & factory & prov & -> & -> & -> & ->)]]; done.
Qed.

(** X17: the answer is the status of the job exactly when the job record
    is found, its provider is registered and constructed, and the
    provider returns a status; the answer is that status under the
    provider name of the job record. *)
Theorem getTranscodeJob_status (s : World.t) (jobID : string)
    (jobStatus : option provider.JobStatus.t) :
  getTranscodeJob s jobID = Val (newJobStatusResponse jobStatus)
  <-> exists job factory providerObj found,
        World.db_GetJob s jobID = Ok job
        /\ World.GetProviderFactory s (db.Job.ProviderName job) = Ok factory
        /\ factory (World.config s) = Ok providerObj
        /\ TranscodingProvider.JobStatus providerObj (db.Job.ProviderJobID job) = Ok found
        /\ jobStatus
           = Some (provider.JobStatus.set_ProviderName (db.Job.ProviderName job) found).
Proof.
  rewrite getTranscodeJob_table. split.
  - destruct (World.db_GetJob s jobID) as [job|e|why] eqn:Hjob;
      [|by destruct (err_is e db.ErrJobNotFound)|done].
    destruct (World.GetProviderFactory s (db.Job.ProviderName job)) as [factory|e|why]
      eqn:Hregistry;
      [|done..].
    destruct (factory (World.config s)) as [prov|e|why] eqn:Hfactory; [|done..].
    destruct (TranscodingProvider.JobStatus prov (db.Job.ProviderJobID job))
      as [found|e|why] eqn:Hstatus; [| |done].
    + intros [= <-]. by eexists _, _, _, _.
    + cbv zeta. destruct (err_is e db.ErrJobNotFound); [done|].
      by destruct (provider.is_JobNotFoundError e).
  - intros (job & factory & prov & found & -> & -> & -> & -> & ->). done.
Qed.

(** ** The submission workflow *)

(** The four ways [newTranscodeJob] ends: a panic, the 400, the 500, or
    the 200 with one job stored. *)
Lemma newTranscodeJob_cases (s : World.t) (now : Z) (body : string) :
  (exists why, newTranscodeJob s now body = Submission.crash why)
  \/ (exists e, newTranscodeJob s now body = Submission.answer (newInvalidJobResponse e))
  \/ (exists e, newTranscodeJob s now body = Submission.answer (newErrorResponse e))
  \/ (exists job,
        newTranscodeJob s now body
        = {| Submission.response := Val (newJobResponse (db.Job.ID job));
             Submission.persisted := [job];
             Submission.spawned :=
               if (negb (String.eqb (db.Job.StatusCallbackURL job) "")
                   || negb (String.eqb (db.Job.CompletionCallbackURL job) ""))%bool
               then Some (Context.WithTimeout now maxJobTimeout, job)
               else None |}).
Proof.
  unfold newTranscodeJob.
  destruct (World.ProviderFactory s body) as [[payload factory]|e|why]; [|eauto 6..].
  destruct (factory (World.config s)) as [prov|e|why];
    [| destruct (provider.is_InvalidConfigError e); eauto 6 | eauto 6].
  destruct (getPresets s (Payload.Presets payload)) as [presets|e|why];
    [| destruct (err_is e db.ErrPresetNotFound); eauto 6 | eauto 6].
  destruct (TranscodingProvider.Transcode prov _) as [jobStatus|e|why];
    [| destruct (err_is e provider.ErrPresetNotFound); eauto 6 | eauto 6].
  destruct (World.db_CreateJob s _) as [job|e|why]; [|eauto 6..].
  right; right; right. by exists job.
Qed.

(** X18: what [newTranscodeJob] keeps, whatever its collaborators answer.
    It stores one job or none; its response is the 200 with the id of
    the stored job exactly when it has stored one; it starts a callback
    loop only for the job it has stored, exactly when that job names a
    callback URL, under a deadline [maxJobTimeout] after now. *)
Theorem newTranscodeJob_outcome (s : World.t) (now : Z) (body : string) :
  let r := newTranscodeJob s now body in
  (Submission.persisted r = []
   \/ exists job, Submission.persisted r = [job]
                  /\ Submission.response r = Val (newJobResponse (db.Job.ID job)))
  /\ (forall jobID, Submission.response r = Val (newJobResponse jobID) ->
        exists job, Submission.persisted r = [job] /\ db.Job.ID job = jobID)
  /\ (forall ctx job, Submission.spawned r = Some (ctx, job) ->
        Submission.persisted r = [job]
        /\ Context.Deadline ctx = Some (now + maxJobTimeout)
        /\ (db.Job.StatusCallbackURL job <> "" \/ db.Job.CompletionCallbackURL job <> ""))
  /\ (forall job, Submission.persisted r = [job] ->
        db.Job.StatusCallbackURL job <> "" \/ db.Job.CompletionCallbackURL job <> "" ->
        Submission.spawned r = Some (Context.WithTimeout now maxJobTimeout, job)).
Proof.
  cbv zeta.
  destruct (newTranscodeJob_cases s now body) as [[why ->]|[[e ->]|[[e ->]|[job ->]]]];
    [unfold Submission.answer, Submission.crash; simpl; naive_solver..|].
  cbn [Submission.persisted Submission.response Submission.spawned].
  destruct (String.eqb_spec (db.Job.StatusCallbackURL job) "") as [Hstatus|Hstatus];
    destruct (String.eqb_spec (db.Job.CompletionCallbackURL job) "") as [Hdone|Hdone];
    cbn [negb orb]; split; try (right; by eexists); (split; [intros ? [= <-]; by eexists|]);
    split; try (intros ? ? [= <- <-]; cbn; by auto); try done;
    intros ? [= <-] Hurl; try done; by destruct Hurl.
Qed.

(** The presets are resolved in order, up to the first one the store
    does not return. *)
Lemma getPresets_first_error (s : World.t) (before : list string) (presetID : string)
    (after : list string) (e : error) :
  Forall (fun id => exists preset, World.db_GetPreset s id = Ok preset) before ->
  World.db_GetPreset s presetID = Err e ->
  getPresets s (before ++ presetID :: after) = Err e.
Proof.
  intros Hbefore Herr. induction Hbefore as [|id before [preset Hid] _ IH]; simpl.
  - by rewrite Herr.
  - by rewrite Hid, IH.
Qed.

(** X19: a submission that names a preset the store does not know is
    answered with the 400 and stores nothing; it is answered with the
    500 when the store fails in another way. The provider has no say
    in it. *)
Theorem newTranscodeJob_unknown_preset (s : World.t) (now : Z) (body : string)
    (payload : Payload.t) (factory : Factory) (providerObj : TranscodingProvider.t)
    (before : list string) (presetID : string) (after : list string) (e : error) :
  World.ProviderFactory s body = Ok (payload, factory) ->
  factory (World.config s) = Ok providerObj ->
  Payload.Presets payload = before ++ presetID :: after ->
  Forall (fun id => exists preset, World.db_GetPreset s id = Ok preset) before ->
  World.db_GetPreset s presetID = Err e ->
  newTranscodeJob s now body
  = Submission.answer
      (if err_is e db.ErrPresetNotFound then newInvalidJobResponse e else newErrorResponse e).
Proof.
  intros Hinput Hfactory Hpresets Hbefore Herr. unfold newTranscodeJob.
  rewrite Hinput, Hfactory, Hpresets, (getPresets_first_error s before presetID after e)
    by assumption.
  by destruct (err_is e db.ErrPresetNotFound).
Qed.

(** A submission that names the preset "P1", which the store holds, and
    then "P2", which it does not. *)
Lemma newTranscodeJob_unknown_preset_witness :
  newTranscodeJob
    (example.world (example.cfg "AKIA")
       (fun _ => Ok (example.answering (Ok (example.status provider.StatusQueued))
                                       (Ok (example.status provider.StatusQueued))))
       (example.job "" "" 1)
       {| Payload.Provider := Name; Payload.Source := "s3://bucket/file.mp4";
          Payload.Presets := ["P1"; "P2"]; Payload.StreamingParams := example.streaming;
          Payload.StatusCallbackURL := ""; Payload.StatusCallbackInterval := 1;
          Payload.CompletionCallbackURL := "" |} 0)
    0 "{}"
  = Submission.answer (newInvalidJobResponse db.ErrPresetNotFound).
Proof.
  apply (newTranscodeJob_unknown_preset
           (example.world (example.cfg "AKIA")
              (fun _ => Ok (example.answering (Ok (example.status provider.StatusQueued))
                                              (Ok (example.status provider.StatusQueued))))
              (example.job "" "" 1)
              {| Payload.Provider := Name; Payload.Source := "s3://bucket/file.mp4";
                 Payload.Presets := ["P1"; "P2"]; Payload.StreamingParams := example.streaming;
                 Payload.StatusCallbackURL := ""; Payload.StatusCallbackInterval := 1;
                 Payload.CompletionCallbackURL := "" |} 0)
           0 "{}"
           {| Payload.Provider := Name; Payload.Source := "s3://bucket/file.mp4";
              Payload.Presets := ["P1"; "P2"]; Payload.StreamingParams := example.streaming;
              Payload.StatusCallbackURL := ""; Payload.StatusCallbackInterval := 1;
              Payload.CompletionCallbackURL := "" |}
           (fun _ => Ok (example.answering (Ok (example.status provider.StatusQueued))
                                           (Ok (example.status provider.StatusQueued))))
           (example.answering (Ok (example.status provider.StatusQueued))
                              (Ok (example.status provider.StatusQueued)))
           ["P1"] "P2" [] db.ErrPresetNotFound); try reflexivity.
  repeat constructor. by eexists.
Defined.

(** ** The callback loop *)

(** What one iteration does: it begins with the status query for the job
    the loop was started for; each post goes to a URL of the job record
    the store has returned in this iteration, carries what
    [getTranscodeJob] answers, and the completion callback is posted
    only a status that is final; a sleep lasts the interval of that
    record and ends the iteration. *)
Lemma iteration_events (s : World.t) (job : db.Job.t) (now : Z) :
  exists rest : list event,
    fst (iteration s job now) = Queried now (db.Job.ID job) :: rest
    /\ Forall (fun e =>
         match e with
         | Queried _ _ => False
         | Posted at_site url payload result =>
             url <> ""
             /\ getTranscodeJob s (db.Job.ID job) = Val payload
             /\ result = postStatusToCallback s payload url
             /\ (exists stored, World.db_GetJob s (db.Job.ID job) = Ok stored
                   /\ url = match at_site with
                            | StatusCallback => db.Job.StatusCallbackURL stored
                            | CompletionCallback => db.Job.CompletionCallbackURL stored
                            end)
             /\ (at_site = CompletionCallback ->
                 exists jobStatus, payload = newJobStatusResponse (Some jobStatus)
                   /\ terminal (provider.JobStatus.Status jobStatus) = true)
         | Slept d =>
             exists stored, World.db_GetJob s (db.Job.ID job) = Ok stored
               /\ d = interval stored
         end) rest.
Proof.
  unfold iteration.
  destruct (getTranscodeJobByID s (db.Job.ID job))
    as [[[[stored jobStatus] providerObj] err]|why] eqn:E; [|by eexists].
  destruct (getJobStatusResponse_of_lookup _ _ _ _ _ _ E) as [response Hresponse].
  assert (Hget : getTranscodeJob s (db.Job.ID job) = Val response)
    by (unfold getTranscodeJob; by rewrite E).
  rewrite Hresponse.
  destruct (getTranscodeJobByID_cases _ _ _ _ _ _ E)
    as [(e & e' & _ & -> & -> & -> & ->)
       |[(st & e & Hstore & -> & -> & ->)
        |(st & found & prov & Hstore & -> & -> & -> & -> & _)]].
  - by eexists.
  - destruct (String.eqb_spec (db.Job.StatusCallbackURL st) "") as [Hurl|Hurl]; cbn [negb].
    + by eexists.
    + destruct (postStatusToCallback s response (db.Job.StatusCallbackURL st)) eqn:Hpost;
        cbn; eexists; (split; [reflexivity|]); repeat constructor; try done; by eexists.
  - injection Hresponse as <-. unfold afterStatusPost.
    destruct (String.eqb_spec (db.Job.StatusCallbackURL st) "") as [Hurl|Hurl]; cbn [negb].
    + destruct (terminal (provider.JobStatus.Status found)) eqn:Hterminal.
      * destruct (String.eqb_spec (db.Job.CompletionCallbackURL st) "") as [Hdone|Hdone];
          cbn [negb]; [by eexists|].
        eexists; split; [reflexivity|]. repeat constructor; try done; by eexists.
      * eexists; split; [reflexivity|]. repeat constructor. by eexists.
    + destruct (postStatusToCallback s _ (db.Job.StatusCallbackURL st)) eqn:Hpost;
        [|cbn; eexists; (split; [reflexivity|]); repeat constructor; try done; by eexists..].
      destruct (terminal (provider.JobStatus.Status found)) eqn:Hterminal.
      * destruct (String.eqb_spec (db.Job.CompletionCallbackURL st) "") as [Hdone|Hdone];
          cbn [negb]; eexists; (split; [reflexivity|]); repeat constructor; try done;
          by eexists.
      * eexists; split; [reflexivity|]. repeat constructor; try done; by eexists.
Qed.

(** The same of a run of the loop: every status query is made before the
    deadline, for the job the loop was started for; every post and
    every sleep is that of one of its iterations. *)
Lemma loop_events (world : nat -> World.t) (deadline : Z) (job : db.Job.t) :
  forall (fuel k : nat) (now : Z),
    Forall (fun e =>
      match e with
      | Queried t jobID => now <= t < deadline /\ jobID = db.Job.ID job
      | Posted at_site url payload result =>
          exists (i : nat) (stored : db.Job.t),
            (k <= i < k + fuel)%nat
            /\ World.db_GetJob (world i) (db.Job.ID job) = Ok stored
            /\ url = match at_site with
                     | StatusCallback => db.Job.StatusCallbackURL stored
                     | CompletionCallback => db.Job.CompletionCallbackURL stored
                     end
            /\ url <> ""
            /\ getTranscodeJob (world i) (db.Job.ID job) = Val payload
            /\ result = postStatusToCallback (world i) payload url
            /\ (at_site = CompletionCallback ->
                exists jobStatus, payload = newJobStatusResponse (Some jobStatus)
                  /\ terminal (provider.JobStatus.Status jobStatus) = true)
      | Slept d =>
          exists (i : nat) (stored : db.Job.t),
            (k <= i < k + fuel)%nat
            /\ World.db_GetJob (world i) (db.Job.ID job) = Ok stored
            /\ d = interval stored
      end) (Run.events (loop world deadline job fuel k now)).
Proof.
  induction fuel as [|fuel IH]; intros k now; cbn [loop]; [constructor|].
  destruct (Z.ltb_spec now deadline) as [Hlt|Hge]; [|constructor].
  destruct (iteration_events (world k) job now) as (rest & Hevents & Hrest).
  assert (Hhere : Forall (fun e =>
      match e with
      | Queried t jobID => now <= t < deadline /\ jobID = db.Job.ID job
      | Posted at_site url payload result =>
          exists (i : nat) (stored : db.Job.t),
            (k <= i < k + S fuel)%nat
            /\ World.db_GetJob (world i) (db.Job.ID job) = Ok stored
            /\ url = match at_site with
                     | StatusCallback => db.Job.StatusCallbackURL stored
                     | CompletionCallback => db.Job.CompletionCallbackURL stored
                     end
            /\ url <> ""
            /\ getTranscodeJob (world i) (db.Job.ID job) = Val payload
            /\ result = postStatusToCallback (world i) payload url
            /\ (at_site = CompletionCallback ->
                exists jobStatus, payload = newJobStatusResponse (Some jobStatus)
                  /\ terminal (provider.JobStatus.Status jobStatus) = true)
      | Slept d =>
          exists (i : nat) (stored : db.Job.t),
            (k <= i < k + S fuel)%nat
            /\ World.db_GetJob (world i) (db.Job.ID job) = Ok stored
            /\ d = interval stored
      end) (fst (iteration (world k) job now))).
  { rewrite Hevents. constructor; [split; [lia | done]|].
    eapply Forall_impl; [exact Hrest|]. intros [t id|at_site url payload result|d]; [done| |].
    - intros (Hurl & Hget & Hresult & (stored & Hstore & Hsite) & Hfinal).
      exists k, stored. repeat split; try done; lia.
    - intros (stored & Hstore & Hd). exists k, stored. repeat split; try done; lia. }
  destruct (iteration (world k) job now) as [events st]. cbn [fst] in Hhere.
  destruct st as [d| |why]; cbn [Run.events Run.and_then]; [|exact Hhere..].
  apply Forall_app. split; [exact Hhere|].
  eapply Forall_impl; [apply (IH (S k))|].
  assert (0 <= slept d) by (unfold slept; lia).
  intros [t id|at_site url payload result|d']; cbv beta iota.
  - intros [Ht ->]. split; [lia | done].
  - intros (i & stored & Hi & Hrest'). exists i, stored. split; [lia | exact Hrest'].
  - intros (i & stored & Hi & Hrest'). exists i, stored. split; [lia | exact Hrest'].
Qed.

(** X20: what the loop posts. A post is made in one of the iterations,
    to the URL that the job record read from the store in that
    iteration names for the callback, never to an empty one; it
    carries what [getTranscodeJob] answers for the job at that moment;
    and the completion callback is posted only a status that is
    final. *)
Theorem statusCallback_posts (world : nat -> World.t) (ctx : Context.t) (job : db.Job.t)
    (fuel : nat) (start : Z) (at_site : site) (url : string) (payload : gizmoResponse)
    (result : outcome unit) :
  In (Posted at_site url payload result)
     (Run.events (statusCallback world ctx job fuel start)) ->
  exists (i : nat) (stored : db.Job.t),
    (i < fuel)%nat
    /\ World.db_GetJob (world i) (db.Job.ID job) = Ok stored
    /\ url = match at_site with
             | StatusCallback => db.Job.StatusCallbackURL stored
             | CompletionCallback => db.Job.CompletionCallbackURL stored
             end
    /\ url <> ""
    /\ getTranscodeJob (world i) (db.Job.ID job) = Val payload
    /\ result = postStatusToCallback (world i) payload url
    /\ (at_site = CompletionCallback ->
        exists jobStatus, payload = newJobStatusResponse (Some jobStatus)
          /\ terminal (provider.JobStatus.Status jobStatus) = true).
Proof.
  unfold statusCallback. destruct (Context.Deadline ctx) as [deadline|]; [|done].
  intros Hin. pose proof (loop_events world deadline job fuel 0 start) as Hall.
  rewrite Forall_forall in Hall. apply list_elem_of_In in Hin.
  destruct (Hall _ Hin) as (i & stored & Hi & Hrest).
  exists i, stored. split; [lia | exact Hrest].
Qed.

(** The completion post of the job that is Queued, Started and then
    Finished. *)
Lemma statusCallback_posts_witness :
  exists i : nat,
    getTranscodeJob
      (example.transitions (example.job "http://callback/status" "http://callback/done" 1) i)
      "job-123"
    = Val (newJobStatusResponse (Some (example.found provider.StatusFinished))).
Proof.
  destruct (statusCallback_posts
              (example.transitions (example.job "http://callback/status" "http://callback/done" 1))
              (Context.WithTimeout 0 maxJobTimeout)
              (example.job "http://callback/status" "http://callback/done" 1) 10 0
              CompletionCallback "http://callback/done"
              (newJobStatusResponse (Some (example.found provider.StatusFinished))) (Ok tt))
    as (i & stored & _ & _ & _ & _ & Hget & _).
  - vm_compute. do 8 right. left. reflexivity.
  - by exists i.
Defined.

(** An accepted post to the completion callback is the last thing an
    iteration does, and the iteration then leaves the loop. *)
Lemma iteration_completed (s : World.t) (job : db.Job.t) (now : Z) (i : nat)
    (url : string) (payload : gizmoResponse) :
  fst (iteration s job now) !! i = Some (Posted CompletionCallback url payload (Ok tt)) ->
  S i = length (fst (iteration s job now)) /\ snd (iteration s job now) = Break.
Proof.
  unfold iteration, afterStatusPost.
  destruct (getTranscodeJobByID s (db.Job.ID job))
    as [[[[stored jobStatus] providerObj] err]|why]; [|by destruct i as [|[|i]]].
  destruct (getJobStatusResponse stored jobStatus providerObj err) as [response|why];
    [|by destruct i as [|[|i]]].
  destruct stored as [stored|]; [|by destruct i as [|[|i]]].
  destruct (negb (String.eqb (db.Job.StatusCallbackURL stored) ""));
    [destruct (postStatusToCallback s response (db.Job.StatusCallbackURL stored))
       as [[]|e|why]; [|by destruct i as [|[|[|i]]]..]|];
    (destruct jobStatus as [jobStatus|]; [|by destruct i as [|[|[|i]]]]);
    (destruct (terminal (provider.JobStatus.Status jobStatus)); [|by destruct i as [|[|[|i]]]]);
    (destruct (negb (String.eqb (db.Job.CompletionCallbackURL stored) ""));
       [|by destruct i as [|[|[|i]]]]);
    destruct (postStatusToCallback s response (db.Job.CompletionCallbackURL stored))
      as [[]|e|why]; by destruct i as [|[|[|i]]].
Qed.

(** X21: a post that the completion callback accepts is the last thing
    the loop does: the loop returns after it, and posts and queries
    nothing more. *)
Theorem statusCallback_completion_is_last (world : nat -> World.t) (ctx : Context.t)
    (job : db.Job.t) (fuel : nat) (start : Z) (i : nat) (url : string)
    (payload : gizmoResponse) :
  Run.events (statusCallback world ctx job fuel start) !! i
  = Some (Posted CompletionCallback url payload (Ok tt)) ->
  S i = length (Run.events (statusCallback world ctx job fuel start))
  /\ Run.ending (statusCallback world ctx job fuel start) = Returned.
Proof.
  unfold statusCallback. destruct (Context.Deadline ctx) as [deadline|]; [|done].
  generalize 0%nat as k. revert start i.
  induction fuel as [|fuel IH]; intros now i k; cbn [loop]; [done|].
  destruct (now <? deadline); [|done].
  pose proof (iteration_completed (world k) job now) as Hhere.
  destruct (iteration (world k) job now) as [events st]. cbn [fst snd] in Hhere.
  destruct st as [d| |why]; cbn [Run.events Run.ending Run.and_then].
  - intros Hi. apply lookup_app_Some in Hi as [Hi|[Hlen Hi]].
    + by destruct (Hhere i url payload Hi).
    + destruct (IH _ _ _ Hi) as [Hlast Hend]. rewrite length_app. split; [lia | exact Hend].
  - intros Hi. by destruct (Hhere i url payload Hi).
  - intros Hi. by destruct (Hhere i url payload Hi).
Qed.

(** The completion post of the job that is Queued, Started and then
    Finished is the ninth and last event. *)
Lemma statusCallback_completion_is_last_witness :
  length (Run.events
            (statusCallback
               (example.transitions (example.job "http://callback/status" "http://callback/done" 1))
               (Context.WithTimeout 0 maxJobTimeout)
               (example.job "http://callback/status" "http://callback/done" 1) 10 0))
  = 9%nat.
Proof.
  symmetry.
  apply (statusCallback_completion_is_last
           (example.transitions (example.job "http://callback/status" "http://callback/done" 1))
           (Context.WithTimeout 0 maxJobTimeout)
           (example.job "http://callback/status" "http://callback/done" 1) 10 0 8
           "http://callback/done"
           (newJobStatusResponse (Some (example.found provider.StatusFinished)))).
  reflexivity.
Defined.

(** More iterations looked at do not change a run that has ended. *)
Lemma loop_fuel (world : nat -> World.t) (deadline : Z) (job : db.Job.t) :
  forall (fuel k : nat) (now : Z) (more : nat),
    Run.ending (loop world deadline job fuel k now) <> Running ->
    loop world deadline job (fuel + more) k now = loop world deadline job fuel k now.
Proof.
  induction fuel as [|fuel IH]; intros k now more; cbn [loop Nat.add]; [done|].
  destruct (now <? deadline); [|done].
  destruct (iteration (world k) job now) as [events st].
  destruct st as [d| |why]; [|done..].
  cbn [Run.ending Run.and_then]. intros Hend. by rewrite IH.
Qed.

(** When every iteration takes at least [delta], the loop ends within
    as many iterations as there are [delta]s before the deadline. *)
Lemma loop_ends (world : nat -> World.t) (deadline : Z) (job : db.Job.t) (delta : Z) :
  0 < delta ->
  (forall k, delta <= Z.of_N (World.busy (world k))) ->
  forall (fuel k : nat) (now : Z),
    deadline - now <= Z.of_nat fuel * delta ->
    Run.ending (loop world deadline job (S fuel) k now) <> Running
    /\ (length (queries (Run.events (loop world deadline job (S fuel) k now))) <= fuel)%nat.
Proof.
  intros Hdelta Hbusy. induction fuel as [|fuel IH]; intros k now Hleft.
  - cbn [loop]. destruct (Z.ltb_spec now deadline); [lia|]. by split.
  - remember (S fuel) as n eqn:Hn. cbn [loop]. subst n.
    destruct (Z.ltb_spec now deadline) as [Hlt|Hge]; [|split; [done | simpl; lia]].
    pose proof (iteration_queries (world k) job now) as Hq.
    destruct (iteration (world k) job now) as [events st]. cbn [fst] in Hq.
    destruct st as [d| |why]; cbn [Run.ending Run.events Run.and_then];
      [|rewrite Hq; split; [done | simpl; lia]..].
    destruct (IH (S k) (now + Z.of_N (World.busy (world k)) + slept d)) as [Hend Hcount].
    { specialize (Hbusy k). unfold slept. lia. }
    split; [exact Hend|]. rewrite queries_app, length_app, Hq. cbn [length Nat.add]. lia.
Qed.

(** X22: the loop ends. When every iteration takes at least [delta] of
    time, the loop returns or panics within as many iterations as
    there are [delta]s between its start and the deadline, and makes
    at most that many status queries; looking at more iterations
    finds nothing further. *)
Theorem statusCallback_ends (world : nat -> World.t) (ctx : Context.t) (job : db.Job.t)
    (delta : Z) (fuel : nat) (start : Z) :
  0 < delta ->
  (forall k, delta <= Z.of_N (World.busy (world k))) ->
  (forall deadline, Context.Deadline ctx = Some deadline ->
                    deadline - start <= Z.of_nat fuel * delta) ->
  let r := statusCallback world ctx job (S fuel) start in
  Run.ending r <> Running
  /\ (length (queries (Run.events r)) <= fuel)%nat
  /\ forall more, statusCallback world ctx job (S fuel + more) start = r.
Proof.
  intros Hdelta Hbusy Hleft. cbv zeta. unfold statusCallback.
  destruct (Context.Deadline ctx) as [deadline|]; [|by repeat split; simpl; try lia].
  destruct (loop_ends world deadline job delta Hdelta Hbusy fuel 0 start (Hleft _ eq_refl))
    as [Hend Hcount].
  repeat split; [exact Hend | exact Hcount|].
  intros more. by apply loop_fuel.
Qed.

(** A job that stays Queued and is polled without a pause, each
    iteration taking a millisecond: three milliseconds before the
    deadline hold at most three iterations. *)
Lemma statusCallback_ends_witness :
  Run.ending
    (statusCallback
       (fun _ => example.polled (example.job "http://callback/status" "" 0)
                                (Ok (example.status provider.StatusQueued)))
       (Context.WithTimeout 0 3000000)
       (example.job "http://callback/status" "" 0) 4 0)
  <> Running.
Proof.
  apply (statusCallback_ends
           (fun _ => example.polled (example.job "http://callback/status" "" 0)
                                    (Ok (example.status provider.StatusQueued)))
           (Context.WithTimeout 0 3000000)
           (example.job "http://callback/status" "" 0) 1000000 3 0).
  - reflexivity.
  - intros _. vm_compute. discriminate.
  - intros deadline [= <-]. vm_compute. discriminate.
Defined.

(** An iteration whose post to the status callback fails ends there,
    without a sleep. *)
Lemma iteration_status_post_failed (s : World.t) (job stored : db.Job.t) (now : Z)
    (jobStatus : option provider.JobStatus.t) (providerObj : option TranscodingProvider.t)
    (err : option error) :
  getTranscodeJobByID s (db.Job.ID job) = Val (Some stored, jobStatus, providerObj, err) ->
  db.Job.StatusCallbackURL stored <> "" ->
  (forall payload, exists e,
      postStatusToCallback s payload (db.Job.StatusCallbackURL stored) = Err e) ->
  exists payload e,
    iteration s job now
    = ([Queried now (db.Job.ID job);
        Posted StatusCallback (db.Job.StatusCallbackURL stored) payload (Err e)],
       Continue 0).
Proof.
  intros E Hurl Hpost. unfold iteration. rewrite E.
  destruct (getJobStatusResponse_of_lookup _ _ _ _ _ _ E) as [response ->].
  destruct (String.eqb_spec (db.Job.StatusCallbackURL stored) "") as [|_]; [done|].
  cbn [negb]. destruct (Hpost response) as [e ->]. by exists response, e.
Qed.

(** X23: while the status callback of the job refuses the posts, the
    loop queries and posts again at once: it never sleeps, it never
    posts to the completion callback, whatever the status of the job,
    and it does not panic; its time is that of its iterations. *)
Theorem statusCallback_status_post_fails (world : nat -> World.t) (ctx : Context.t)
    (job : db.Job.t) (fuel : nat) (start : Z) :
  (forall k, exists stored jobStatus providerObj err,
      getTranscodeJobByID (world k) (db.Job.ID job)
      = Val (Some stored, jobStatus, providerObj, err)
      /\ db.Job.StatusCallbackURL stored <> ""
      /\ forall payload, exists e,
           postStatusToCallback (world k) payload (db.Job.StatusCallbackURL stored) = Err e) ->
  let r := statusCallback world ctx job fuel start in
  Forall (fun e => match e with
                   | Queried _ _ | Posted StatusCallback _ _ (Err _) => True
                   | _ => False
                   end) (Run.events r)
  /\ posts CompletionCallback (Run.events r) = []
  /\ length (posts StatusCallback (Run.events r)) = length (queries (Run.events r))
  /\ (Run.ending r = Returned \/ Run.ending r = Running)
  /\ Run.finish r = start + elapsed world 0 0 (length (queries (Run.events r))).
Proof.
  intros Hworld. cbv zeta. unfold statusCallback.
  destruct (Context.Deadline ctx) as [deadline|];
    [|cbn; repeat split; [constructor | by left | lia]].
  generalize 0%nat as k. revert start.
  induction fuel as [|fuel IH]; intros now k; cbn [loop];
    [cbn; repeat split; [constructor | by right | lia]|].
  destruct (now <? deadline); [|cbn; repeat split; [constructor | by left | lia]].
  destruct (Hworld k) as (stored & jobStatus & providerObj & err & E & Hurl & Hpost).
  destruct (iteration_status_post_failed (world k) job stored now _ _ _ E Hurl Hpost)
    as (payload & e & ->).
  destruct (IH (now + Z.of_N (World.busy (world k)) + slept 0) (S k))
    as (Hall & Hdone & Hcount & Hend & Hfinish).
  cbn [Run.events Run.ending Run.finish Run.and_then].
  rewrite !posts_app, queries_app, !length_app, Hdone, Hcount, Hfinish.
  repeat split; [by repeat constructor | exact Hend|].
  cbn [queries flat_map length app Nat.add elapsed]. lia.
Qed.

(** An endpoint that answers every post with an error. *)
Lemma statusCallback_status_post_fails_witness :
  posts CompletionCallback
    (Run.events
       (statusCallback
          (fun _ =>
             {| World.config := example.cfg "AKIA";
                World.db_GetPreset := fun _ => Err db.ErrPresetNotFound;
                World.db_CreateJob := fun created => Ok created;
                World.db_GetJob := fun _ => Ok (example.job "http://callback/status" "http://callback/done" 1);
                World.GetProviderFactory := fun _ =>
                  Ok (fun _ => Ok (example.answering
                                     (Ok (example.status provider.StatusQueued))
                                     (Ok (example.status provider.StatusFinished))));
                World.ProviderFactory := fun _ => Err (errorString "unexpected end of JSON input");
                World.json_Marshal := fun _ => None;
                World.http_NewRequest := fun _ => None;
                World.client_Do := fun _ _ => Some (errorString "connection refused");
                World.busy := 1000000 |})
          (Context.WithTimeout 0 3000000)
          (example.job "http://callback/status" "http://callback/done" 1) 4 0))
  = [].
Proof.
  apply (statusCallback_status_post_fails
          (fun _ =>
             {| World.config := example.cfg "AKIA";
                World.db_GetPreset := fun _ => Err db.ErrPresetNotFound;
                World.db_CreateJob := fun created => Ok created;
                World.db_GetJob := fun _ => Ok (example.job "http://callback/status" "http://callback/done" 1);
                World.GetProviderFactory := fun _ =>
                  Ok (fun _ => Ok (example.answering
                                     (Ok (example.status provider.StatusQueued))
                                     (Ok (example.status provider.StatusFinished))));
                World.ProviderFactory := fun _ => Err (errorString "unexpected end of JSON input");
                World.json_Marshal := fun _ => None;
                World.http_NewRequest := fun _ => None;
                World.client_Do := fun _ _ => Some (errorString "connection refused");
                World.busy := 1000000 |})
          (Context.WithTimeout 0 3000000)
          (example.job "http://callback/status" "http://callback/done" 1) 4 0).
  intros _. do 4 eexists. split; [reflexivity|]. split; [done|].
  intros payload. eexists. reflexivity.
Defined.

(** X24: [postStatusToCallback] does not look at the error of
    [http.NewRequest]. When the status callback URL of the job is one
    that [http.NewRequest] refuses, the first iteration of the loop
    panics at the post, on the nil request. *)
Theorem statusCallback_refused_url (world : nat -> World.t) (ctx : Context.t) (deadline : Z)
    (job stored : db.Job.t) (jobStatus : option provider.JobStatus.t)
    (providerObj : option TranscodingProvider.t) (err : option error) (refusal : error)
    (fuel : nat) (start : Z) :
  Context.Deadline ctx = Some deadline ->
  start < deadline ->
  getTranscodeJobByID (world 0%nat) (db.Job.ID job)
  = Val (Some stored, jobStatus, providerObj, err) ->
  db.Job.StatusCallbackURL stored <> "" ->
  (forall payload, World.json_Marshal (world 0%nat) payload = None) ->
  World.http_NewRequest (world 0%nat) (db.Job.StatusCallbackURL stored) = Some refusal ->
  exists payload,
    statusCallback world ctx job (S fuel) start
    = {| Run.ending := Panicked nil_dereference;
         Run.finish := start + Z.of_N (World.busy (world 0%nat));
         Run.events :=
           [Queried start (db.Job.ID job);
            Posted StatusCallback (db.Job.StatusCallbackURL stored) payload
                   (Panic nil_dereference)] |}.
Proof.
  intros Hctx Hstart E Hurl Hjson Hrequest. unfold statusCallback. rewrite Hctx. cbn [loop].
  destruct (Z.ltb_spec start deadline) as [_|]; [|lia].
  unfold iteration. rewrite E.
  destruct (getJobStatusResponse_of_lookup _ _ _ _ _ _ E) as [response ->].
  destruct (String.eqb_spec (db.Job.StatusCallbackURL stored) "") as [|_]; [done|].
  cbn [negb]. unfold postStatusToCallback. rewrite Hjson, Hrequest. by exists response.
Qed.

(** A job whose status callback URL has a control character in it. *)
Lemma statusCallback_refused_url_witness :
  Run.ending
    (statusCallback
       (fun _ =>
          {| World.config := example.cfg "AKIA";
             World.db_GetPreset := fun _ => Err db.ErrPresetNotFound;
             World.db_CreateJob := fun created => Ok created;
             World.db_GetJob := fun _ => Ok (example.job "http://call back/" "" 1);
             World.GetProviderFactory := fun _ =>
               Ok (fun _ => Ok (example.answering
                                  (Ok (example.status provider.StatusQueued))
                                  (Ok (example.status provider.StatusQueued))));
             World.ProviderFactory := fun _ => Err (errorString "unexpected end of JSON input");
             World.json_Marshal := fun _ => None;
             World.http_NewRequest := fun url =>
               if String.eqb url "http://call back/"
               then Some (errorString "invalid character in host name") else None;
             World.client_Do := fun _ _ => None;
             World.busy := 1000000 |})
       (Context.WithTimeout 0 maxJobTimeout) (example.job "http://call back/" "" 1) 1 0)
  = Panicked nil_dereference.
Proof.
  destruct (statusCallback_refused_url
       (fun _ =>
          {| World.config := example.cfg "AKIA";
             World.db_GetPreset := fun _ => Err db.ErrPresetNotFound;
             World.db_CreateJob := fun created => Ok created;
             World.db_GetJob := fun _ => Ok (example.job "http://call back/" "" 1);
             World.GetProviderFactory := fun _ =>
               Ok (fun _ => Ok (example.answering
                                  (Ok (example.status provider.StatusQueued))
                                  (Ok (example.status provider.StatusQueued))));
             World.ProviderFactory := fun _ => Err (errorString "unexpected end of JSON input");
             World.json_Marshal := fun _ => None;
             World.http_NewRequest := fun url =>
               if String.eqb url "http://call back/"
               then Some (errorString "invalid character in host name") else None;
             World.client_Do := fun _ _ => None;
             World.busy := 1000000 |})
       (Context.WithTimeout 0 maxJobTimeout) (0 + maxJobTimeout)
       (example.job "http://call back/" "" 1) (example.job "http://call back/" "" 1)
       (Some (example.found provider.StatusQueued))
       (Some (example.answering (Ok (example.status provider.StatusQueued))
                                (Ok (example.status provider.StatusQueued))))
       None (errorString "invalid character in host name") 0 0
       eq_refl eq_refl eq_refl) as [payload ->]; done.
Defined.

(** X25: the loop that [newTranscodeJob] starts runs for the job whose id
    the response carries, and makes its status queries, each for that
    id, in the eight hours after the submission. *)
Theorem newTranscodeJob_spawned_loop (s : World.t) (now : Z) (body : string)
    (ctx : Context.t) (job : db.Job.t) (world : nat -> World.t) (fuel : nat) (start : Z) :
  Submission.spawned (newTranscodeJob s now body) = Some (ctx, job) ->
  Submission.response (newTranscodeJob s now body) = Val (newJobResponse (db.Job.ID job))
  /\ Forall (fun e =>
       match e with
       | Queried t jobID => start <= t < now + maxJobTimeout /\ jobID = db.Job.ID job
       | _ => True
       end) (Run.events (statusCallback world ctx job fuel start)).
Proof.
  destruct (newTranscodeJob_cases s now body) as [[why ->]|[[e ->]|[[e ->]|[stored ->]]]];
    [done..|].
  cbn [Submission.spawned Submission.response].
  destruct (_ || _)%bool; [|done]. intros [= <- <-]. split; [done|].
  unfold statusCallback. cbn [Context.WithTimeout Context.Deadline].
  eapply Forall_impl; [apply loop_events|].
  by intros [t id|at_site url payload result|d].
Qed.

(** The submission of the example, with a completion callback. *)
Lemma newTranscodeJob_spawned_loop_witness :
  Submission.response
    (newTranscodeJob
       (example.world (example.cfg "AKIA")
          (fun _ => Ok (example.answering (Ok (example.status provider.StatusQueued))
                                          (Ok (example.status provider.StatusFinished))))
          (example.job "" "http://callback/done" 1)
          (example.payload "" "http://callback/done") 1000000)
       0 "{}")
  = Val (newJobResponse "job-123").
Proof.
  apply (newTranscodeJob_spawned_loop
           (example.world (example.cfg "AKIA")
              (fun _ => Ok (example.answering (Ok (example.status provider.StatusQueued))
                                              (Ok (example.status provider.StatusFinished))))
              (example.job "" "http://callback/done" 1)
              (example.payload "" "http://callback/done") 1000000)
           0 "{}" (Context.WithTimeout 0 maxJobTimeout)
           {| db.Job.ID := "job-123"; db.Job.ProviderName := Name;
              db.Job.ProviderJobID := "1453-aws"; db.Job.StatusCallbackURL := "";
              db.Job.StatusCallbackInterval := 1;
              db.Job.CompletionCallbackURL := "http://callback/done";
              db.Job.StreamingParams :=
                {| db.StreamingParams.SegmentDuration := 3;
                   db.StreamingParams.Protocol := "hls" |} |}
           (fun _ => example.polled (example.job "" "http://callback/done" 1)
                                    (Ok (example.status provider.StatusFinished)))
           3 0).
  reflexivity.
Defined.

(** X26: the callback interval, an unsigned number of seconds, is slept
    as that many seconds exactly up to 9223372036 of them; beyond, the
    product with [time.Second] leaves the range of [time.Duration]. *)
Theorem interval_seconds (job : db.Job.t) :
  0 <= db.Job.StatusCallbackInterval job < 2 ^ 64 ->
  slept (interval job) = db.Job.StatusCallbackInterval job * Second
  <-> db.Job.StatusCallbackInterval job <= 9223372036.
Proof.
  intros Hrange. unfold slept, interval, wrap64, Second.
  set (n := db.Job.StatusCallbackInterval job) in *.
  split.
  - intros Heq.
    pose proof (Z.mod_pos_bound
                  (((n + 2 ^ 63) mod 2 ^ 64 - 2 ^ 63) * 1000000000 + 2 ^ 63) (2 ^ 64)
                  ltac:(lia)) as Hbound.
    lia.
  - intros Hsmall.
    rewrite (Z.mod_small (n + 2 ^ 63)) by lia.
    replace (n + 2 ^ 63 - 2 ^ 63) with n by lia.
    rewrite Z.mod_small by lia. lia.
Qed.

Lemma interval_seconds_witness :
  slept (interval (example.job "http://callback/status" "" 30)) = 30 * Second.
Proof.
  apply (interval_seconds (example.job "http://callback/status" "" 30)); simpl; lia.
Defined.

(** ** The bit rates of a preset *)

(** [strconv.Atoi] reads back what [strconv.Itoa] has written. *)
Lemma digits_of_uint_acc (u : Decimal.uint) (acc : positive) :
  digits (NilEmpty.string_of_uint u) (Z.pos acc) = Some (Z.pos (Pos.of_uint_acc u acc)).
Proof.
  revert acc. induction u as [|u IH|u IH|u IH|u IH|u IH|u IH|u IH|u IH|u IH|u IH];
    intros acc; [done|..]; cbn [NilEmpty.string_of_uint digits Pos.of_uint_acc];
    rewrite <- IH;
    match goal with
    | |- context [digit ?c] => let d := eval vm_compute in (digit c) in change (digit c) with d
    end; cbv beta iota; f_equal; lia.
Qed.

Lemma digits_of_uint (u : Decimal.uint) :
  digits (NilEmpty.string_of_uint u) 0 = Some (Z.of_N (Pos.of_uint u)).
Proof.
  induction u as [|u IH|u IH|u IH|u IH|u IH|u IH|u IH|u IH|u IH|u IH]; [done|exact IH|..];
    cbn [NilEmpty.string_of_uint digits Pos.of_uint];
    match goal with
    | |- context [digit ?c] => let d := eval vm_compute in (digit c) in change (digit c) with d
    end; cbv beta iota; apply digits_of_uint_acc.
Qed.

Lemma strconv_Atoi_Itoa (n : Z) :
  minInt <= n <= maxInt -> strconv_Atoi (strconv_Itoa n) = (n, false).
Proof.
  intros Hrange. destruct n as [|p|p]; [done|..];
    unfold strconv_Itoa, Z.to_int, NilZero.string_of_int, NilZero.string_of_uint;
    pose proof (digits_of_uint (Pos.to_uint p)) as Hdigits;
    rewrite DecimalPos.Unsigned.of_to in Hdigits;
    (destruct (Pos.to_uint p) as [|u|u|u|u|u|u|u|u|u|u]; [done|..]);
    cbn [NilEmpty.string_of_uint] in *; unfold strconv_Atoi; cbv beta iota;
    rewrite Hdigits; cbv beta iota; unfold clamp;
    rewrite (Z.min_r maxInt), Z.max_r by lia; by rewrite Z.eqb_refl.
Qed.

(** X27: a bit rate given as the decimal numeral of a number of bits per
    second is sent to Elastic Transcoder as the numeral of that number
    of kilobits, cut to a whole number: for the video and for the
    audio of the preset [CreatePreset] sends. *)
Theorem CreatePreset_bitrates (p : awsProvider.t) (preset : provider.Preset.t)
    (video audio : Z) :
  minInt <= video <= maxInt ->
  minInt <= audio <= maxInt ->
  provider.VideoPreset.Bitrate (provider.Preset.Video preset) = strconv_Itoa video ->
  provider.AudioPreset.Bitrate (provider.Preset.Audio preset) = strconv_Itoa audio ->
  exists (presetInput : CreatePresetInput.t) (videoParams : VideoParameters.t)
         (audioParams : AudioParameters.t),
    fst (CreatePreset p preset) = [reqCreatePreset presetInput]
    /\ CreatePresetInput.Video presetInput = Some videoParams
    /\ CreatePresetInput.Audio presetInput = Some audioParams
    /\ VideoParameters.BitRate videoParams = Some (strconv_Itoa (Z.quot video 1000))
    /\ AudioParameters.BitRate audioParams = Some (strconv_Itoa (Z.quot audio 1000)).
Proof.
  intros Hvideo Haudio Hv Ha. unfold CreatePreset.
  match goal with
  | |- context [send (reqCreatePreset ?i) _] => exists i
  end.
  exists (createVideoPreset preset), (createAudioPreset preset).
  split; [|split; [done|split; [done|split]]].
  - unfold mbind, run_bind, send, deref, panic, mret, run_ret.
    destruct (API.CreatePreset _ _) as [[[created|]]|text]; simpl; [|done..].
    by destruct (Preset.Id created).
  - unfold createVideoPreset. cbn [VideoParameters.BitRate].
    by rewrite Hv, strconv_Atoi_Itoa.
  - unfold createAudioPreset. cbn [AudioParameters.BitRate].
    by rewrite Ha, strconv_Atoi_Itoa.
Qed.

(** The preset of 2500999 and 128000 bits per second. *)
Lemma CreatePreset_bitrates_witness :
  exists (presetInput : CreatePresetInput.t) (videoParams : VideoParameters.t)
         (audioParams : AudioParameters.t),
    fst (CreatePreset (example.p (example.awsJob "Submitted" [])) (example.preset "mp4"))
    = [reqCreatePreset presetInput]
    /\ CreatePresetInput.Video presetInput = Some videoParams
    /\ CreatePresetInput.Audio presetInput = Some audioParams
    /\ VideoParameters.BitRate videoParams = Some "2500"
    /\ AudioParameters.BitRate audioParams = Some "128".
Proof.
  apply (CreatePreset_bitrates (example.p (example.awsJob "Submitted" []))
           (example.preset "mp4") 2500999 128000);
    try reflexivity; unfold minInt, maxInt; lia.
Defined.

(** A numeral with a character that is no digit has no value. *)
Lemma digits_not_a_digit (s : string) (acc : Z) (c : ascii) :
  In c (list_ascii_of_string s) -> digit c = None -> digits s acc = None.
Proof.
  intros Hin Hc. revert acc. induction s as [|a s IH]; intros acc; [done|].
  cbn [digits]. destruct Hin as [->|Hin]; [by rewrite Hc|].
  destruct (digit a); [by apply IH | done].
Qed.

(** [strconv.Atoi] gives 0, and an error, for a string with a character
    that is neither a digit nor a sign. *)
Lemma strconv_Atoi_syntax (s : string) (c : ascii) :
  In c (list_ascii_of_string s) -> digit c = None -> c <> "-"%char -> c <> "+"%char ->
  strconv_Atoi s = (0, true).
Proof.
  intros Hin Hc Hminus Hplus. destruct s as [|a s]; [done|].
  assert (Hrest : a = "-"%char \/ a = "+"%char ->
                  match s with
                  | EmptyString => (0, true)
                  | _ => match digits s 0 with
                         | None => (0, true)
                         | Some n => (clamp (- n), negb (clamp (- n) =? - n))
                         end
                  end = (0, true)
                  /\ match s with
                     | EmptyString => (0, true)
                     | _ => match digits s 0 with
                            | None => (0, true)
                            | Some n => (clamp n, negb (clamp n =? n))
                            end
                     end = (0, true)).
  { intros Hsign. destruct Hin as [<-|Hin]; [by destruct Hsign|].
    rewrite (digits_not_a_digit s 0 c Hin Hc). by destruct s. }
  pose proof (digits_not_a_digit (String a s) 0 c Hin Hc) as Hall.
  unfold strconv_Atoi.
  destruct a as [[] [] [] [] [] [] [] []]; cbv beta iota;
    first [by rewrite Hall | by apply Hrest; auto].
Qed.

(** X28: the error of [strconv.Atoi] is dropped. A preset whose video
    bit rate has a character that is neither a digit nor a sign, like
    "2500k", is sent with the bit rate "0". *)
Theorem CreatePreset_bitrate_unparsed (p : awsProvider.t) (preset : provider.Preset.t)
    (c : ascii) :
  In c (list_ascii_of_string (provider.VideoPreset.Bitrate (provider.Preset.Video preset))) ->
  digit c = None ->
  c <> "-"%char ->
  c <> "+"%char ->
  exists (presetInput : CreatePresetInput.t) (videoParams : VideoParameters.t),
    fst (CreatePreset p preset) = [reqCreatePreset presetInput]
    /\ CreatePresetInput.Video presetInput = Some videoParams
    /\ VideoParameters.BitRate videoParams = Some "0".
Proof.
  intros Hin Hc Hminus Hplus. unfold CreatePreset.
  match goal with
  | |- context [send (reqCreatePreset ?i) _] => exists i
  end.
  exists (createVideoPreset preset).
  split; [|split; [done|]].
  - unfold mbind, run_bind, send, deref, panic, mret, run_ret.
    destruct (API.CreatePreset _ _) as [[[created|]]|text]; simpl; [|done..].
    by destruct (Preset.Id created).
  - unfold createVideoPreset. cbn [VideoParameters.BitRate].
    by rewrite (strconv_Atoi_syntax _ c Hin Hc Hminus Hplus).
Qed.

(** A video bit rate with a unit. *)
Lemma CreatePreset_bitrate_unparsed_witness :
  exists (presetInput : CreatePresetInput.t) (videoParams : VideoParameters.t),
    fst (CreatePreset
           (example.p (example.awsJob "Submitted" []))
           {| provider.Preset.Name := "720p";
              provider.Preset.Description := "720p video";
              provider.Preset.Container := "mp4";
              provider.Preset.Profile := "Main";
              provider.Preset.ProfileLevel := "3.1";
              provider.Preset.Video :=
                {| provider.VideoPreset.Codec := "h264"; provider.VideoPreset.GopSize := "90";
                   provider.VideoPreset.GopMode := "fixed"; provider.VideoPreset.Width := "";
                   provider.VideoPreset.Height := "720";
                   provider.VideoPreset.Bitrate := "2500k" |};
              provider.Preset.Audio :=
                {| provider.AudioPreset.Codec := "aac";
                   provider.AudioPreset.Bitrate := "128000" |} |})
    = [reqCreatePreset presetInput]
    /\ CreatePresetInput.Video presetInput = Some videoParams
    /\ VideoParameters.BitRate videoParams = Some "0".
Proof.
  apply (CreatePreset_bitrate_unparsed
           (example.p (example.awsJob "Submitted" []))
           {| provider.Preset.Name := "720p";
              provider.Preset.Description := "720p video";
              provider.Preset.Container := "mp4";
              provider.Preset.Profile := "Main";
              provider.Preset.ProfileLevel := "3.1";
              provider.Preset.Video :=
                {| provider.VideoPreset.Codec := "h264"; provider.VideoPreset.GopSize := "90";
                   provider.VideoPreset.GopMode := "fixed"; provider.VideoPreset.Width := "";
                   provider.VideoPreset.Height := "720";
                   provider.VideoPreset.Bitrate := "2500k" |};
              provider.Preset.Audio :=
                {| provider.AudioPreset.Codec := "aac";
                   provider.AudioPreset.Bitrate := "128000" |} |}
           "k"%char).
  - simpl. do 4 right. by left.
  - reflexivity.
  - discriminate.
  - discriminate.
Defined.
